(** * hello_server: a shallow embedding of the diagnostic HTTP server

    The development follows [hello_server.go].  Go strings are byte
    sequences and are modelled by [string] (a list of 8-bit [ascii]);
    [http.Header], [url.Values] and the process environment are finite
    maps with string keys.  The functions of Go's standard library that
    the handlers call ([strings], [net], [net/textproto], [strconv]) are
    embedded in modules of their own, named after the Go functions. *)

From Stdlib Require Import Ascii String ZArith NArith Bool Lia.
From stdpp Require Import base option list strings gmap.

Local Open Scope string_scope.

(** ** Bytes *)

Module Byte8.

Definition code (c : ascii) : N := N_of_ascii c.
Definition of_code (n : N) : ascii := ascii_of_N n.

Definition eqb (a b : ascii) : bool := Ascii.eqb a b.

Definition between (lo hi : N) (c : ascii) : bool :=
  ((lo <=? code c) && (code c <=? hi))%N.

End Byte8.

(** ** Package [strings] *)

Module strings.

(** [len(s)] *)
Definition len (s : string) : nat := String.length s.

(** [s[:n]] and [s[n:]]; the callers below only slice inside the string. *)
Fixpoint take (n : nat) (s : string) : string :=
  match n, s with
  | S n', String c s' => String c (take n' s')
  | _, _ => ""
  end.

Fixpoint drop (n : nat) (s : string) : string :=
  match n, s with
  | S n', String _ s' => drop n' s'
  | _, _ => s
  end.

(** [strings.HasPrefix(s, prefix)] *)
Fixpoint HasPrefix (s prefix : string) {struct prefix} : bool :=
  match prefix, s with
  | "", _ => true
  | String p prefix', String c s' => Byte8.eqb c p && HasPrefix s' prefix'
  | String _ _, "" => false
  end.

(** [strings.Index(s, substr)]: the position of the first occurrence of
    [substr] in [s]; Go's [-1] is [None]. *)
Fixpoint Index (s substr : string) : option nat :=
  if HasPrefix s substr then Some 0
  else match s with
       | "" => None
       | String _ s' => S <$> Index s' substr
       end.

(** [strings.Contains(s, substr)] is [Index(s, substr) >= 0]. *)
Definition Contains (s substr : string) : bool :=
  match Index s substr with Some _ => true | None => false end.

(** [strings.IndexByte(s, c)] *)
Fixpoint IndexByte (s : string) (c : ascii) : option nat :=
  match s with
  | "" => None
  | String b s' => if Byte8.eqb b c then Some 0 else S <$> IndexByte s' c
  end.

(** [strings.LastIndexByte(s, c)] *)
Fixpoint LastIndexByte (s : string) (c : ascii) : option nat :=
  match s with
  | "" => None
  | String b s' =>
      match LastIndexByte s' c with
      | Some i => Some (S i)
      | None => if Byte8.eqb b c then Some 0 else None
      end
  end.

(** [strings.Split(s, sep)] for a separator of one byte, which is how the
    server calls it.  The result is never the empty slice: a string without
    the separator is returned whole as the only element. *)
Fixpoint Split (s : string) (sep : ascii) : list string :=
  match s with
  | "" => [""]
  | String c s' =>
      if Byte8.eqb c sep then "" :: Split s' sep
      else match Split s' sep with
           | h :: t => String c h :: t
           | [] => [String c ""]
           end
  end.

(** [strings.Join(elems, sep)] *)
Fixpoint Join (elems : list string) (sep : string) : string :=
  match elems with
  | [] => ""
  | x :: rest =>
      match rest with
      | [] => x
      | _ :: _ => x +:+ sep +:+ Join rest sep
      end
  end.

(** *** White space, as [unicode.IsSpace] sees it through UTF-8

    [strings.TrimSpace] removes white-space runes at both ends.  A rune is
    white space when it is one of the six ASCII bytes below or one of
    U+0085, U+00A0, U+1680, U+2000..U+200A, U+2028, U+2029, U+202F, U+205F,
    U+3000; the predicates give their UTF-8 encodings of one, two and three
    bytes.  Any other byte sequence, valid UTF-8 or not, is no white space. *)

Definition asciiSpace (c : ascii) : bool :=
  let n := Byte8.code c in
  ((n =? 9) || (n =? 10) || (n =? 11) || (n =? 12) || (n =? 13) || (n =? 32))%N.

Definition space2 (b0 b1 : ascii) : bool :=
  let '(x, y) := (Byte8.code b0, Byte8.code b1) in
  ((x =? 194) && ((y =? 133) || (y =? 160)))%N.

Definition space3 (b0 b1 b2 : ascii) : bool :=
  let '(x, y, z) := (Byte8.code b0, Byte8.code b1, Byte8.code b2) in
  (((x =? 225) && (y =? 154) && (z =? 128))
   || ((x =? 226) && (y =? 128)
       && (((128 <=? z) && (z <=? 138)) || (z =? 168) || (z =? 169) || (z =? 175)))
   || ((x =? 226) && (y =? 129) && (z =? 159))
   || ((x =? 227) && (y =? 128) && (z =? 128)))%N.

(** Strips leading runes recognised by [p1], [p2], [p3] (one, two and
    three bytes). *)
Fixpoint trimLeftWith (p1 : ascii -> bool) (p2 : ascii -> ascii -> bool)
    (p3 : ascii -> ascii -> ascii -> bool) (s : string) : string :=
  match s with
  | "" => ""
  | String b0 s1 =>
      if p1 b0 then trimLeftWith p1 p2 p3 s1
      else match s1 with
           | "" => s
           | String b1 s2 =>
               if p2 b0 b1 then trimLeftWith p1 p2 p3 s2
               else match s2 with
                    | "" => s
                    | String b2 s3 =>
                        if p3 b0 b1 b2 then trimLeftWith p1 p2 p3 s3 else s
                    end
           end
  end.

Definition TrimLeftSpace (s : string) : string :=
  trimLeftWith asciiSpace space2 space3 s.

(** The same from the end: the string is reversed, so the encodings are
    matched last byte first. *)
Definition TrimRightSpace (s : string) : string :=
  String.rev
    (trimLeftWith asciiSpace (fun b1 b0 => space2 b0 b1)
       (fun b2 b1 b0 => space3 b0 b1 b2) (String.rev s)).

(** [strings.TrimSpace(s)] *)
Definition TrimSpace (s : string) : string :=
  TrimRightSpace (TrimLeftSpace s).

End strings.

(** ** Package [net/textproto]: canonical header keys *)

Module textproto.

(** [validHeaderFieldByte]: the token characters of RFC 7230. *)
Definition validHeaderFieldByte (c : ascii) : bool :=
  Byte8.between 48 57 c || Byte8.between 65 90 c || Byte8.between 97 122 c
  || existsb (Byte8.eqb c)
       ["!"; "#"; "$"; "%"; "&"; "'"; "*"; "+"; "-"; "."; "^"; "_"; "`"; "|"; "~"]%char.

Fixpoint allValid (s : string) : bool :=
  match s with
  | "" => true
  | String c s' => validHeaderFieldByte c && allValid s'
  end.

(** The second loop of [canonicalMIMEHeaderKey]: upper case at the start and
    after each dash, lower case elsewhere. *)
Fixpoint canon (upper : bool) (s : string) : string :=
  match s with
  | "" => ""
  | String c s' =>
      let c' :=
        if upper && Byte8.between 97 122 c then Byte8.of_code (Byte8.code c - 32)
        else if negb upper && Byte8.between 65 90 c then Byte8.of_code (Byte8.code c + 32)
        else c in
      String c' (canon (Byte8.eqb c' "-") s')
  end.

(** [textproto.CanonicalMIMEHeaderKey(s)]: a key with a byte that is no token
    character is returned unchanged. *)
Definition CanonicalMIMEHeaderKey (s : string) : string :=
  if allValid s then canon true s else s.

End textproto.

(** ** Package [net]: [SplitHostPort] *)

Module net.

Inductive AddrError : Type :=
  | missingPort
  | tooManyColons
  | missingBracket        (* "missing ']' in address" *)
  | unexpectedOpen        (* "unexpected '[' in address" *)
  | unexpectedClose.      (* "unexpected ']' in address" *)

Definition has_byte (s : string) (c : ascii) : bool :=
  match strings.IndexByte s c with Some _ => true | None => false end.

(** The two checks that end [SplitHostPort]: no '[' from position [j] on and
    no ']' from position [k] on; then the port is what follows the last
    colon, at [i]. *)
Definition finish (hostport host : string) (i j k : nat)
    : (string * string) + AddrError :=
  if has_byte (strings.drop j hostport) "[" then inr unexpectedOpen
  else if has_byte (strings.drop k hostport) "]" then inr unexpectedClose
  else inl (host, strings.drop (i + 1) hostport).

(** [net.SplitHostPort(hostport)], branch by branch. *)
Definition SplitHostPort (hostport : string) : (string * string) + AddrError :=
  match strings.LastIndexByte hostport ":" with
  | None => inr missingPort
  | Some i =>
      if strings.HasPrefix hostport "[" then
        match strings.IndexByte hostport "]" with
        | None => inr missingBracket
        | Some e =>
            if (e + 1 =? strings.len hostport)%nat then inr missingPort
            else if (e + 1 =? i)%nat then
              finish hostport (strings.take (e - 1) (strings.drop 1 hostport)) i 1 (e + 1)
            else if strings.HasPrefix (strings.drop (e + 1) hostport) ":"
              then inr tooManyColons
              else inr missingPort
        end
      else
        let host := strings.take i hostport in
        if has_byte host ":" then inr tooManyColons
        else finish hostport host i 0 0
  end.

End net.

(** ** Package [strconv]: [Atoi] on a 64-bit platform *)

Module strconv.

Inductive NumError : Type := ErrSyntax | ErrRange.

Definition digit (c : ascii) : option Z :=
  if Byte8.between 48 57 c then Some (Z.of_N (Byte8.code c) - 48)%Z else None.

(** The loop of [ParseUint(s, 10, 64)] over the digits: a byte that is no
    digit is a syntax error, a value beyond [2^64 - 1] a range error, each
    reported where the loop meets it. *)
Fixpoint parseDigits (s : string) (n : Z) : Z + NumError :=
  match s with
  | "" => inl n
  | String c s' =>
      match digit c with
      | None => inr ErrSyntax
      | Some d =>
          if ((2 ^ 64 - 1) / 10 + 1 <=? n)%Z then inr ErrRange
          else if (2 ^ 64 - 1 <? n * 10 + d)%Z then inr ErrRange
          else parseDigits s' (n * 10 + d)%Z
      end
  end.

Definition ParseUint (s : string) : Z + NumError :=
  match s with
  | "" => inr ErrSyntax
  | _ => parseDigits s 0
  end.

(** [ParseInt(s, 10, 0)] with [int] of 64 bits. *)
Definition ParseInt (s : string) : Z + NumError :=
  match s with
  | "" => inr ErrSyntax
  | String c s' =>
      let neg := Byte8.eqb c "-" in
      let digits := if Byte8.eqb c "+" || neg then s' else s in
      match ParseUint digits with
      | inr e => inr e
      | inl un =>
          if negb neg && (2 ^ 63 <=? un)%Z then inr ErrRange
          else if neg && (2 ^ 63 <? un)%Z then inr ErrRange
          else inl (if neg then - un else un)%Z
      end
  end.

(** [strconv.Atoi(s)]: its fast path for short strings computes what
    [ParseInt] computes, so that one definition covers both. *)
Definition Atoi (s : string) : Z + NumError := ParseInt s.

End strconv.

(** ** Package [net/url]: query strings *)

Module url.

(** [url.Values] is [map[string][]string]. *)
Abbreviation Values := (gmap string (list string)).

(** [Values.Get(key)]: the first value of the key, or the empty string. *)
Definition Get (v : Values) (key : string) : string :=
  match v !! key with
  | Some (x :: _) => x
  | _ => ""
  end.

(** [strings.Cut(s, sep)] for a separator of one byte: the text before and
    after its first occurrence. *)
Definition Cut (s : string) (sep : ascii) : string * string :=
  match strings.IndexByte s sep with
  | Some i => (strings.take i s, strings.drop (i + 1) s)
  | None => (s, "")
  end.

Definition unhex (c : ascii) : option N :=
  if Byte8.between 48 57 c then Some (Byte8.code c - 48)%N
  else if Byte8.between 97 102 c then Some (Byte8.code c - 97 + 10)%N
  else if Byte8.between 65 70 c then Some (Byte8.code c - 65 + 10)%N
  else None.

(** [url.QueryUnescape(s)]: [%XX] is the byte XX, [+] is a space; a [%] that
    two hexadecimal digits do not follow is an error ([None]). *)
Fixpoint QueryUnescape (s : string) : option string :=
  match s with
  | "" => Some ""
  | String c s1 =>
      if Byte8.eqb c "%" then
        match s1 with
        | String h (String l s3) =>
            match unhex h, unhex l with
            | Some x, Some y =>
                String (Byte8.of_code (x * 16 + y)) <$> QueryUnescape s3
            | _, _ => None
            end
        | _ => None
        end
      else String (if Byte8.eqb c "+" then " "%char else c) <$> QueryUnescape s1
  end.

(** One turn of the loop of [parseQuery] on the pair [kv]: a pair with a
    semicolon, an empty pair and a pair that does not unescape are skipped. *)
Definition addPair (m : Values) (kv : string) : Values :=
  if strings.Contains kv ";" then m
  else if String.eqb kv "" then m
  else
    let '(k, v) := Cut kv "=" in
    match QueryUnescape k, QueryUnescape v with
    | Some key, Some value => <[key := (default [] (m !! key) ++ [value])%list]> m
    | _, _ => m
    end.

(** [URL.Query()], that is [ParseQuery(RawQuery)] with its error dropped:
    the loop takes the pairs between the ampersands from left to right. *)
Definition ParseQuery (query : string) : Values :=
  foldl addPair ∅ (strings.Split query "&").

(** [url.QueryEscape(s)]: letters, digits and [-_.~] stay, a space becomes
    [+], every other byte becomes [%XX] with upper-case digits. *)
Definition upperhex (n : N) : ascii :=
  if (n <? 10)%N then Byte8.of_code (48 + n) else Byte8.of_code (65 + n - 10).

Definition shouldEscape (c : ascii) : bool :=
  negb (Byte8.between 48 57 c || Byte8.between 65 90 c || Byte8.between 97 122 c
        || existsb (Byte8.eqb c) ["-"; "_"; "."; "~"]%char).

Definition escapeByte (c : ascii) : string :=
  if Byte8.eqb c " " then "+"
  else if shouldEscape c then
    String "%" (String (upperhex (Byte8.code c / 16))
                  (String (upperhex (Byte8.code c mod 16)) ""))
  else String c "".

Fixpoint QueryEscape (s : string) : string :=
  match s with
  | "" => ""
  | String c s' => escapeByte c +:+ QueryEscape s'
  end.

End url.

(** ** Package [net/http]: requests and response writers *)

Module http.

(** [http.Header] is [map[string][]string]. *)
Abbreviation Header := (gmap string (list string)).

(** [Header.Get(key)]: the first value stored under the canonical key. *)
Definition Header_Get (h : Header) (key : string) : string :=
  match h !! textproto.CanonicalMIMEHeaderKey key with
  | Some (x :: _) => x
  | _ => ""
  end.

Definition Header_Set (h : Header) (key value : string) : Header :=
  <[textproto.CanonicalMIMEHeaderKey key := [value]]> h.

Definition Header_Del (h : Header) (key : string) : Header :=
  delete (textproto.CanonicalMIMEHeaderKey key) h.

(** A request body, by what reading it to the end gives: the bytes read and
    the error, if any. *)
Record Body : Type := mkBody { data : string; readErr : option string }.

(** [io.ReadAll(r.Body)] *)
Definition io_ReadAll (b : Body) : string * option string := (data b, readErr b).

Record Request : Type := mkRequest {
  Method : string;
  URL_Path : string;
  URL_RawQuery : string;
  Proto : string;
  Header_ : Header;
  Body_ : Body;
  RemoteAddr : string }.

Definition URL_Query (r : Request) : url.Values := url.ParseQuery (URL_RawQuery r).

(** [r.UserAgent()] *)
Definition UserAgent (r : Request) : string := Header_Get (Header_ r) "User-Agent".

Definition MethodGet : string := "GET".
Definition StatusOK : Z := 200.
Definition StatusBadRequest : Z := 400.
Definition StatusNotFound : Z := 404.
Definition StatusInternalServerError : Z := 500.

(** The response as a recorder sees it: the status is 200 until the first
    [WriteHeader]; the first [Write] fixes it, and gives the response a
    content type when the handler has set none. *)
Record ResponseWriter : Type := mkResponseWriter {
  Code : Z;
  wroteHeader : bool;
  HeaderMap : Header;
  BodyBytes : string }.

Definition NewRecorder : ResponseWriter :=
  {| Code := StatusOK; wroteHeader := false; HeaderMap := ∅; BodyBytes := "" |}.

Definition WriteHeader (code : Z) (w : ResponseWriter) : ResponseWriter :=
  if wroteHeader w then w
  else {| Code := code; wroteHeader := true;
          HeaderMap := HeaderMap w; BodyBytes := BodyBytes w |}.

(** *** [DetectContentType], the sniffing of [net/http/sniff.go]

    At most the first 512 bytes are looked at.  The signatures are tried in
    the order of the table; the last one, for text, holds when no byte after
    the leading white space is a binary byte. *)

Definition sniffLen : nat := 512.

(** A string from the codes of its bytes; [n] bytes 0xFF; [n] bytes 0. *)
Definition bytes (codes : list N) : string :=
  foldr (fun n s => String (Byte8.of_code n) s) "" codes.

Definition ff (n : nat) : string := bytes (replicate n 255%N).
Definition zz (n : nat) : string := bytes (replicate n 0%N).

Definition isWS (b : ascii) : bool :=
  existsb (N.eqb (Byte8.code b)) [9; 10; 12; 13; 32]%N.

Definition isTT (b : ascii) : bool :=
  existsb (Byte8.eqb b) [" "; ">"]%char.

Inductive sniffSig : Type :=
  | htmlSig (h : string)
  | maskedSig (mask pat : string) (skipWS : bool) (ct : string)
  | exactSig (sig ct : string)
  | mp4Sig
  | textSig.

(** [htmlSig.match], on the data after the leading white space: the letters
    of the signature are matched without regard to case, and the byte after
    them ends the tag.  Data shorter than the signature and that byte do
    not match. *)
Fixpoint htmlMatch (h data : string) {struct h} : bool :=
  match h, data with
  | "", String d _ => isTT d
  | String b h', String d data' =>
      let db := if Byte8.between 65 90 b
                then Byte8.of_code (N.land (Byte8.code d) 223) else d in
      Byte8.eqb b db && htmlMatch h' data'
  | _, "" => false
  end.

(** The loop of [maskedSig.match]; data shorter than the pattern do not
    match. *)
Fixpoint maskedLoop (mask pat data : string) {struct pat} : bool :=
  match pat, mask, data with
  | "", _, _ => true
  | String pb pat', String mb mask', String d data' =>
      (N.land (Byte8.code d) (Byte8.code mb) =? Byte8.code pb)%N
      && maskedLoop mask' pat' data'
  | _, _, _ => false
  end.

Definition maskedMatch (mask pat data : string) : bool :=
  (strings.len pat =? strings.len mask)%nat && maskedLoop mask pat data.

(** [binary.BigEndian.Uint32] of the first four bytes. *)
Definition Uint32 (data : string) : N :=
  match data with
  | String a (String b (String c (String d _))) =>
      ((Byte8.code a * 256 + Byte8.code b) * 256 + Byte8.code c) * 256 + Byte8.code d
  | _ => 0
  end%N.

(** [mp4Sig.match]: the size of the first box, the type ftyp, and a brand
    that begins with mp4 at a position 8, 16, 20, ... inside the box. *)
Definition mp4Match (data : string) : bool :=
  if (strings.len data <? 12)%nat then false
  else
    let boxSize := Uint32 data in
    if (N.of_nat (strings.len data) <? boxSize)%N
       || negb (boxSize mod 4 =? 0)%N then false
    else if negb (String.eqb (strings.take 4 (strings.drop 4 data)) "ftyp") then false
    else
      existsb (fun st =>
                 (N.of_nat st <? boxSize)%N && negb (st =? 12)%nat
                 && String.eqb (strings.take 3 (strings.drop st data)) "mp4")
              ((fun k => 8 + 4 * k) <$> seq 0 126).

(** The bytes that [textSig.match] takes for binary data. *)
Definition binaryByte (b : ascii) : bool :=
  let n := Byte8.code b in
  ((n <=? 8) || (n =? 11) || ((14 <=? n) && (n <=? 26))
   || ((28 <=? n) && (n <=? 31)))%N.

Fixpoint noBinary (data : string) : bool :=
  match data with
  | "" => true
  | String b data' => negb (binaryByte b) && noBinary data'
  end.

(** [sig.match(data, firstNonWS)]: the content type, or the empty string. *)
Definition sniffMatch (sig : sniffSig) (data : string) (firstNonWS : nat) : string :=
  match sig with
  | htmlSig h =>
      if htmlMatch h (strings.drop firstNonWS data) then "text/html; charset=utf-8"
      else ""
  | maskedSig mask pat skipWS ct =>
      let data := if skipWS then strings.drop firstNonWS data else data in
      if maskedMatch mask pat data then ct else ""
  | exactSig sig ct => if strings.HasPrefix data sig then ct else ""
  | mp4Sig => if mp4Match data then "video/mp4" else ""
  | textSig =>
      if noBinary (strings.drop firstNonWS data) then "text/plain; charset=utf-8"
      else ""
  end.

Definition sniffSignatures : list sniffSig :=
  [ htmlSig "<!DOCTYPE HTML";
    htmlSig "<HTML";
    htmlSig "<HEAD";
    htmlSig "<SCRIPT";
    htmlSig "<IFRAME";
    htmlSig "<H1";
    htmlSig "<DIV";
    htmlSig "<FONT";
    htmlSig "<TABLE";
    htmlSig "<A";
    htmlSig "<STYLE";
    htmlSig "<TITLE";
    htmlSig "<B";
    htmlSig "<BODY";
    htmlSig "<BR";
    htmlSig "<P";
    htmlSig "<!--";
    maskedSig (ff 5) "<?xml" true "text/xml; charset=utf-8";
    exactSig "%PDF-" "application/pdf";
    exactSig "%!PS-Adobe-" "application/postscript";
    (* UTF BOMs *)
    maskedSig (ff 2 +:+ zz 2) (bytes [254; 255; 0; 0]%N) false "text/plain; charset=utf-16be";
    maskedSig (ff 2 +:+ zz 2) (bytes [255; 254; 0; 0]%N) false "text/plain; charset=utf-16le";
    maskedSig (ff 3 +:+ zz 1) (bytes [239; 187; 191; 0]%N) false "text/plain; charset=utf-8";
    (* Image types *)
    exactSig (bytes [0; 0; 1; 0]%N) "image/x-icon";
    exactSig (bytes [0; 0; 2; 0]%N) "image/x-icon";
    exactSig "BM" "image/bmp";
    exactSig "GIF87a" "image/gif";
    exactSig "GIF89a" "image/gif";
    maskedSig (ff 4 +:+ zz 4 +:+ ff 6) ("RIFF" +:+ zz 4 +:+ "WEBPVP") false "image/webp";
    exactSig (bytes [137]%N +:+ "PNG" +:+ bytes [13; 10; 26; 10]%N) "image/png";
    exactSig (bytes [255; 216; 255]%N) "image/jpeg";
    (* Audio and video types *)
    maskedSig (ff 4 +:+ zz 4 +:+ ff 4) ("FORM" +:+ zz 4 +:+ "AIFF") false "audio/aiff";
    maskedSig (ff 3) "ID3" false "audio/mpeg";
    maskedSig (ff 5) ("OggS" +:+ zz 1) false "application/ogg";
    maskedSig (ff 8) ("MThd" +:+ bytes [0; 0; 0; 6]%N) false "audio/midi";
    maskedSig (ff 4 +:+ zz 4 +:+ ff 4) ("RIFF" +:+ zz 4 +:+ "AVI ") false "video/avi";
    maskedSig (ff 4 +:+ zz 4 +:+ ff 4) ("RIFF" +:+ zz 4 +:+ "WAVE") false "audio/wave";
    mp4Sig;
    exactSig (bytes [26; 69; 223; 163]%N) "video/webm";
    (* Font types *)
    maskedSig (zz 34 +:+ ff 2) (zz 34 +:+ "LP") false "application/vnd.ms-fontobject";
    exactSig (bytes [0; 1; 0; 0]%N) "font/ttf";
    exactSig "OTTO" "font/otf";
    exactSig "ttcf" "font/collection";
    exactSig "wOFF" "font/woff";
    exactSig "wOF2" "font/woff2";
    (* Archive types *)
    exactSig (bytes [31; 139; 8]%N) "application/x-gzip";
    exactSig ("PK" +:+ bytes [3; 4]%N) "application/zip";
    exactSig ("Rar!" +:+ bytes [26; 7; 0]%N) "application/x-rar-compressed";
    exactSig ("Rar!" +:+ bytes [26; 7; 1; 0]%N) "application/x-rar-compressed";
    exactSig (bytes [0; 97; 115; 109]%N) "application/wasm";
    textSig ].

(** The index of the first byte that is no white space. *)
Fixpoint firstNonWS (data : string) : nat :=
  match data with
  | "" => 0
  | String b data' => if isWS b then S (firstNonWS data') else 0
  end.

Fixpoint firstSniffed (sigs : list sniffSig) (data : string) (ws : nat) : string :=
  match sigs with
  | [] => "application/octet-stream"
  | sig :: rest =>
      let ct := sniffMatch sig data ws in
      if String.eqb ct "" then firstSniffed rest data ws else ct
  end.

Definition DetectContentType (data : string) : string :=
  let data := strings.take sniffLen data in
  firstSniffed sniffSignatures data (firstNonWS data).

(** [ResponseRecorder.writeHeader(b, str)], which the first write calls:
    when the handler has set neither a content type nor a transfer encoding,
    the content type is sniffed from the bytes of the write. *)
Definition writeHeader (b : string) (w : ResponseWriter) : ResponseWriter :=
  if wroteHeader w then w
  else
    let m := HeaderMap w in
    let hasType := match m !! "Content-Type" with Some _ => true | None => false end in
    let hasTE := negb (String.eqb (Header_Get m "Transfer-Encoding") "") in
    let m := if negb hasType && negb hasTE
             then Header_Set m "Content-Type" (DetectContentType b) else m in
    WriteHeader StatusOK
      {| Code := Code w; wroteHeader := false; HeaderMap := m;
         BodyBytes := BodyBytes w |}.

Definition Write (b : string) (w : ResponseWriter) : ResponseWriter :=
  let w' := writeHeader b w in
  {| Code := Code w'; wroteHeader := true;
     HeaderMap := HeaderMap w'; BodyBytes := BodyBytes w' +:+ b |}.

Definition SetHeader (key value : string) (w : ResponseWriter) : ResponseWriter :=
  {| Code := Code w; wroteHeader := wroteHeader w;
     HeaderMap := Header_Set (HeaderMap w) key value; BodyBytes := BodyBytes w |}.

Definition DelHeader (key : string) (w : ResponseWriter) : ResponseWriter :=
  {| Code := Code w; wroteHeader := wroteHeader w;
     HeaderMap := Header_Del (HeaderMap w) key; BodyBytes := BodyBytes w |}.

End http.

(** ** Package [fmt], as far as the server uses it *)

Module fmt.

(** The line feed that Go writes as a backslash followed by n. *)
Definition nl : string := String (Byte8.of_code 10) "".

(** [fmt.Sprintf(format, args...)] for formats whose only verb is [%s] and
    arguments that are strings; a verb without an argument prints as Go
    prints it. *)
Fixpoint Sprintf (format : string) (args : list string) : string :=
  match format with
  | "" => ""
  | String c rest =>
      match rest with
      | String v rest' =>
          if Byte8.eqb c "%" && Byte8.eqb v "s" then
            match args with
            | a :: args' => a +:+ Sprintf rest' args'
            | [] => "%!s(MISSING)" +:+ Sprintf rest' []
            end
          else String c (Sprintf rest args)
      | "" => String c ""
      end
  end.

End fmt.

(** ** Package [encoding/json], for a [map[string]string] *)

Module json.

(** *** The runes of a string, as [utf8.DecodeRuneInString] finds them

    A byte from 0x80 on starts a rune of two, three or four bytes when the
    bytes that follow are there and in the ranges that UTF-8 accepts; when
    they are not, the byte alone is an error. *)

Definition cont (c : ascii) : bool := Byte8.between 128 191 c.

Definition rune2 (b0 b1 : ascii) : bool := Byte8.between 194 223 b0 && cont b1.

Definition rune3 (b0 b1 b2 : ascii) : bool :=
  let x := Byte8.code b0 in
  (((x =? 224)%N && Byte8.between 160 191 b1)
   || ((Byte8.between 225 236 b0 || Byte8.between 238 239 b0) && cont b1)
   || ((x =? 237)%N && Byte8.between 128 159 b1))
  && cont b2.

Definition rune4 (b0 b1 b2 b3 : ascii) : bool :=
  let x := Byte8.code b0 in
  (((x =? 240)%N && Byte8.between 144 191 b1)
   || (Byte8.between 241 243 b0 && cont b1)
   || ((x =? 244)%N && Byte8.between 128 143 b1))
  && cont b2 && cont b3.

Definition hex (n : N) : ascii :=
  if (n <? 10)%N then Byte8.of_code (48 + n) else Byte8.of_code (97 + n - 10).

(** [htmlSafeSet]: the ASCII bytes that are written as they are. *)
Definition htmlSafe (c : ascii) : bool :=
  (32 <=? Byte8.code c)%N && (Byte8.code c <? 128)%N
  && negb (existsb (Byte8.eqb c) ["034"; "\"; "<"; ">"; "&"]%char).

(** An ASCII byte in a string: as it is, or escaped. *)
Definition asciiByte (b : ascii) : string :=
  if htmlSafe b then String b ""
  else if Byte8.eqb b "\" || Byte8.eqb b "034" then String "\" (String b "")
  else if (Byte8.code b =? 8)%N then "\b"
  else if (Byte8.code b =? 12)%N then "\f"
  else if (Byte8.code b =? 10)%N then "\n"
  else if (Byte8.code b =? 13)%N then "\r"
  else if (Byte8.code b =? 9)%N then "\t"
  else "\u00" +:+ String (hex (Byte8.code b / 16)) (String (hex (Byte8.code b mod 16)) "").

(** The loop of [appendString] with HTML escaping, between the quotes. *)
Fixpoint escape (s : string) : string :=
  match s with
  | "" => ""
  | String b0 s1 =>
      if (Byte8.code b0 <? 128)%N then asciiByte b0 +:+ escape s1
      else
        let bad := "\ufffd" +:+ escape s1 in
        match s1 with
        | "" => bad
        | String b1 s2 =>
            if rune2 b0 b1 then String b0 (String b1 (escape s2))
            else match s2 with
                 | "" => bad
                 | String b2 s3 =>
                     if rune3 b0 b1 b2 then
                       (* U+2028 and U+2029 *)
                       if (Byte8.code b0 =? 226)%N && (Byte8.code b1 =? 128)%N
                          && ((Byte8.code b2 =? 168)%N || (Byte8.code b2 =? 169)%N)
                       then "\u202" +:+ String (hex (Byte8.code b2 - 160)) (escape s3)
                       else String b0 (String b1 (String b2 (escape s3)))
                     else match s3 with
                          | "" => bad
                          | String b3 s4 =>
                              if rune4 b0 b1 b2 b3
                              then String b0 (String b1 (String b2 (String b3 (escape s4))))
                              else bad
                          end
                 end
        end
  end.

(** A string value: [appendString(dst, src, true)]. *)
Definition quote (s : string) : string := String "034" (escape s) +:+ String "034" "".

(** The keys of a map are written in the order of their bytes. *)
Fixpoint insertByKey (p : string * string) (l : list (string * string))
    : list (string * string) :=
  match l with
  | [] => [p]
  | q :: l' =>
      if String.leb (fst p) (fst q) then p :: q :: l' else q :: insertByKey p l'
  end.

Definition sortByKey (l : list (string * string)) : list (string * string) :=
  foldr insertByKey [] l.

Definition member (p : string * string) : string := quote (fst p) +:+ ":" +:+ quote (snd p).

(** [json.Marshal(m)] for [m] of type [map[string]string]. *)
Definition Marshal (m : gmap string string) : string :=
  "{" +:+ strings.Join (member <$> sortByKey (map_to_list m)) "," +:+ "}".

(** What [json.NewEncoder(w).Encode(m)] writes: the value and a line feed. *)
Definition Encode (m : gmap string string) : string := Marshal m +:+ fmt.nl.

End json.

(** ** The cache collaborator: [github.com/go-redis/redis/v8] *)

Module redis.

(** The errors of a command: the sentinel [redis.Nil] of a missing key, or
    any other failure with its text. *)
Inductive error : Type :=
  | Nil
  | Failure (msg : string).

Record Options : Type := mkOptions {
  Addr : string;
  Password : string;
  DB : Z }.

(** A client, seen from the server: [Get(ctx, key).Result()] gives the value
    and the error, [Ping(ctx).Result()] the error. *)
Record Client : Type := mkClient {
  options : Options;
  Get : string -> string * option error;
  Ping : option error }.

End redis.

(** ** The cache as a key-value store

    What the commands of the client do on the side of the cache: [SET] with no
    expiration stores the value, [GET] gives it back or [redis.Nil]; on a
    cache that cannot be reached every command fails with the fault. *)

Module kv.

Record Cache : Type := mkCache {
  fault : option string;
  store : gmap string string }.

(** [rdb.Set(ctx, key, value, 0).Err()] *)
Definition cmdSet (key value : string) (c : Cache) : Cache * option redis.error :=
  match fault c with
  | Some msg => (c, Some (redis.Failure msg))
  | None => ({| fault := None; store := <[key := value]> (store c) |}, None)
  end.

(** [rdb.Get(ctx, key).Result()] *)
Definition cmdGet (c : Cache) (key : string) : string * option redis.error :=
  match fault c with
  | Some msg => ("", Some (redis.Failure msg))
  | None =>
      match store c !! key with
      | Some value => (value, None)
      | None => ("", Some redis.Nil)
      end
  end.

(** The client of the server while the cache is in state [c]. *)
Definition client (opts : redis.Options) (c : Cache) : redis.Client :=
  {| redis.options := opts;
     redis.Get := cmdGet c;
     redis.Ping := redis.Failure <$> fault c |}.

End kv.

(** ** The router: [github.com/gorilla/mux]

    A route made by [HandleFunc] matches a request whose path is the path of
    the route; [Methods] restricts it to the methods given.  The first route
    that matches serves the request; when none does, the request is refused
    for its method if some route has its path, and not found otherwise.
    [Match] takes the path as the router matches it: [ServeHTTP] answers a
    path that is not clean (a doubled slash, a dot segment) with a redirect
    to the clean path before any matching. *)

Module mux.

Record Route (H : Type) : Type := mkRoute {
  path : string;
  methods : list string;        (* empty: every method *)
  target : H }.

Arguments mkRoute {H} _ _ _.
Arguments path {H} _.
Arguments methods {H} _.
Arguments target {H} _.

Inductive Outcome (H : Type) : Type :=
  | Found (h : H)
  | MethodMismatch
  | NotFound.

Arguments Found {H} _.
Arguments MethodMismatch {H}.
Arguments NotFound {H}.

(** [r.HandleFunc(path, f)] and [.Methods(ms...)] on the route it returns. *)
Definition HandleFunc {H} (p : string) (f : H) : Route H := mkRoute p [] f.

Definition Methods {H} (ms : list string) (rt : Route H) : Route H :=
  mkRoute (path rt) ms (target rt).

Definition methodMatches {H} (rt : Route H) (method : string) : bool :=
  match methods rt with
  | [] => true
  | ms => existsb (String.eqb method) ms
  end.

Fixpoint matchFrom {H} (routes : list (Route H)) (reqPath method : string)
    (mismatch : bool) : Outcome H :=
  match routes with
  | [] => if mismatch then MethodMismatch else NotFound
  | rt :: rest =>
      if String.eqb (path rt) reqPath then
        if methodMatches rt method then Found (target rt)
        else matchFrom rest reqPath method true
      else matchFrom rest reqPath method mismatch
  end.

(** [Router.Match] on the path and the method of a request. *)
Definition Match {H} (routes : list (Route H)) (reqPath method : string) : Outcome H :=
  matchFrom routes reqPath method false.

End mux.

(** ** Package [main] *)

Module server.

Import http.

(** *** Effects of a handler: the response writer and the log *)

Inductive LogArg : Type :=
  | AStr (s : string)
  | AErr (e : redis.error)
  | AReq (r : Request).

(** A call of [log.Printf]: the format and its arguments, not rendered. *)
Record LogEntry : Type := mkLog { format : string; args : list LogArg }.

Record World : Type := mkWorld { resp : ResponseWriter; logs : list LogEntry }.

Definition Handler (A : Type) : Type := World -> A * World.

Definition ret {A} (a : A) : Handler A := fun w => (a, w).

Definition bind {A B} (m : Handler A) (k : A -> Handler B) : Handler B :=
  fun w => let '(a, w') := m w in k a w'.

Notation "m >> k" := (bind m (fun _ => k))
  (at level 90, right associativity, only parsing).

Definition onWriter (f : ResponseWriter -> ResponseWriter) : Handler unit :=
  fun w => (tt, {| resp := f (resp w); logs := logs w |}).

(** [w.Header().Set(key, value)] *)
Definition w_Header_Set (key value : string) : Handler unit :=
  onWriter (SetHeader key value).

(** [w.Write(b)] *)
Definition w_Write (b : string) : Handler unit := onWriter (Write b).

(** [fmt.Fprintln(w, s)] *)
Definition Fprintln (s : string) : Handler unit := w_Write (s +:+ fmt.nl).

(** [http.Error(w, error, code)] *)
Definition Error (error : string) (code : Z) : Handler unit :=
  onWriter (DelHeader "Content-Length") >>
  w_Header_Set "Content-Type" "text/plain; charset=utf-8" >>
  w_Header_Set "X-Content-Type-Options" "nosniff" >>
  onWriter (WriteHeader code) >>
  Fprintln error.

(** [log.Printf(format, args...)] *)
Definition log_Printf (format : string) (args : list LogArg) : Handler unit :=
  fun w => (tt, {| resp := resp w; logs := logs w ++ [mkLog format args] |}).

(** A handler run on a fresh recorder. *)
Definition serve (h : Handler unit) : World :=
  snd (h {| resp := NewRecorder; logs := [] |}).

(** *** [handler], the greeting *)

Definition handler (r : Request) : Handler unit :=
  let query := URL_Query r in
  let name := url.Get query "name" in
  let name := if String.eqb name "" then "Guest" else name in
  log_Printf ("Received request for %s" +:+ fmt.nl) [AStr name] >>
  log_Printf (" %v" +:+ fmt.nl) [AReq r] >>
  w_Write (fmt.Sprintf ("Hello, %s" +:+ fmt.nl) [name]).

(** *** [redisHandler], the cache lookup; [rdb] is the global client *)

Definition redisHandler (rdb : redis.Client) (r : Request) : Handler unit :=
  let key := url.Get (URL_Query r) "key" in
  if String.eqb key "" then
    Error "Query parameter 'key' is required" StatusBadRequest
  else
    let '(val, err) := redis.Get rdb key in
    match err with
    | Some redis.Nil =>
        Error (fmt.Sprintf "Key '%s' not found" [key]) StatusNotFound
    | Some e =>
        Error "Failed to retrieve data from Redis" StatusInternalServerError >>
        log_Printf "Redis GET error for key '%s': %v" [AStr key; AErr e]
    | None =>
        w_Header_Set "Content-Type" "text/plain; charset=utf-8" >>
        Fprintln val
    end.

(** *** [getClientIP]

    [parts[0]] is an indexing that panics on an empty slice; the panic is
    [None]. *)

Definition getClientIP (r : Request) : option string :=
  let xff := Header_Get (Header_ r) "X-Forwarded-For" in
  if negb (String.eqb xff "") then
    let parts := strings.Split xff "," in
    strings.TrimSpace <$> parts !! 0%nat
  else
    let xr := Header_Get (Header_ r) "X-Real-Ip" in
    if negb (String.eqb xr "") then Some xr
    else
      match net.SplitHostPort (RemoteAddr r) with
      | inr _ => Some (RemoteAddr r)
      | inl (host, _) => Some host
      end.

(** *** [userAgentHandler]: the two [switch] statements and the [resp] map

    The labels are the local variables [browser] and [osname]; the handler
    then encodes the map [resp] as JSON, which is left to the encoder. *)

Definition browser (ua : string) : string :=
  if strings.Contains ua "OPR" || strings.Contains ua "Opera" then "Opera"
  else if strings.Contains ua "Edg" || strings.Contains ua "Edge" then "Edge"
  else if strings.Contains ua "Chrome" && negb (strings.Contains ua "Chromium") then "Chrome"
  else if strings.Contains ua "Chromium" then "Chromium"
  else if strings.Contains ua "Firefox" then "Firefox"
  else if strings.Contains ua "Safari" && negb (strings.Contains ua "Chrome") then "Safari"
  else if strings.Contains ua "MSIE" || strings.Contains ua "Trident" then "Internet Explorer"
  else "Unknown".

Definition osname (ua : string) : string :=
  if strings.Contains ua "Windows" then "Windows"
  else if strings.Contains ua "Macintosh" then "macOS"
  else if strings.Contains ua "Android" then "Android"
  else if strings.Contains ua "iPhone" || strings.Contains ua "iPad" then "iOS"
  else if strings.Contains ua "Linux" then "Linux"
  else "Unknown".

Definition userAgentHandler_resp (r : Request) : option (gmap string string) :=
  let ua := UserAgent r in
  ip ← getClientIP r;
  Some (<["browser" := browser ua]> (<["os" := osname ua]>
         (<["user_agent" := ua]> (<["client_ip" := ip]> ∅)))).

(** *** [echoHandler] *)

Definition echoHandler (r : Request) : Handler unit :=
  w_Header_Set "Content-Type" "text/plain; charset=utf-8" >>
  (if String.eqb (Method r) MethodGet then
     let msg := url.Get (URL_Query r) "msg" in
     if String.eqb msg "" then Fprintln "no message"
     else Fprintln msg
   else
     (* POST: echo body *)
     let '(body, err) := io_ReadAll (Body_ r) in
     match err with
     | Some _ => Error "failed to read body" StatusBadRequest
     | None =>
         if (strings.len body =? 0)%nat then Fprintln "empty body"
         else w_Write body
     end).

(** *** [initRedis]

    The environment is a finite map; [NewClient] is [redis.NewClient], the
    client that the network gives for the options.  [log.Fatalf] writes its
    line and exits with status 1, which ends the start-up; otherwise the
    client becomes the global [rdb]. *)

Definition os_Getenv (env : gmap string string) (key : string) : string :=
  default "" (env !! key).

Inductive FatalArg : Type :=
  | FNum (e : strconv.NumError)
  | FRedis (e : redis.error).

Inductive Startup : Type :=
  | Fatalf (format : string) (arg : FatalArg)
  | Connected (rdb : redis.Client) (line : string).

Definition initRedis (env : gmap string string)
    (NewClient : redis.Options -> redis.Client) : Startup :=
  (* Configuration from environment variables *)
  let addr := os_Getenv env "REDIS_ADDR" in
  let addr :=
    if String.eqb addr ""
    then "test-db-e2kuf-redis-master.test-db-e2kuf.svc.cluster.local:6379"
    else addr in
  let dbStr := os_Getenv env "REDIS_DB" in
  let dbStr := if String.eqb dbStr "" then "0" else dbStr in
  match strconv.Atoi dbStr with
  | inr err => Fatalf "Invalid Redis DB number: %v" (FNum err)
  | inl db =>
      let rdb :=
        NewClient
          {| redis.Addr := "test-g6r4t-redis-master.test-g6r4t.svc.cluster.local:6379";
             redis.Password := "cE0+mF2_sV3_cQ3+vT0-";
             redis.DB := db |} in
      (* Ping to check connection *)
      match redis.Ping rdb with
      | Some err => Fatalf "Could not connect to Redis: %v" (FRedis err)
      | None => Connected rdb "Connected to Redis successfully."
      end
  end.

(** *** The handlers that use [getClientIP]

    A handler that may panic is an [option]: [None] is the panic. *)

Definition HandlerFunc : Type := Request -> option (Handler unit).

Definition clientIPHandler : HandlerFunc := fun r =>
  ip ← getClientIP r;
  Some (w_Header_Set "Content-Type" "text/plain; charset=utf-8" >>
        Fprintln ip).

Definition infoHandler_info (r : Request) : option (gmap string string) :=
  ip ← getClientIP r;
  Some (<["client_ip" := ip]>
       (<["user_agent" := UserAgent r]>
       (<["accept_language" := Header_Get (Header_ r) "Accept-Language"]>
       (<["method" := Method r]>
       (<["path" := URL_Path r]>
       (<["protocol" := Proto r]> ∅)))))).

Definition infoHandler : HandlerFunc := fun r =>
  info ← infoHandler_info r;
  Some (w_Header_Set "Content-Type" "application/json; charset=utf-8" >>
        w_Write (json.Encode info)).

Definition userAgentHandler : HandlerFunc := fun r =>
  resp ← userAgentHandler_resp r;
  Some (w_Header_Set "Content-Type" "application/json; charset=utf-8" >>
        w_Write (json.Encode resp)).

(** *** [headersHandler]

    [range r.Header] visits the headers in an order that Go does not fix:
    [order] is the order of one run, a permutation of the header map. *)

Fixpoint writeHeaders (order : list (string * list string)) : Handler unit :=
  match order with
  | [] => ret tt
  | (k, v) :: rest =>
      w_Write (fmt.Sprintf ("%s: %s" +:+ fmt.nl) [k; strings.Join v ", "]) >>
      writeHeaders rest
  end.

Definition headersHandler_in (order : list (string * list string)) : Handler unit :=
  w_Header_Set "Content-Type" "text/plain; charset=utf-8" >>
  writeHeaders order.

Definition headersHandler (r : Request) (h : Handler unit) : Prop :=
  exists order, order ≡ₚ map_to_list (Header_ r) /\ h = headersHandler_in order.

(** *** [seedRedisData], on the cache *)

Definition seedFailure (key : string) (err : option redis.error) : list LogEntry :=
  match err with
  | Some e => [mkLog ("Failed to seed data '" +:+ key +:+ "': %v") [AErr e]]
  | None => []
  end.

Definition seedRedisData (c : kv.Cache) : kv.Cache * list LogEntry :=
  let line := mkLog ("Seeding Redis with initial data..." +:+ fmt.nl) [] in
  let '(c1, err) := kv.cmdSet "app:name" "go-hello-server" c in
  let failed1 := seedFailure "app:name" err in
  let '(c2, err) := kv.cmdSet "user:1:name" "Cetriolo" c1 in
  let failed2 := seedFailure "user:1:name" err in
  (c2, line :: failed1 ++ failed2).

(** *** The routes of [main] and [registerExtraRoutes]

    A route names the function that it is registered with. *)

Inductive Target : Type :=
  | to_handler
  | to_infoHandler
  | to_userAgentHandler
  | to_headersHandler
  | to_clientIPHandler
  | to_echoHandler
  | to_redisHandler.

Definition registerExtraRoutes (r : list (mux.Route Target)) : list (mux.Route Target) :=
  r ++ [ mux.HandleFunc "/info" to_infoHandler;
         mux.HandleFunc "/agent" to_userAgentHandler;
         mux.HandleFunc "/headers" to_headersHandler;
         mux.HandleFunc "/ip" to_clientIPHandler;
         mux.Methods ["GET"; "POST"] (mux.HandleFunc "/echo" to_echoHandler);
         mux.Methods ["GET"] (mux.HandleFunc "/redis" to_redisHandler) ].

(** The router that [main] builds. *)
Definition router : list (mux.Route Target) :=
  registerExtraRoutes [mux.HandleFunc "/" to_handler].

End server.

(** ** The life of the process: [main] and [waitForShutdown]

    Two goroutines run after [main] has started the server: the one that
    [main] spawns around [srv.ListenAndServe()], and [main] itself, blocked in
    [waitForShutdown].  What the outside does (the signal, the passing of
    time, a new connection, the outcome of binding the port) and which
    goroutine takes its next step are events; [step] is the effect of one
    event, and it is [None] when the event cannot happen in that state.
    Time is counted in milliseconds.  The time that a request needs is the
    time until it leaves the server: answered, or cut off by the read or the
    write timeout of ten seconds that [main] gives the server; to
    [srv.Shutdown], which waits until no request is in flight, the two are
    the same. *)

Module lifecycle.

(** Where [main] stands in [waitForShutdown]. *)
Inductive MainPC : Type :=
  | MWaitSignal                 (* <-interruptChan *)
  | MCallShutdown               (* context.WithTimeout(..., time.Second*10); srv.Shutdown(ctx) *)
  | MDraining (deadline : N)    (* inside Shutdown: listeners closed, waiting *)
  | MLog                        (* log.Println("Shutting down") *)
  | MExit.                      (* os.Exit(0) *)

(** Where the spawned goroutine stands. *)
Inductive ServerPC : Type :=
  | SStarting                   (* log.Println("Starting Server"); srv.ListenAndServe() *)
  | SServing                    (* inside ListenAndServe, accepting *)
  | SReturned (err : string)    (* err != nil: log.Fatal(err) is next *)
  | SFatal (err : string).      (* inside log.Fatal(err): the line is printed,
                                   os.Exit(1) is next *)

Record Process : Type := mkProcess {
  clock : N;
  listening : bool;             (* the listener is open *)
  inflight : list N;            (* time that each request in flight still needs *)
  mainpc : MainPC;
  srvpc : ServerPC;
  log_ : list string;
  exited : option Z }.

Inductive Event : Type :=
  | Signal                      (* SIGINT or SIGTERM arrives *)
  | Elapse (ms : N)             (* [ms] milliseconds pass *)
  | Connect (need : N)          (* a client connects with a request that takes [need] ms *)
  | RunMain                     (* the scheduler runs main *)
  | RunServer (bound : bool).   (* the scheduler runs the spawned goroutine;
                                   [bound] is whether the port can be bound *)

Definition grace : N := 10 * 1000.

Definition set_main (pc : MainPC) (p : Process) : Process :=
  {| clock := clock p; listening := listening p; inflight := inflight p;
     mainpc := pc; srvpc := srvpc p; log_ := log_ p; exited := exited p |}.

Definition set_srv (pc : ServerPC) (p : Process) : Process :=
  {| clock := clock p; listening := listening p; inflight := inflight p;
     mainpc := mainpc p; srvpc := pc; log_ := log_ p; exited := exited p |}.

Definition set_listening (b : bool) (p : Process) : Process :=
  {| clock := clock p; listening := b; inflight := inflight p;
     mainpc := mainpc p; srvpc := srvpc p; log_ := log_ p; exited := exited p |}.

Definition add_log (line : string) (p : Process) : Process :=
  {| clock := clock p; listening := listening p; inflight := inflight p;
     mainpc := mainpc p; srvpc := srvpc p; log_ := log_ p ++ [line];
     exited := exited p |}.

Definition os_Exit (code : Z) (p : Process) : Process :=
  {| clock := clock p; listening := listening p; inflight := inflight p;
     mainpc := mainpc p; srvpc := srvpc p; log_ := log_ p; exited := Some code |}.

(** [ms] milliseconds of service for every request in flight; a request that
    needs no more time is answered and leaves. *)
Definition elapse (ms : N) (p : Process) : Process :=
  {| clock := (clock p + ms)%N; listening := listening p;
     inflight := filter (fun n => n <> 0%N) ((fun n => (n - ms)%N) <$> inflight p);
     mainpc := mainpc p; srvpc := srvpc p; log_ := log_ p; exited := exited p |}.

(** The next step of [main] in [waitForShutdown].  [srv.Shutdown(ctx)] closes
    the listeners, then waits until no request is in flight or the deadline
    of [ctx] has passed, whichever comes first. *)
Definition stepMain (p : Process) : option Process :=
  match mainpc p with
  | MWaitSignal => None
  | MCallShutdown =>
      (* Shutdown first closes the listeners, then waits *)
      Some (set_main (MDraining (clock p + grace)%N) (set_listening false p))
  | MDraining deadline =>
      match inflight p with
      | [] => Some (set_main MLog p)
      | _ :: _ =>
          if (deadline <=? clock p)%N then Some (set_main MLog p) else None
      end
  | MLog => Some (set_main MExit (add_log "Shutting down" p))
  | MExit => Some (os_Exit 0 p)
  end.

(** [http.ErrServerClosed], and the error of a port that cannot be bound. *)
Definition ErrServerClosed : string := "http: Server closed".
Definition ErrListen : string := "listen tcp :8080: bind: address already in use".

(** [srv.Shutdown] has been called: the server is marked as shutting down
    before its listeners are closed, and it stays so. *)
Definition shuttingDown (p : Process) : bool :=
  match mainpc p with
  | MDraining _ | MLog | MExit => true
  | MWaitSignal | MCallShutdown => false
  end.

(** The next step of the goroutine around [srv.ListenAndServe()].  The call
    returns an error that is not nil: [http.ErrServerClosed] at once when
    [Shutdown] has been called before it, the error of the listener when the
    port cannot be bound, and [http.ErrServerClosed] as soon as [Shutdown]
    has closed the listener.  The goroutine then calls [log.Fatal(err)],
    which prints the error and then calls [os.Exit(1)]: two steps, between
    which [main] may run.  The return of a call that was serving has no
    effect that [main] sees, so it is one step with the print that follows
    it. *)
Definition stepServer (bound : bool) (p : Process) : option Process :=
  match srvpc p with
  | SStarting =>
      let p1 := add_log "Starting Server" p in
      if shuttingDown p then Some (set_srv (SReturned ErrServerClosed) p1)
      else if bound then Some (set_srv SServing (set_listening true p1))
      else Some (set_srv (SReturned ErrListen) p1)
  | SServing =>
      if listening p then None
      else Some (set_srv (SFatal ErrServerClosed) (add_log ErrServerClosed p))
  | SReturned err =>
      (* log.Fatal(err): the line *)
      Some (set_srv (SFatal err) (add_log err p))
  | SFatal err =>
      (* log.Fatal(err): os.Exit(1) *)
      Some (os_Exit 1 p)
  end.

Definition step (e : Event) (p : Process) : option Process :=
  match exited p with
  | Some _ => None
  | None =>
      match e with
      | Signal =>
          match mainpc p with
          | MWaitSignal => Some (set_main MCallShutdown p)
          | _ => Some p
          end
      | Elapse ms => Some (elapse ms p)
      | Connect need =>
          if listening p
          then Some {| clock := clock p; listening := true;
                       inflight := inflight p ++ [need];
                       mainpc := mainpc p; srvpc := srvpc p;
                       log_ := log_ p; exited := None |}
          else None
      | RunMain => stepMain p
      | RunServer bound => stepServer bound p
      end
  end.

Fixpoint run (es : list Event) (p : Process) : option Process :=
  match es with
  | [] => Some p
  | e :: es' => p' ← step e p; run es' p'
  end.

(** The process when [main] calls [waitForShutdown]. *)
Definition start : Process :=
  {| clock := 0%N; listening := false; inflight := [];
     mainpc := MWaitSignal; srvpc := SStarting; log_ := []; exited := None |}.

End lifecycle.

(** ** The claims of the specification, in its own words *)

Module Spec.

Import http.

(** The first of the elements that the separator delimits: the text before
    its first occurrence, or the whole string when it does not occur. *)
Definition firstField (s : string) (sep : ascii) : string :=
  match strings.IndexByte s sep with
  | Some i => strings.take i s
  | None => s
  end.

(** A string made of runes of the three kinds and of nothing else; with the
    white-space runes of [strings], a string of white space. *)
Inductive runes (p1 : ascii -> bool) (p2 : ascii -> ascii -> bool)
    (p3 : ascii -> ascii -> ascii -> bool) : string -> Prop :=
  | runes_nil : runes p1 p2 p3 ""
  | runes_1 b s : p1 b = true -> runes p1 p2 p3 s -> runes p1 p2 p3 (String b s)
  | runes_2 b0 b1 s : p2 b0 b1 = true -> runes p1 p2 p3 s ->
      runes p1 p2 p3 (String b0 (String b1 s))
  | runes_3 b0 b1 b2 s : p3 b0 b1 b2 = true -> runes p1 p2 p3 s ->
      runes p1 p2 p3 (String b0 (String b1 (String b2 s))).

Definition blanks : string -> Prop :=
  runes strings.asciiSpace strings.space2 strings.space3.

(** The string begins, or ends, with a white-space rune. *)
Definition beginsBlank (t : string) : Prop :=
  (exists c u, t = String c u /\ strings.asciiSpace c = true)
  \/ (exists b0 b1 u, t = String b0 (String b1 u) /\ strings.space2 b0 b1 = true)
  \/ (exists b0 b1 b2 u, t = String b0 (String b1 (String b2 u))
        /\ strings.space3 b0 b1 b2 = true).

Definition endsBlank (t : string) : Prop :=
  (exists c u, t = u +:+ String c "" /\ strings.asciiSpace c = true)
  \/ (exists b0 b1 u, t = u +:+ String b0 (String b1 "")
        /\ strings.space2 b0 b1 = true)
  \/ (exists b0 b1 b2 u, t = u +:+ String b0 (String b1 (String b2 ""))
        /\ strings.space3 b0 b1 b2 = true).

(** [t] is [s] with the surrounding white space trimmed: white space
    before [t] and after it, and none left at either end of [t]. *)
Definition trimmed (s t : string) : Prop :=
  exists a b, s = a +:+ t +:+ b /\ blanks a /\ blanks b
    /\ ~ beginsBlank t /\ ~ endsBlank t.

(** The header is present and its (first) value [v] is not empty. *)
Definition present (h : Header) (key v : string) : Prop :=
  exists vs, h !! key = Some (v :: vs) /\ v <> "".

(** The header is absent, or present with an empty (first) value. *)
Definition blank (h : Header) (key : string) : Prop :=
  forall v vs, h !! key = Some (v :: vs) -> v = "".

(** A classification rule: a test on the user agent and the label it gives. *)
Definition Rule : Type := (string -> bool) * string.

Definition has (sub : string) (ua : string) : bool := strings.Contains ua sub.

Definition browserRules : list Rule :=
  [ (fun ua => has "OPR" ua || has "Opera" ua, "Opera");
    (fun ua => has "Edg" ua || has "Edge" ua, "Edge");
    (fun ua => has "Chrome" ua && negb (has "Chromium" ua), "Chrome");
    (fun ua => has "Chromium" ua, "Chromium");
    (fun ua => has "Firefox" ua, "Firefox");
    (fun ua => has "Safari" ua && negb (has "Chrome" ua), "Safari");
    (fun ua => has "MSIE" ua || has "Trident" ua, "Internet Explorer") ].

Definition osRules : list Rule :=
  [ (fun ua => has "Windows" ua, "Windows");
    (fun ua => has "Macintosh" ua, "macOS");
    (fun ua => has "Android" ua, "Android");
    (fun ua => has "iPhone" ua || has "iPad" ua, "iOS");
    (fun ua => has "Linux" ua, "Linux") ].

(** The label of the first rule whose test holds, in the order of the list;
    "Unknown" when none does. *)
Fixpoint firstMatch (rules : list Rule) (ua : string) : string :=
  match rules with
  | [] => "Unknown"
  | (test, label) :: rest => if test ua then label else firstMatch rest ua
  end.

Definition browserLabels : list string :=
  ["Opera"; "Edge"; "Chrome"; "Chromium"; "Firefox"; "Safari";
   "Internet Explorer"; "Unknown"].

Definition osLabels : list string :=
  ["Windows"; "macOS"; "Android"; "iOS"; "Linux"; "Unknown"].

(** The response that greets [name]: status 200, and the content type that
    the first write finds for the body, since the handler sets none. *)
Definition greeting (name : string) : ResponseWriter :=
  {| Code := 200; wroteHeader := true;
     HeaderMap :=
       <["Content-Type" := [DetectContentType ("Hello, " +:+ name +:+ fmt.nl)]]> ∅;
     BodyBytes := "Hello, " +:+ name +:+ fmt.nl |}.

(** A plain-text response with status 200 and the given body. *)
Definition plainText (body : string) : ResponseWriter :=
  {| Code := 200; wroteHeader := true;
     HeaderMap := <["Content-Type" := ["text/plain; charset=utf-8"]]> ∅;
     BodyBytes := body |}.

(** The response that [http.Error] leaves on a writer whose headers are [h]. *)
Definition failed (h : Header) (code : Z) (message : string) : ResponseWriter :=
  {| Code := code; wroteHeader := true;
     HeaderMap :=
       <["X-Content-Type-Options" := ["nosniff"]]>
         (<["Content-Type" := ["text/plain; charset=utf-8"]]>
            (delete "Content-Length" h));
     BodyBytes := message +:+ fmt.nl |}.

End Spec.

(** ** Shapes of strings, for the statements below *)

Module Shape.

(** The string holds none of the bytes. *)
Definition free (cs : list ascii) (s : string) : Prop :=
  forall c, In c cs -> strings.IndexByte s c = None.

(** Every byte of the string passes the test. *)
Fixpoint every (p : ascii -> bool) (s : string) : bool :=
  match s with
  | "" => true
  | String c s' => p c && every p s'
  end.

(** A byte that a line of JSON for a browser may hold: no byte below 32,
    hence no line feed, and none of the three bytes that HTML gives a
    meaning. *)
Definition wire (c : ascii) : bool :=
  (32 <=? Byte8.code c)%N && negb (existsb (Byte8.eqb c) ["<"; ">"; "&"]%char).

(** A JSON object with the fields in the order of the list. *)
Definition object (fields : list (string * string)) : string :=
  "{" +:+ strings.Join (json.member <$> fields) "," +:+ "}".

(** A JSON response with status 200 and the given body. *)
Definition jsonResponse (body : string) : http.ResponseWriter :=
  {| http.Code := 200; http.wroteHeader := true;
     http.HeaderMap := <["Content-Type" := ["application/json; charset=utf-8"]]> ∅;
     http.BodyBytes := body |}.

(** The line of a header in the answer of [headersHandler]. *)
Definition headerLine (k : string) (v : list string) : string :=
  k +:+ ": " +:+ strings.Join v ", " +:+ fmt.nl.

(** The lines of the headers, in the order of the list. *)
Fixpoint linesOf (order : list (string * list string)) : string :=
  match order with
  | [] => ""
  | (k, v) :: rest => headerLine k v +:+ linesOf rest
  end.

End Shape.

(** ** What holds of every state of the process *)

Module Reach.

Import lifecycle.

(** The listener of a server that is serving is closed only by
    [srv.Shutdown], hence after the signal; the error that
    [srv.ListenAndServe()] returned is the one of a closed server, after the
    signal, or the one of the port; inside [log.Fatal] the error is in the
    log; [main] is at [os.Exit(0)] only after its log line; the status is 0
    only from there, and 1 only from [log.Fatal]; there is no other
    status. *)
Definition sound (p : Process) : Prop :=
  (srvpc p = SServing -> listening p = false -> mainpc p <> MWaitSignal)
  /\ (forall err, srvpc p = SReturned err \/ srvpc p = SFatal err ->
        (err = ErrServerClosed /\ mainpc p <> MWaitSignal) \/ err = ErrListen)
  /\ (forall err, srvpc p = SFatal err -> In err (log_ p))
  /\ (mainpc p = MExit -> In "Shutting down" (log_ p))
  /\ (exited p = Some 0%Z -> mainpc p = MExit)
  /\ (exited p = Some 1%Z -> exists err, srvpc p = SFatal err)
  /\ (forall code, exited p = Some code -> code = 0%Z \/ code = 1%Z).

(** The goroutine holds the error of a port that could not be bound. *)
Definition failedBind (p : Process) : Prop :=
  srvpc p = SReturned ErrListen \/ srvpc p = SFatal ErrListen.

End Reach.

(** ** Requests for the examples *)

Module Samples.

Import http.

(** A request without query and body, as [httptest.NewRequest("GET", "/", nil)]
    gives it, with the headers and the peer address set. *)
Definition request (h : Header) (remote : string) : Request :=
  {| Method := "GET"; URL_Path := "/"; URL_RawQuery := ""; Proto := "HTTP/1.1";
     Header_ := h; Body_ := mkBody "" None; RemoteAddr := remote |}.

(** A request with the method, the query string and the outcome of reading
    the body set. *)
Definition query (method rawQuery : string) (body : Body) : Request :=
  {| Method := method; URL_Path := "/"; URL_RawQuery := rawQuery;
     Proto := "HTTP/1.1"; Header_ := ∅; Body_ := body;
     RemoteAddr := "192.0.2.1:1234" |}.

(** A body that was read whole, and a body whose reading failed. *)
Definition readBody (b : string) : Body := mkBody b None.
Definition brokenBody : Body := mkBody "" (Some "unexpected EOF").

(** A cache that holds what [seedRedisData] stores, and nothing else. *)
Definition seeded : redis.Client :=
  {| redis.options := {| redis.Addr := ""; redis.Password := ""; redis.DB := 0 |};
     redis.Get := fun key =>
       if String.eqb key "app:name" then ("go-hello-server", None)
       else if String.eqb key "user:1:name" then ("Cetriolo", None)
       else ("", Some redis.Nil);
     redis.Ping := None |}.

(** A network on which every address reaches that cache. *)
Definition reachable (opts : redis.Options) : redis.Client :=
  {| redis.options := opts; redis.Get := redis.Get seeded; redis.Ping := None |}.

(** A cache whose every command fails. *)
Definition unreachable : redis.Client :=
  {| redis.options := {| redis.Addr := ""; redis.Password := ""; redis.DB := 0 |};
     redis.Get := fun _ => ("", Some (redis.Failure "i/o timeout"));
     redis.Ping := Some (redis.Failure "i/o timeout") |}.

(** The address that [initRedis] gives to [redis.NewClient]. *)
Definition addrLiteral : string :=
  "test-g6r4t-redis-master.test-g6r4t.svc.cluster.local:6379".

(** The server is listening, a request that needs three seconds is in
    flight, the signal arrives and [main] calls [srv.Shutdown]. *)
Definition busy : list lifecycle.Event :=
  [lifecycle.RunServer true; lifecycle.Connect 3000; lifecycle.Signal;
   lifecycle.RunMain].

(** The process after [busy]. *)
Definition closing : lifecycle.Process :=
  {| lifecycle.clock := 0; lifecycle.listening := false;
     lifecycle.inflight := [3000%N];
     lifecycle.mainpc := lifecycle.MDraining 10000;
     lifecycle.srvpc := lifecycle.SServing;
     lifecycle.log_ := ["Starting Server"]; lifecycle.exited := None |}.

(** After [busy] the spawned goroutine prints the error of the closed
    server, the request is answered, [main] logs its line, and the spawned
    goroutine is the first to exit. *)
Definition race : list lifecycle.Event :=
  busy ++ [lifecycle.RunServer true; lifecycle.Elapse 3000; lifecycle.RunMain;
           lifecycle.RunMain; lifecycle.RunServer true].

Definition raced : lifecycle.Process :=
  {| lifecycle.clock := 3000; lifecycle.listening := false;
     lifecycle.inflight := [];
     lifecycle.mainpc := lifecycle.MExit;
     lifecycle.srvpc := lifecycle.SFatal lifecycle.ErrServerClosed;
     lifecycle.log_ := ["Starting Server"; lifecycle.ErrServerClosed; "Shutting down"];
     lifecycle.exited := Some 1%Z |}.

(** The server is listening, a request that needs [need] milliseconds is
    in flight, the signal has arrived and [main] is about to call
    [srv.Shutdown]. *)
Definition signalled (need : N) : lifecycle.Process :=
  {| lifecycle.clock := 0; lifecycle.listening := true;
     lifecycle.inflight := [need];
     lifecycle.mainpc := lifecycle.MCallShutdown;
     lifecycle.srvpc := lifecycle.SServing;
     lifecycle.log_ := ["Starting Server"]; lifecycle.exited := None |}.

(** A cache that answers and holds nothing, and a cache that cannot be
    reached. *)
Definition emptyCache : kv.Cache := {| kv.fault := None; kv.store := ∅ |}.
Definition lostCache : kv.Cache :=
  {| kv.fault := Some "i/o timeout"; kv.store := ∅ |}.

End Samples.

(** * Properties *)

(** ** Bytes and strings *)

Module Byte8Facts.

Lemma eqb_eq a b : Byte8.eqb a b = true <-> a = b.
Proof. apply Ascii.eqb_eq. Qed.

Lemma eqb_refl a : Byte8.eqb a a = true.
Proof. apply Ascii.eqb_refl. Qed.

Lemma eqb_neq a b : Byte8.eqb a b = false <-> a <> b.
Proof. apply Ascii.eqb_neq. Qed.

End Byte8Facts.

Module StringsFacts.

Import strings.

Lemma app_cons c a b : String c a +:+ b = String c (a +:+ b).
Proof. reflexivity. Qed.

Lemma app_nil_l a : "" +:+ a = a.
Proof. reflexivity. Qed.

Lemma app_nil_r a : a +:+ "" = a.
Proof. induction a as [|c a IH]; [reflexivity|]. rewrite app_cons, IH. reflexivity. Qed.

Lemma app_assoc a b c : (a +:+ b) +:+ c = a +:+ (b +:+ c).
Proof. induction a as [|x a IH]; [reflexivity|]. rewrite !app_cons, IH. reflexivity. Qed.

Lemma len_app a b : len (a +:+ b) = len a + len b.
Proof. unfold len. induction a as [|x a IH]; [reflexivity|]. rewrite app_cons. simpl. rewrite IH. reflexivity. Qed.

Lemma take_app_len a b : take (len a) (a +:+ b) = a.
Proof. unfold len. induction a as [|x a IH]; [destruct b; reflexivity|]. rewrite app_cons. simpl. rewrite IH. reflexivity. Qed.

Lemma drop_app_len a b : drop (len a) (a +:+ b) = b.
Proof. unfold len. induction a as [|x a IH]; [destruct b; reflexivity|]. rewrite app_cons. simpl. apply IH. Qed.

Lemma HasPrefix_spec s p : HasPrefix s p = true <-> exists t, s = p +:+ t.
Proof.
  revert s; induction p as [|c p IH]; intros s; simpl.
  - split; [intros _; exists s; reflexivity | reflexivity].
  - destruct s as [|d s]; simpl.
    + split; [discriminate | intros [t Ht]; discriminate].
    + rewrite andb_true_iff, Byte8Facts.eqb_eq, IH. split.
      * intros [-> [t ->]]. exists t. reflexivity.
      * intros [t Ht]. rewrite app_cons in Ht. injection Ht as -> ->. eauto.
Qed.

Lemma Index_Some_spec s sub i :
  Index s sub = Some i -> exists a b, s = a +:+ sub +:+ b /\ len a = i.
Proof.
  revert i; induction s as [|c s IH]; intros i; simpl.
  - destruct (HasPrefix "" sub) eqn:E; [|discriminate].
    intros [= <-]. apply HasPrefix_spec in E as [t Ht]. exists "", t. split; [exact Ht|reflexivity].
  - destruct (HasPrefix (String c s) sub) eqn:E.
    + intros [= <-]. apply HasPrefix_spec in E as [t Ht]. exists "", t. split; [exact Ht|reflexivity].
    + destruct (Index s sub) as [j|] eqn:Ej; [|discriminate].
      intros [= <-]. destruct (IH j eq_refl) as (a & b & -> & Hl).
      exists (String c a), b. rewrite app_cons. split; [reflexivity|]. unfold len in *. simpl. rewrite Hl. reflexivity.
Qed.

Lemma Index_unfold s sub :
  Index s sub =
  if HasPrefix s sub then Some 0
  else match s with "" => None | String _ s' => S <$> Index s' sub end.
Proof. destruct s; reflexivity. Qed.

Lemma Index_app_Some a sub b : exists i, Index (a +:+ sub +:+ b) sub = Some i.
Proof.
  induction a as [|c a [i IH]].
  - rewrite app_nil_l, Index_unfold.
    assert (H : HasPrefix (sub +:+ b) sub = true) by (apply HasPrefix_spec; eauto).
    rewrite H. eauto.
  - rewrite app_cons, Index_unfold.
    destruct (HasPrefix _ sub); [eauto|]. rewrite IH. simpl. eauto.
Qed.

Lemma Contains_spec s sub : Contains s sub = true <-> exists a b, s = a +:+ sub +:+ b.
Proof.
  unfold Contains. split.
  - destruct (Index s sub) as [i|] eqn:E; [|discriminate].
    intros _. destruct (Index_Some_spec _ _ _ E) as (a & b & H & _). eauto.
  - intros (a & b & ->). destruct (Index_app_Some a sub b) as [i ->]. reflexivity.
Qed.

Lemma take_cons n c s : take (S n) (String c s) = String c (take n s).
Proof. reflexivity. Qed.

Lemma drop_cons n c s : drop (S n) (String c s) = drop n s.
Proof. reflexivity. Qed.

Lemma IndexByte_split s c i :
  IndexByte s c = Some i ->
  s = take i s +:+ String c (drop (S i) s) /\ IndexByte (take i s) c = None.
Proof.
  revert i; induction s as [|b s IH]; intros i; simpl; [discriminate|].
  destruct (Byte8.eqb b c) eqn:E.
  - intros [= <-]. apply Byte8Facts.eqb_eq in E as ->. split; reflexivity.
  - destruct (IndexByte s c) as [j|]; [|discriminate].
    intros [= <-]. destruct (IH j eq_refl) as [H1 H2].
    rewrite ?take_cons, ?drop_cons, app_cons, <- H1. simpl. rewrite E, H2. split; reflexivity.
Qed.

Lemma LastIndexByte_split s c i :
  LastIndexByte s c = Some i ->
  s = take i s +:+ String c (drop (S i) s) /\ LastIndexByte (drop (S i) s) c = None.
Proof.
  revert i; induction s as [|b s IH]; intros i; simpl; [discriminate|].
  destruct (LastIndexByte s c) as [j|] eqn:Ej.
  - intros [= <-]. destruct (IH j eq_refl) as [H1 H2].
    rewrite ?take_cons, ?drop_cons, app_cons, <- H1. split; [reflexivity|exact H2].
  - destruct (Byte8.eqb b c) eqn:E; [|discriminate].
    intros [= <-]. apply Byte8Facts.eqb_eq in E as ->. simpl.
    destruct s; split; try reflexivity; exact Ej.
Qed.

Lemma IndexByte_app a b c :
  IndexByte (a +:+ b) c =
  match IndexByte a c with
  | Some i => Some i
  | None => (fun j => len a + j) <$> IndexByte b c
  end.
Proof.
  unfold len. induction a as [|x a IH].
  - rewrite app_nil_l. simpl. destruct (IndexByte b c); reflexivity.
  - rewrite app_cons. simpl. destruct (Byte8.eqb x c); [reflexivity|].
    rewrite IH. destruct (IndexByte a c); [reflexivity|].
    destruct (IndexByte b c); reflexivity.
Qed.

Lemma IndexByte_app_None a b c :
  IndexByte (a +:+ b) c = None <-> IndexByte a c = None /\ IndexByte b c = None.
Proof.
  rewrite IndexByte_app.
  destruct (IndexByte a c), (IndexByte b c); simpl; split;
    try discriminate; try tauto; intros [? ?]; discriminate.
Qed.

Lemma LastIndexByte_None s c : LastIndexByte s c = None <-> IndexByte s c = None.
Proof.
  induction s as [|b s IH]; simpl; [tauto|].
  destruct (Byte8.eqb b c).
  - destruct (LastIndexByte s c); split; discriminate.
  - destruct (LastIndexByte s c), (IndexByte s c); simpl; split; try discriminate; try reflexivity.
    + intros _. destruct IH as [_ IH]. discriminate (IH eq_refl).
    + intros _. destruct IH as [IH _]. discriminate (IH eq_refl).
Qed.

Lemma LastIndexByte_app a c b :
  IndexByte b c = None -> LastIndexByte (a +:+ String c b) c = Some (len a).
Proof.
  intros Hb. unfold len. induction a as [|x a IH].
  - rewrite app_nil_l. simpl. apply LastIndexByte_None in Hb. rewrite Hb, Byte8Facts.eqb_refl. reflexivity.
  - rewrite app_cons. simpl. rewrite IH. reflexivity.
Qed.

Lemma Split_nonempty s sep : Split s sep <> [].
Proof. destruct s as [|c s]; simpl; [discriminate|]. destruct (Byte8.eqb c sep); [discriminate|]. destruct (Split s sep); discriminate. Qed.

(** [Split] cuts at every separator and nowhere else: joining the elements
    with the separator gives the string back, and no element holds the
    separator. *)
Lemma Join_Split s sep : Join (Split s sep) (String sep "") = s.
Proof.
  induction s as [|c s IH]; [reflexivity|]. simpl Split.
  destruct (Byte8.eqb c sep) eqn:E.
  - apply Byte8Facts.eqb_eq in E as ->.
    destruct (Split s sep) as [|h t] eqn:Es; [destruct (Split_nonempty _ _ Es)|].
    change (Join ("" :: h :: t) (String sep "")) with (String sep (Join (h :: t) (String sep ""))).
    rewrite IH. reflexivity.
  - destruct (Split s sep) as [|h t] eqn:Es; [destruct (Split_nonempty _ _ Es)|].
    rewrite <- IH. destruct t; reflexivity.
Qed.

Lemma Split_no_sep s sep : Forall (fun x => IndexByte x sep = None) (Split s sep).
Proof.
  induction s as [|c s IH]; simpl.
  - repeat constructor.
  - destruct (Byte8.eqb c sep) eqn:E.
    + constructor; [reflexivity | exact IH].
    + destruct (Split s sep) as [|h t]; [repeat constructor; simpl; rewrite E; reflexivity|].
      inversion IH as [|? ? Hh Ht]; subst. constructor; [|exact Ht].
      simpl. rewrite E, Hh. reflexivity.
Qed.

(** *** Reversal *)

Lemma rev_app_app s1 s2 s3 : String.rev_app s1 s2 +:+ s3 = String.rev_app s1 (s2 +:+ s3).
Proof. revert s2; induction s1 as [|a s1 IH]; intros s2; simpl; [reflexivity|]. apply IH. Qed.

Lemma rev_app_rev s1 s2 : String.rev_app s1 s2 = String.rev s1 +:+ s2.
Proof. unfold String.rev. rewrite rev_app_app. reflexivity. Qed.

Lemma rev_app_distr a b : String.rev (a +:+ b) = String.rev b +:+ String.rev a.
Proof.
  unfold String.rev. generalize "" at 1 3 as c.
  induction a as [|x a IH]; intros c.
  - rewrite app_nil_l. simpl. apply rev_app_rev.
  - rewrite app_cons. simpl. apply IH.
Qed.

Lemma rev_cons c s : String.rev (String c s) = String.rev s +:+ String c "".
Proof. unfold String.rev. simpl. apply rev_app_rev. Qed.

Lemma rev_involutive s : String.rev (String.rev s) = s.
Proof.
  induction s as [|c s IH]; [reflexivity|].
  rewrite rev_cons, rev_app_distr, IH. reflexivity.
Qed.

(** *** Trimming *)

Lemma trimLeftWith_suffix p1 p2 p3 s :
  exists pre, s = pre +:+ trimLeftWith p1 p2 p3 s.
Proof.
  assert (H : forall n s, String.length s <= n ->
                exists pre, s = pre +:+ trimLeftWith p1 p2 p3 s).
  { clear s. induction n as [|n IH]; intros s Hn.
    - destruct s; [exists ""; reflexivity | simpl in Hn; lia].
    - destruct s as [|b0 s1]; [exists ""; reflexivity|]. simpl in Hn. simpl.
      destruct (p1 b0).
      { destruct (IH s1 ltac:(lia)) as [pre Hp]. exists (String b0 pre).
        rewrite app_cons, <- Hp. reflexivity. }
      destruct s1 as [|b1 s2]; [exists ""; reflexivity|]. simpl in Hn.
      destruct (p2 b0 b1).
      { destruct (IH s2 ltac:(lia)) as [pre Hp]. exists (String b0 (String b1 pre)).
        rewrite !app_cons, <- Hp. reflexivity. }
      destruct s2 as [|b2 s3]; [exists ""; reflexivity|]. simpl in Hn.
      destruct (p3 b0 b1 b2); [|exists ""; reflexivity].
      destruct (IH s3 ltac:(lia)) as [pre Hp].
      exists (String b0 (String b1 (String b2 pre))).
      rewrite !app_cons, <- Hp. reflexivity. }
  apply (H (String.length s)). lia.
Qed.

Lemma trimLeftWith_head p1 p2 p3 s c t :
  trimLeftWith p1 p2 p3 s = String c t -> p1 c = false.
Proof.
  assert (H : forall n s, String.length s <= n ->
                trimLeftWith p1 p2 p3 s = String c t -> p1 c = false).
  { clear s. induction n as [|n IH]; intros s Hn.
    - destruct s; [discriminate | simpl in Hn; lia].
    - destruct s as [|b0 s1]; [discriminate|]. simpl in Hn. simpl.
      destruct (p1 b0) eqn:E1; [apply IH; lia|].
      destruct s1 as [|b1 s2]; [intros [= <- _]; exact E1|]. simpl in Hn.
      destruct (p2 b0 b1); [apply IH; lia|].
      destruct s2 as [|b2 s3]; [intros [= <- _]; exact E1|]. simpl in Hn.
      destruct (p3 b0 b1 b2); [apply IH; lia|].
      intros [= <- _]. exact E1. }
  apply (H (String.length s)). lia.
Qed.

(** What [TrimSpace] returns lies inside its argument. *)
Lemma TrimSpace_infix s : exists a b, s = a +:+ TrimSpace s +:+ b.
Proof.
  unfold TrimSpace, TrimRightSpace, TrimLeftSpace.
  destruct (trimLeftWith_suffix asciiSpace space2 space3 s) as [a Ha].
  set (u := trimLeftWith asciiSpace space2 space3 s) in *.
  destruct (trimLeftWith_suffix asciiSpace (fun b1 b0 => space2 b0 b1)
              (fun b2 b1 b0 => space3 b0 b1 b2) (String.rev u)) as [b Hb].
  set (v := trimLeftWith _ _ _ (String.rev u)) in *.
  exists a, (String.rev b).
  rewrite <- rev_app_distr, <- Hb, rev_involutive. exact Ha.
Qed.

(** It neither begins nor ends with an ASCII space. *)
Lemma TrimSpace_ends s :
  (forall c t, TrimSpace s = String c t -> asciiSpace c = false) /\
  (forall c t, TrimSpace s = t +:+ String c "" -> asciiSpace c = false).
Proof.
  unfold TrimSpace, TrimRightSpace, TrimLeftSpace.
  set (u := trimLeftWith asciiSpace space2 space3 s).
  destruct (trimLeftWith_suffix asciiSpace (fun b1 b0 => space2 b0 b1)
              (fun b2 b1 b0 => space3 b0 b1 b2) (String.rev u)) as [b Hb].
  set (v := trimLeftWith _ _ _ (String.rev u)) in *.
  split.
  - intros c t Hv.
    assert (Hu : u = String c (t +:+ String.rev b)).
    { rewrite <- (rev_involutive u), Hb, rev_app_distr, Hv. reflexivity. }
    apply (trimLeftWith_head _ _ _ _ _ _ Hu).
  - intros c t Hv.
    assert (Hv' : v = String c (String.rev t)).
    { rewrite <- (rev_involutive v), Hv, rev_app_distr. reflexivity. }
    apply (trimLeftWith_head _ _ _ _ _ _ Hv').
Qed.

(** *** Trimming, as the removal of white space

    What [TrimSpace] takes away at either end is white space, and it leaves
    none there. *)

Lemma runes_app p1 p2 p3 a b :
  Spec.runes p1 p2 p3 a -> Spec.runes p1 p2 p3 b -> Spec.runes p1 p2 p3 (a +:+ b).
Proof.
  intros Ha Hb. induction Ha as [|c s Hc _ IH|b0 b1 s Hc _ IH|b0 b1 b2 s Hc _ IH];
    rewrite ?app_nil_l, ?app_cons; [exact Hb|..]; constructor; assumption.
Qed.

(** A string of runes read backwards, reversed, is a string of runes. *)
Lemma runes_rev p1 p2 p3 s :
  Spec.runes p1 (fun b1 b0 => p2 b0 b1) (fun b2 b1 b0 => p3 b0 b1 b2) s ->
  Spec.runes p1 p2 p3 (String.rev s).
Proof.
  intros H. induction H as [|c s Hc _ IH|b0 b1 s Hc _ IH|b0 b1 b2 s Hc _ IH].
  - constructor.
  - rewrite rev_cons. apply runes_app; [exact IH|]. apply Spec.runes_1; [exact Hc | constructor].
  - rewrite !rev_cons, app_assoc. apply runes_app; [exact IH|].
    apply (Spec.runes_2 _ _ _ b1 b0); [exact Hc | constructor].
  - rewrite !rev_cons, !app_assoc. apply runes_app; [exact IH|].
    apply (Spec.runes_3 _ _ _ b2 b1 b0); [exact Hc | constructor].
Qed.

(** What [trimLeftWith] takes away is a string of runes, and what it leaves
    begins with none. *)
Lemma trimLeftWith_runes p1 p2 p3 s :
  exists pre, s = pre +:+ trimLeftWith p1 p2 p3 s /\ Spec.runes p1 p2 p3 pre.
Proof.
  assert (H : forall n s, String.length s <= n ->
                exists pre, s = pre +:+ trimLeftWith p1 p2 p3 s /\ Spec.runes p1 p2 p3 pre).
  { clear s. induction n as [|n IH]; intros s Hn.
    - destruct s; [exists ""; split; [reflexivity | constructor] | simpl in Hn; lia].
    - destruct s as [|b0 s1]; [exists ""; split; [reflexivity | constructor]|].
      simpl in Hn. simpl.
      destruct (p1 b0) eqn:E1.
      { destruct (IH s1 ltac:(lia)) as (pre & Hp & Hr). exists (String b0 pre).
        rewrite app_cons, <- Hp. split; [reflexivity | constructor; assumption]. }
      destruct s1 as [|b1 s2]; [exists ""; split; [reflexivity | constructor]|].
      simpl in Hn.
      destruct (p2 b0 b1) eqn:E2.
      { destruct (IH s2 ltac:(lia)) as (pre & Hp & Hr).
        exists (String b0 (String b1 pre)).
        rewrite !app_cons, <- Hp. split; [reflexivity | constructor; assumption]. }
      destruct s2 as [|b2 s3]; [exists ""; split; [reflexivity | constructor]|].
      simpl in Hn.
      destruct (p3 b0 b1 b2) eqn:E3; [|exists ""; split; [reflexivity | constructor]].
      destruct (IH s3 ltac:(lia)) as (pre & Hp & Hr).
      exists (String b0 (String b1 (String b2 pre))).
      rewrite !app_cons, <- Hp. split; [reflexivity | constructor; assumption]. }
  apply (H (String.length s)). lia.
Qed.

Lemma trimLeftWith_stops p1 p2 p3 s :
  (forall c u, trimLeftWith p1 p2 p3 s = String c u -> p1 c = false)
  /\ (forall b0 b1 u, trimLeftWith p1 p2 p3 s = String b0 (String b1 u) -> p2 b0 b1 = false)
  /\ (forall b0 b1 b2 u, trimLeftWith p1 p2 p3 s = String b0 (String b1 (String b2 u)) ->
        p3 b0 b1 b2 = false).
Proof.
  assert (H : forall n s, String.length s <= n ->
    (forall c u, trimLeftWith p1 p2 p3 s = String c u -> p1 c = false)
    /\ (forall b0 b1 u, trimLeftWith p1 p2 p3 s = String b0 (String b1 u) -> p2 b0 b1 = false)
    /\ (forall b0 b1 b2 u, trimLeftWith p1 p2 p3 s = String b0 (String b1 (String b2 u)) ->
          p3 b0 b1 b2 = false)).
  { clear s. induction n as [|n IH]; intros s Hn.
    - destruct s; [repeat split; discriminate | simpl in Hn; lia].
    - destruct s as [|b0 s1]; [repeat split; discriminate|]. simpl in Hn. simpl.
      destruct (p1 b0) eqn:E1; [apply IH; lia|].
      destruct s1 as [|b1 s2].
      { repeat split; try discriminate. intros c u [= <- _]. exact E1. }
      simpl in Hn.
      destruct (p2 b0 b1) eqn:E2; [apply IH; lia|].
      destruct s2 as [|b2 s3].
      { repeat split; try discriminate.
        - intros c u [= <- _]. exact E1.
        - intros c0 c1 u [= <- <- _]. exact E2. }
      simpl in Hn.
      destruct (p3 b0 b1 b2) eqn:E3; [apply IH; lia|].
      repeat split.
      + intros c u [= <- _]. exact E1.
      + intros c0 c1 u [= <- <- _]. exact E2.
      + intros c0 c1 c2 u [= <- <- <- _]. exact E3. }
  apply (H (String.length s)). lia.
Qed.

(** [TrimSpace] removes white space at both ends, and all of it. *)
Lemma TrimSpace_trimmed s : Spec.trimmed s (TrimSpace s).
Proof.
  unfold TrimSpace, TrimRightSpace, TrimLeftSpace.
  destruct (trimLeftWith_runes asciiSpace space2 space3 s) as (a & Ha & Hra).
  destruct (trimLeftWith_stops asciiSpace space2 space3 s) as (Hu1 & Hu2 & Hu3).
  set (u := trimLeftWith asciiSpace space2 space3 s) in *.
  destruct (trimLeftWith_runes asciiSpace (fun b1 b0 => space2 b0 b1)
              (fun b2 b1 b0 => space3 b0 b1 b2) (String.rev u)) as (b & Hb & Hrb).
  destruct (trimLeftWith_stops asciiSpace (fun b1 b0 => space2 b0 b1)
              (fun b2 b1 b0 => space3 b0 b1 b2) (String.rev u)) as (Hv1 & Hv2 & Hv3).
  set (v := trimLeftWith _ _ _ (String.rev u)) in *.
  assert (Hu : u = String.rev v +:+ String.rev b).
  { rewrite <- rev_app_distr, <- Hb, rev_involutive. reflexivity. }
  exists a, (String.rev b). split; [rewrite <- Hu; exact Ha|].
  split; [exact Hra|]. split; [apply runes_rev; exact Hrb|]. split.
  - intros [(c & t & Ht & Hc)|[(b0 & b1 & t & Ht & Hc)|(b0 & b1 & b2 & t & Ht & Hc)]];
      rewrite Ht, ?app_cons in Hu.
    + rewrite (Hu1 _ _ Hu) in Hc. discriminate.
    + rewrite (Hu2 _ _ _ Hu) in Hc. discriminate.
    + rewrite (Hu3 _ _ _ _ Hu) in Hc. discriminate.
  - intros [(c & t & Ht & Hc)|[(b0 & b1 & t & Ht & Hc)|(b0 & b1 & b2 & t & Ht & Hc)]].
    + assert (Hv : v = String c (String.rev t)).
      { rewrite <- (rev_involutive v), Ht, rev_app_distr. reflexivity. }
      rewrite (Hv1 _ _ Hv) in Hc. discriminate.
    + assert (Hv : v = String b1 (String b0 (String.rev t))).
      { rewrite <- (rev_involutive v), Ht, rev_app_distr. reflexivity. }
      rewrite (Hv2 _ _ _ Hv) in Hc. discriminate.
    + assert (Hv : v = String b2 (String b1 (String b0 (String.rev t)))).
      { rewrite <- (rev_involutive v), Ht, rev_app_distr. reflexivity. }
      rewrite (Hv3 _ _ _ _ Hv) in Hc. discriminate.
Qed.

Example TrimSpace_examples :
  TrimSpace "  1.2.3.4 " = "1.2.3.4" /\
  TrimSpace " 5.6.7.8" = "5.6.7.8" /\
  TrimSpace "a b" = "a b" /\
  TrimSpace "   " = "" /\
  (* U+00A0 before and U+3000 after *)
  TrimSpace (String (Byte8.of_code 194) (String (Byte8.of_code 160)
               (String "x" (String (Byte8.of_code 227) (String (Byte8.of_code 128)
                  (String (Byte8.of_code 128) "")))))) = "x".
Proof. repeat split. Qed.

Lemma Split_whole s sep : IndexByte s sep = None -> Split s sep = [s].
Proof.
  induction s as [|c s IH]; [reflexivity|]. simpl.
  destruct (Byte8.eqb c sep); [discriminate|].
  destruct (IndexByte s sep); [discriminate|]. intros _. rewrite IH; reflexivity.
Qed.

Lemma Index_byte s c : Index s (String c "") = IndexByte s c.
Proof.
  induction s as [|b s IH]; [reflexivity|].
  rewrite Index_unfold. simpl. rewrite andb_true_r.
  destruct (Byte8.eqb b c); [reflexivity|]. rewrite IH. reflexivity.
Qed.

Lemma Contains_byte s c : IndexByte s c = None -> Contains s (String c "") = false.
Proof. intros H. unfold Contains. rewrite Index_byte, H. reflexivity. Qed.

End StringsFacts.

(** ** The first element of a list and the parts of an address *)

Module NetFacts.

Import strings StringsFacts net.

Lemma Split_first s sep : Split s sep !! 0%nat = Some (Spec.firstField s sep).
Proof.
  unfold Spec.firstField. induction s as [|c s IH]; [reflexivity|].
  simpl. destruct (Byte8.eqb c sep); [reflexivity|].
  destruct (Split s sep) as [|h t]; [discriminate|].
  simpl in IH. injection IH as ->.
  destruct (IndexByte s sep); reflexivity.
Qed.

Lemma firstField_split s sep :
  exists rest, s = Spec.firstField s sep +:+ rest
    /\ IndexByte (Spec.firstField s sep) sep = None
    /\ (rest = "" \/ exists rest', rest = String sep rest').
Proof.
  unfold Spec.firstField. destruct (IndexByte s sep) as [i|] eqn:E.
  - destruct (IndexByte_split _ _ _ E) as [H1 H2]. eauto 6.
  - exists "". rewrite app_nil_r. auto.
Qed.

Lemma has_byte_false s c : has_byte s c = false <-> IndexByte s c = None.
Proof. unfold has_byte. destruct (IndexByte s c); split; congruence. Qed.

(** A host and a port without colons and brackets, joined by a colon, are
    split back into the two. *)
Lemma SplitHostPort_plain host port :
  (forall c, In c [":"; "["; "]"]%char -> IndexByte host c = None) ->
  (forall c, In c [":"; "["; "]"]%char -> IndexByte port c = None) ->
  SplitHostPort (host +:+ ":" +:+ port) = inl (host, port).
Proof.
  intros Hh Hp. unfold SplitHostPort.
  assert (Hc := Hh ":"%char ltac:(simpl; auto)).
  assert (Ho := Hh "["%char ltac:(simpl; auto)).
  assert (Hk := Hh "]"%char ltac:(simpl; auto)).
  assert (Hc' := Hp ":"%char ltac:(simpl; auto)).
  assert (Ho' := Hp "["%char ltac:(simpl; auto)).
  assert (Hk' := Hp "]"%char ltac:(simpl; auto)).
  change (":" +:+ port) with (String ":" port).
  rewrite (LastIndexByte_app host ":" port Hc').
  assert (Hpre : HasPrefix (host +:+ String ":" port) "[" = false).
  { destruct host as [|x host]; [reflexivity|]. rewrite app_cons.
    simpl in Ho. destruct (Byte8.eqb x "[") eqn:E; [discriminate|].
    simpl. rewrite E. reflexivity. }
  rewrite Hpre. cbv zeta. rewrite take_app_len.
  assert (Hhb : has_byte host ":" = false) by (apply has_byte_false; exact Hc).
  rewrite Hhb. unfold finish. simpl drop at 1 2.
  assert (H1 : has_byte (host +:+ String ":" port) "[" = false).
  { apply has_byte_false, IndexByte_app_None. split; [exact Ho|]. simpl. rewrite Ho'. reflexivity. }
  assert (H2 : has_byte (host +:+ String ":" port) "]" = false).
  { apply has_byte_false, IndexByte_app_None. split; [exact Hk|]. simpl. rewrite Hk'. reflexivity. }
  rewrite H1, H2.
  replace (len host + 1) with (len (host +:+ ":")) by (rewrite len_app; reflexivity).
  change (String ":" port) with (":" +:+ port).
  rewrite <- app_assoc, drop_app_len. reflexivity.
Qed.

Lemma take_S_IndexByte s c e :
  IndexByte s c = Some e -> take (S e) s = take e s +:+ String c "".
Proof.
  revert e; induction s as [|b s IH]; intros e; simpl; [discriminate|].
  destruct (Byte8.eqb b c) eqn:E.
  - intros [= <-]. apply Byte8Facts.eqb_eq in E as ->. destruct s; reflexivity.
  - destruct (IndexByte s c) as [j|]; [|discriminate].
    intros [= <-]. rewrite ?take_cons, app_cons. f_equal. apply IH. reflexivity.
Qed.

(** What [SplitHostPort] accepts has one of the two shapes [host:port] and
    [[host]:port]. *)
Lemma SplitHostPort_sound hostport host port :
  SplitHostPort hostport = inl (host, port) ->
  hostport = host +:+ ":" +:+ port \/ hostport = "[" +:+ host +:+ "]:" +:+ port.
Proof.
  unfold SplitHostPort.
  destruct (LastIndexByte hostport ":") as [i|] eqn:Ei; [|discriminate].
  destruct (LastIndexByte_split _ _ _ Ei) as [Hi _].
  destruct (HasPrefix hostport "[") eqn:Hpre.
  - apply HasPrefix_spec in Hpre as [t ->]. change ("[" +:+ t) with (String "[" t) in *.
    simpl IndexByte. destruct (IndexByte t "]") as [e'|] eqn:Ee; [|discriminate].
    simpl fmap. cbv beta iota.
    destruct (S e' + 1 =? len (String "[" t))%nat; [discriminate|].
    destruct (S e' + 1 =? i)%nat eqn:Eq.
    + apply Nat.eqb_eq in Eq. subst i. unfold finish.
      destruct (has_byte _ "["); [discriminate|].
      destruct (has_byte _ "]"); [discriminate|].
      intros H. right.
      assert (Hh : host = take e' t).
      { replace (take e' t) with (take (S e' - 1) (drop 1 (String "[" t))); [congruence|].
        replace (S e' - 1) with e' by lia. reflexivity. }
      assert (Hp : port = drop (S (S e')) t).
      { replace (drop (S (S e')) t) with (drop (S e' + 1 + 1) (String "[" t)); [congruence|].
        replace (S e' + 1 + 1) with (S (S (S e'))) by lia. reflexivity. }
      clear H. subst host port.
      replace (S e' + 1) with (S (S e')) in Hi by lia.
      rewrite take_cons, drop_cons, app_cons in Hi.
      assert (Ht : t = take (S e') t +:+ String ":" (drop (S (S e')) t)) by congruence.
      rewrite (take_S_IndexByte _ _ _ Ee), app_assoc in Ht.
      rewrite !app_cons, app_nil_l. f_equal. exact Ht.
    + destruct (HasPrefix _ ":"); discriminate.
  - cbv zeta. destruct (has_byte (take i hostport) ":"); [discriminate|].
    unfold finish. destruct (has_byte _ "["); [discriminate|].
    destruct (has_byte _ "]"); [discriminate|].
    intros H. left.
    assert (Hh : host = take i hostport) by congruence.
    assert (Hp : port = drop (S i) hostport).
    { replace (S i) with (i + 1) by lia. congruence. }
    subst host port. exact Hi.
Qed.

Example SplitHostPort_examples :
  SplitHostPort "9.9.9.9:1234" = inl ("9.9.9.9", "1234") /\
  SplitHostPort "[::1]:8080" = inl ("::1", "8080") /\
  SplitHostPort "bad-addr" = inr missingPort /\
  SplitHostPort "::1:8080" = inr tooManyColons /\
  SplitHostPort "[::1]" = inr missingPort /\
  SplitHostPort "[::1]:80:90" = inr tooManyColons /\
  SplitHostPort "[::1" = inr missingBracket /\
  SplitHostPort "a[b:80" = inr unexpectedOpen /\
  SplitHostPort "a]b:80" = inr unexpectedClose /\
  SplitHostPort "" = inr missingPort.
Proof. repeat split. Qed.

(** An accepted address with an empty host is [:port] or [[]:port]. *)
Lemma SplitHostPort_empty_host hostport port :
  SplitHostPort hostport = inl ("", port) ->
  hostport = ":" +:+ port \/ hostport = "[]:" +:+ port.
Proof. intros H. apply SplitHostPort_sound in H. exact H. Qed.

End NetFacts.

(** ** The client-IP resolver *)

Module ClientIP.

Import http server strings StringsFacts net NetFacts.

Lemma present_Get (h : Header) key v :
  textproto.CanonicalMIMEHeaderKey key = key ->
  Spec.present h key v -> Header_Get h key = v /\ String.eqb v "" = false.
Proof.
  intros Hk (vs & Hl & Hv). unfold Header_Get. rewrite Hk, Hl. split; [reflexivity|].
  apply String.eqb_neq. exact Hv.
Qed.

Lemma blank_Get (h : Header) key :
  textproto.CanonicalMIMEHeaderKey key = key ->
  Spec.blank h key <-> Header_Get h key = "".
Proof.
  intros Hk. unfold Header_Get, Spec.blank. rewrite Hk.
  destruct (h !! key) as [[|x xs]|]; split; try reflexivity; try discriminate.
  - intros H. apply (H x xs). reflexivity.
  - intros -> v vs [= <- _]. reflexivity.
Qed.

(** A header is either present with a non-empty value or blank, never both. *)
Lemma present_or_blank (h : Header) key :
  (exists v, Spec.present h key v) \/ Spec.blank h key.
Proof.
  unfold Spec.present, Spec.blank.
  destruct (h !! key) as [[|x xs]|]; try (right; discriminate).
  destruct (String.eqb_spec x "") as [->|Hx].
  - right. intros v vs [= <- _]. reflexivity.
  - left. eauto.
Qed.

Lemma present_not_blank (h : Header) key v :
  Spec.present h key v -> ~ Spec.blank h key.
Proof. intros (vs & Hl & Hv) Hb. apply Hv, (Hb v vs Hl). Qed.

(** The value that [getClientIP] computes, branch by branch. *)
Lemma getClientIP_eq r :
  getClientIP r =
  Some (let xff := Header_Get (Header_ r) "X-Forwarded-For" in
        let xr := Header_Get (Header_ r) "X-Real-Ip" in
        if String.eqb xff "" then
          if String.eqb xr "" then
            match SplitHostPort (RemoteAddr r) with
            | inl (host, _) => host
            | inr _ => RemoteAddr r
            end
          else xr
        else TrimSpace (Spec.firstField xff ",")).
Proof.
  unfold getClientIP. cbv zeta.
  destruct (String.eqb (Header_Get (Header_ r) "X-Forwarded-For") ""); simpl negb; cbv iota.
  - destruct (String.eqb (Header_Get (Header_ r) "X-Real-Ip") ""); simpl negb; cbv iota;
      [|reflexivity].
    destruct (SplitHostPort (RemoteAddr r)) as [[host port]|e]; reflexivity.
  - rewrite Split_first. reflexivity.
Qed.

(** C1: [getClientIP] follows a priority order in which the first match
    wins.  When the header X-Forwarded-For is present and not empty, the
    result is its first comma-separated element with the surrounding white
    space trimmed: the element is white space, the result, white space, and
    the result neither begins nor ends with a white-space rune; otherwise,
    when X-Real-Ip is present and not empty, the result is that value as it
    is; otherwise the peer address is parsed as host:port, and the result is
    the host when that succeeds and the peer address unchanged when it
    fails. *)
Theorem getClientIP_priority (r : Request) :
  (forall v, Spec.present (Header_ r) "X-Forwarded-For" v ->
     getClientIP r = Some (TrimSpace (Spec.firstField v ","))
     /\ Spec.trimmed (Spec.firstField v ",") (TrimSpace (Spec.firstField v ","))) /\
  (Spec.blank (Header_ r) "X-Forwarded-For" ->
     forall v, Spec.present (Header_ r) "X-Real-Ip" v -> getClientIP r = Some v) /\
  (Spec.blank (Header_ r) "X-Forwarded-For" -> Spec.blank (Header_ r) "X-Real-Ip" ->
     (forall host port, SplitHostPort (RemoteAddr r) = inl (host, port) ->
        getClientIP r = Some host) /\
     (forall e, SplitHostPort (RemoteAddr r) = inr e ->
        getClientIP r = Some (RemoteAddr r))).
Proof.
  rewrite getClientIP_eq. cbv zeta. split; [|split].
  - intros v Hv. split; [|apply TrimSpace_trimmed].
    apply present_Get in Hv as [-> ->]; reflexivity.
  - intros Hb v Hv. apply blank_Get in Hb; [|reflexivity].
    apply present_Get in Hv as [Hg Hne]; [|reflexivity].
    rewrite Hb, Hg, Hne. reflexivity.
  - intros Hb Hb'. apply blank_Get in Hb, Hb'; try reflexivity.
    rewrite Hb, Hb'. split.
    + intros host port Hs. rewrite Hs. reflexivity.
    + intros e Hs. rewrite Hs. reflexivity.
Qed.

Lemma blank_empty key : Spec.blank ∅ key.
Proof. intros v vs H. rewrite lookup_empty in H. discriminate. Qed.

(** The cases of [TestGetClientIP], each through the theorem; the first
    with white space around the first element of the forwarding header. *)
Lemma getClientIP_priority_witness :
  getClientIP (Samples.request (<["X-Forwarded-For" := [" 1.2.3.4 , 5.6.7.8"]]> ∅)
                 "9.9.9.9:1234") = Some "1.2.3.4" /\
  Spec.trimmed " 1.2.3.4 " "1.2.3.4" /\
  getClientIP (Samples.request (<["X-Real-Ip" := ["2.2.2.2"]]> ∅) "9.9.9.9:1234")
    = Some "2.2.2.2" /\
  getClientIP (Samples.request ∅ "3.3.3.3:5678") = Some "3.3.3.3" /\
  getClientIP (Samples.request ∅ "bad-addr") = Some "bad-addr".
Proof.
  assert (Hp : Spec.present
                 (Header_ (Samples.request
                             (<["X-Forwarded-For" := [" 1.2.3.4 , 5.6.7.8"]]> ∅)
                             "9.9.9.9:1234"))
                 "X-Forwarded-For" " 1.2.3.4 , 5.6.7.8").
  { exists []. split; [vm_compute; reflexivity | discriminate]. }
  split; [|split; [|split; [|split]]].
  - exact (proj1 (proj1 (getClientIP_priority _) " 1.2.3.4 , 5.6.7.8" Hp)).
  - exact (proj2 (proj1 (getClientIP_priority _) " 1.2.3.4 , 5.6.7.8" Hp)).
  - apply (proj1 (proj2 (getClientIP_priority _))).
    + intros v vs H. vm_compute in H. discriminate.
    + exists []. split; [vm_compute; reflexivity | discriminate].
  - apply (proj1 (proj2 (proj2 (getClientIP_priority (Samples.request ∅ "3.3.3.3:5678")))
                      (blank_empty _) (blank_empty _)) "3.3.3.3" "5678").
    vm_compute. reflexivity.
  - apply (proj2 (proj2 (proj2 (getClientIP_priority (Samples.request ∅ "bad-addr")))
                      (blank_empty _) (blank_empty _)) net.missingPort).
    vm_compute. reflexivity.
Defined.

(** A plain host and port are split at the colon, so that the fall-back
    returns the host. *)
Lemma getClientIP_peer_host host port :
  (forall c, In c [":"; "["; "]"]%char -> IndexByte host c = None) ->
  (forall c, In c [":"; "["; "]"]%char -> IndexByte port c = None) ->
  getClientIP (Samples.request ∅ (host +:+ ":" +:+ port)) = Some host.
Proof.
  intros Hh Hp. rewrite getClientIP_eq. cbv zeta.
  change (RemoteAddr (Samples.request ∅ (host +:+ ":" +:+ port)))
    with (host +:+ ":" +:+ port).
  rewrite (SplitHostPort_plain host port Hh Hp). reflexivity.
Qed.

(** C2, as stated, fails: for a forwarding header whose list begins with a
    comma the first element is empty, and the result is the empty string. *)
Lemma getClientIP_empty_forwarded :
  getClientIP (Samples.request (<["X-Forwarded-For" := [", 5.6.7.8"]]> ∅)
                 "9.9.9.9:1234") = Some "".
Proof. vm_compute. reflexivity. Qed.

(** So it is for a first element of white space, and, without forwarding
    headers, for an empty peer address and for a peer address without host. *)
Lemma getClientIP_empty_others :
  getClientIP (Samples.request (<["X-Forwarded-For" := ["  , 5.6.7.8"]]> ∅)
                 "9.9.9.9:1234") = Some "" /\
  getClientIP (Samples.request ∅ "") = Some "" /\
  getClientIP (Samples.request ∅ ":8080") = Some "".
Proof. repeat split; vm_compute; reflexivity. Qed.

(** C2, amended: [getClientIP] returns a string for every header mapping and
    peer address and signals no error (the indexing [parts[0]] never panics).
    The string is empty exactly when X-Forwarded-For is present and not empty
    but its first comma-separated element is empty once trimmed, or when both
    headers are blank and the peer address is empty or is accepted with an
    empty host. *)
Theorem getClientIP_total_empty_iff (r : Request) :
  exists ip, getClientIP r = Some ip /\
    (ip = "" <->
       (exists v, Spec.present (Header_ r) "X-Forwarded-For" v
                  /\ TrimSpace (Spec.firstField v ",") = "")
       \/ (Spec.blank (Header_ r) "X-Forwarded-For"
           /\ Spec.blank (Header_ r) "X-Real-Ip"
           /\ (RemoteAddr r = ""
               \/ exists port, SplitHostPort (RemoteAddr r) = inl ("", port)))).
Proof.
  rewrite getClientIP_eq. eexists. split; [reflexivity|]. cbv zeta.
  destruct (present_or_blank (Header_ r) "X-Forwarded-For") as [[v Hv]|Hb].
  - pose proof (present_not_blank _ _ _ Hv) as Hnb.
    destruct (present_Get _ _ _ eq_refl Hv) as [Hg Hne]. rewrite Hg, Hne.
    split.
    + intros H. left. eauto.
    + intros [(v' & Hv' & Ht)|(Hb & _)]; [|contradiction].
      destruct (present_Get _ _ _ eq_refl Hv') as [Hg' _]. congruence.
  - pose proof (proj1 (blank_Get _ _ eq_refl) Hb) as Hg. rewrite Hg. simpl String.eqb. cbv iota.
    destruct (present_or_blank (Header_ r) "X-Real-Ip") as [[v Hv]|Hb'].
    + pose proof (present_not_blank _ _ _ Hv) as Hnb.
      destruct (present_Get _ _ _ eq_refl Hv) as [Hg' Hne]. rewrite Hg', Hne.
      split.
      * intros ->. discriminate.
      * intros [(v' & Hv' & _)|(_ & Hb' & _)]; [|contradiction].
        destruct (present_not_blank _ _ _ Hv' Hb).
    + pose proof (proj1 (blank_Get _ _ eq_refl) Hb') as Hg'. rewrite Hg'. simpl String.eqb. cbv iota.
      split.
      * intros H. right. split; [exact Hb|]. split; [exact Hb'|].
        destruct (SplitHostPort (RemoteAddr r)) as [[host port]|e]; [|left; exact H].
        right. subst host. eauto.
      * intros [(v' & Hv' & _)|(_ & _ & [H|[port H]])].
        -- destruct (present_not_blank _ _ _ Hv' Hb).
        -- rewrite H. reflexivity.
        -- rewrite H. reflexivity.
Qed.

End ClientIP.

(** ** The user-agent classifier *)

Module Classifier.

Import server.

Ltac first_rule :=
  repeat match goal with
    | |- context [strings.Contains ?ua ?k] =>
        destruct (strings.Contains ua k); simpl; try reflexivity
    end.

Lemma browser_firstMatch ua : browser ua = Spec.firstMatch Spec.browserRules ua.
Proof. unfold browser, Spec.browserRules, Spec.has. simpl. first_rule. Qed.

Lemma osname_firstMatch ua : osname ua = Spec.firstMatch Spec.osRules ua.
Proof. unfold osname, Spec.osRules, Spec.has. simpl. first_rule. Qed.

(** The label of a rule list is one of the labels of its rules or "Unknown". *)
Lemma firstMatch_In rules labels ua :
  Forall (fun rule : Spec.Rule => In (snd rule) labels) rules ->
  In "Unknown" labels ->
  In (Spec.firstMatch rules ua) labels.
Proof.
  intros Hr Hu. induction Hr as [|[test label] rest Hl _ IH]; simpl.
  - exact Hu.
  - destruct (test ua); [exact Hl | exact IH].
Qed.

Lemma firstMatch_none rules ua :
  Forall (fun rule : Spec.Rule => fst rule ua = false) rules ->
  Spec.firstMatch rules ua = "Unknown".
Proof.
  intros Hr. induction Hr as [|[test label] rest Hl _ IH]; simpl.
  - reflexivity.
  - simpl in Hl. rewrite Hl. exact IH.
Qed.

(** A rule that holds after rules that do not gives its label. *)
Lemma firstMatch_hit before test label after ua :
  Forall (fun rule : Spec.Rule => fst rule ua = false) before ->
  test ua = true ->
  Spec.firstMatch (before ++ (test, label) :: after) ua = label.
Proof.
  intros Hb Ht. induction Hb as [|[test' label'] rest Hl _ IH]; simpl.
  - rewrite Ht. reflexivity.
  - simpl in Hl. rewrite Hl. exact IH.
Qed.

(** C3: the browser label is the label of the first rule that holds in the
    ordered list OPR or Opera, Edg or Edge, Chrome without Chromium, Chromium,
    Firefox, Safari without Chrome, MSIE or Trident, and "Unknown" when none
    holds; the label of the operating system is that of the first rule that
    holds in the list Windows, Macintosh, Android, iPhone or iPad, Linux,
    and "Unknown" when none holds.  To contain a word is to have it as a
    substring. *)
Theorem classifier_first_match (ua : string) :
  browser ua = Spec.firstMatch Spec.browserRules ua /\
  osname ua = Spec.firstMatch Spec.osRules ua /\
  (forall sub, Spec.has sub ua = true <-> exists a b, ua = a +:+ sub +:+ b).
Proof.
  split; [apply browser_firstMatch | split; [apply osname_firstMatch|]].
  intros sub. apply StringsFacts.Contains_spec.
Qed.

(** C9: the browser label is one of the eight labels and the label of the
    operating system one of the six, and each is "Unknown" when no rule of
    its list holds. *)
Theorem classifier_labels_closed (ua : string) :
  In (browser ua) Spec.browserLabels /\
  In (osname ua) Spec.osLabels /\
  (Forall (fun rule : Spec.Rule => fst rule ua = false) Spec.browserRules ->
     browser ua = "Unknown") /\
  (Forall (fun rule : Spec.Rule => fst rule ua = false) Spec.osRules ->
     osname ua = "Unknown").
Proof.
  rewrite browser_firstMatch, osname_firstMatch.
  split; [|split; [|split]].
  - apply firstMatch_In; [|simpl; tauto]. repeat constructor; simpl; tauto.
  - apply firstMatch_In; [|simpl; tauto]. repeat constructor; simpl; tauto.
  - apply firstMatch_none.
  - apply firstMatch_none.
Qed.

(** A user agent that no rule knows gets both defaults. *)
Lemma classifier_labels_closed_witness :
  browser "curl/8.5.0" = "Unknown" /\ osname "curl/8.5.0" = "Unknown".
Proof.
  split.
  - apply (proj1 (proj2 (proj2 (classifier_labels_closed "curl/8.5.0")))).
    repeat constructor.
  - apply (proj2 (proj2 (proj2 (classifier_labels_closed "curl/8.5.0")))).
    repeat constructor.
Defined.

(** Every label of the two sets is the label of some user agent. *)
Lemma labels_attained :
  Forall (fun label => exists ua, browser ua = label) Spec.browserLabels /\
  Forall (fun label => exists ua, osname ua = label) Spec.osLabels.
Proof.
  split.
  - repeat constructor;
      [exists "OPR" | exists "Edg" | exists "Chrome" | exists "Chromium"
      | exists "Firefox" | exists "Safari" | exists "MSIE" | exists ""];
      reflexivity.
  - repeat constructor;
      [exists "Windows" | exists "Macintosh" | exists "Android" | exists "iPad"
      | exists "Linux" | exists ""];
      reflexivity.
Qed.

(** The request of [TestUserAgentHandler] and the map that the handler
    encodes for it. *)
Example userAgentHandler_test :
  userAgentHandler_resp
    (Samples.request
       (<["User-Agent" := ["Mozilla/5.0 (Windows NT 10.0; Win64; x64) Chrome/90.0"]]> ∅)
       "6.6.6.6:2222")
  = Some (<["browser" := "Chrome"]> (<["os" := "Windows"]>
           (<["user_agent" := "Mozilla/5.0 (Windows NT 10.0; Win64; x64) Chrome/90.0"]>
              (<["client_ip" := "6.6.6.6"]> ∅)))).
Proof. vm_compute. reflexivity. Qed.

(** The order matters: an Opera user agent also names Chrome and Safari, and
    an Android one also names Linux. *)
Example classifier_order :
  let ua := "Mozilla/5.0 (Linux; Android 10) Chrome/90.0 Safari/537.36 OPR/63.3" in
  browser ua = "Opera" /\ osname ua = "Android".
Proof. split; reflexivity. Qed.

End Classifier.

(** ** Query strings *)

Module UrlFacts.

Import strings StringsFacts.

Lemma QueryUnescape_plain s :
  IndexByte s "%" = None -> IndexByte s "+" = None -> url.QueryUnescape s = Some s.
Proof.
  induction s as [|c s IH]; [reflexivity|]. simpl.
  destruct (Byte8.eqb c "%"); [discriminate|].
  destruct (Byte8.eqb c "+"); [discriminate|].
  destruct (IndexByte s "%"); [discriminate|].
  destruct (IndexByte s "+"); [discriminate|].
  intros _ _. rewrite IH; reflexivity.
Qed.

(** The query [key=value] with a plain value has the one pair it shows: the
    value is looked up as it is written. *)
Lemma ParseQuery_pair key value :
  key <> "" ->
  (forall c, In c ["&"; ";"; "="; "%"; "+"]%char -> IndexByte key c = None) ->
  (forall c, In c ["&"; ";"; "%"; "+"]%char -> IndexByte value c = None) ->
  url.ParseQuery (key +:+ String "=" value) = <[key := [value]]> ∅.
Proof.
  intros Hne Hk Hv. unfold url.ParseQuery.
  assert (Hamp : IndexByte (key +:+ String "=" value) "&" = None).
  { apply IndexByte_app_None. split; [apply Hk; simpl; tauto|].
    simpl. rewrite (Hv "&"%char); [reflexivity | simpl; tauto]. }
  assert (Hsemi : IndexByte (key +:+ String "=" value) ";" = None).
  { apply IndexByte_app_None. split; [apply Hk; simpl; tauto|].
    simpl. rewrite (Hv ";"%char); [reflexivity | simpl; tauto]. }
  rewrite (Split_whole _ _ Hamp). simpl foldl. unfold url.addPair.
  rewrite (Contains_byte _ _ Hsemi).
  assert (He : String.eqb (key +:+ String "=" value) "" = false).
  { destruct key; [contradiction | reflexivity]. }
  rewrite He. unfold url.Cut.
  assert (Hi : IndexByte (key +:+ String "=" value) "=" = Some (len key)).
  { rewrite IndexByte_app, (Hk "="%char ltac:(simpl; tauto)). simpl.
    f_equal. lia. }
  rewrite Hi, take_app_len.
  replace (len key + 1) with (len (key +:+ "=")) by (rewrite len_app; reflexivity).
  change (String "=" value) with ("=" +:+ value).
  rewrite <- app_assoc, drop_app_len.
  rewrite (QueryUnescape_plain key), (QueryUnescape_plain value);
    try (apply Hk; simpl; tauto); try (apply Hv; simpl; tauto).
  rewrite lookup_empty. reflexivity.
Qed.

End UrlFacts.

(** ** The handlers *)

Module Handlers.

Import strings http server.

Lemma Get_absent (q : url.Values) key : q !! key = None -> url.Get q key = "".
Proof. unfold url.Get. intros ->. reflexivity. Qed.

Lemma Get_empty_value (q : url.Values) key vs :
  q !! key = Some ("" :: vs) -> url.Get q key = "".
Proof. unfold url.Get. intros ->. reflexivity. Qed.

Lemma eqb_false_ne s t : String.eqb s t = false <-> s <> t.
Proof. apply String.eqb_neq. Qed.

(** The response of the greeting, whatever the request. *)
Lemma handler_resp r :
  resp (serve (handler r)) =
  Spec.greeting (if String.eqb (url.Get (URL_Query r) "name") "" then "Guest"
                 else url.Get (URL_Query r) "name").
Proof. reflexivity. Qed.

(** The greeting for [/?name=value], for every plain value. *)
Lemma greeting_plain_name value body :
  value <> "" ->
  (forall c, In c ["&"; ";"; "%"; "+"]%char -> IndexByte value c = None) ->
  resp (serve (handler (Samples.query "GET" ("name=" +:+ value) body)))
  = Spec.greeting value.
Proof.
  intros Hne Hv. rewrite handler_resp. unfold URL_Query. simpl URL_RawQuery.
  change ("name=" +:+ value) with ("name" +:+ String "=" value).
  rewrite (UrlFacts.ParseQuery_pair "name" value); [|discriminate| |exact Hv].
  - unfold url.Get. rewrite lookup_insert_eq.
    apply eqb_false_ne in Hne. rewrite Hne. reflexivity.
  - intros c Hc. simpl in Hc. destruct Hc as [<-|[<-|[<-|[<-|[<-|[]]]]]]; reflexivity.
Qed.

(** What the greeting logs: the name, then the request. *)
Lemma handler_logs r :
  logs (serve (handler r)) =
  [ mkLog ("Received request for %s" +:+ fmt.nl)
      [AStr (if String.eqb (url.Get (URL_Query r) "name") "" then "Guest"
             else url.Get (URL_Query r) "name")];
    mkLog (" %v" +:+ fmt.nl) [AReq r] ].
Proof. reflexivity. Qed.

(** The first value of a parameter, and the empty string without one. *)
Lemma Get_first (q : url.Values) key v vs : q !! key = Some (v :: vs) -> url.Get q key = v.
Proof. unfold url.Get. intros ->. reflexivity. Qed.

Lemma Get_empty_iff (q : url.Values) key :
  url.Get q key = "" <-> forall v vs, q !! key = Some (v :: vs) -> v = "".
Proof.
  unfold url.Get. destruct (q !! key) as [[|v vs]|]; split; try reflexivity;
    try discriminate.
  - intros -> v' vs' [= <- _]. reflexivity.
  - intros H. apply (H v vs). reflexivity.
Qed.

(** C7: for every request the greeting answers with status 200 and the body
    "Hello, " followed by the name and a line feed, and with nothing else.
    The name is the (first) value of the query parameter name, and "Guest"
    by default: when the parameter is absent, and also when its value is
    empty, which the handler does not tell from an absent one.  Without the
    parameter the body is "Hello, Guest" and a line feed, with name=Test it
    is "Hello, Test" and a line feed. *)
Theorem greeting_response (r : Request) :
  let w := resp (serve (handler r)) in
  let name := url.Get (URL_Query r) "name" in
  Code w = 200%Z /\
  BodyBytes w
    = "Hello, " +:+ (if String.eqb name "" then "Guest" else name) +:+ fmt.nl /\
  (forall v vs, URL_Query r !! "name" = Some (v :: vs) -> name = v) /\
  (name = "" <-> forall v vs, URL_Query r !! "name" = Some (v :: vs) -> v = "") /\
  (name <> "" -> BodyBytes w = "Hello, " +:+ name +:+ fmt.nl) /\
  (URL_Query r !! "name" = None -> BodyBytes w = "Hello, Guest" +:+ fmt.nl) /\
  BodyBytes (resp (serve (handler (Samples.query "GET" "" (Samples.readBody "")))))
    = "Hello, Guest" +:+ fmt.nl /\
  BodyBytes (resp (serve (handler (Samples.query "GET" "name=Test" (Samples.readBody "")))))
    = "Hello, Test" +:+ fmt.nl.
Proof.
  cbv zeta. rewrite handler_resp. simpl Code. simpl BodyBytes.
  split; [reflexivity|]. split; [reflexivity|].
  split; [intros v vs; apply Get_first|]. split; [apply Get_empty_iff|].
  split; [|split; [|split; vm_compute; reflexivity]].
  - intros Hn. apply eqb_false_ne in Hn. rewrite Hn. reflexivity.
  - intros Ha. rewrite (Get_absent _ _ Ha). reflexivity.
Qed.

(** The two requests of [TestHandler] and the request [/?name=], through
    the theorem. *)
Lemma greeting_response_witness :
  BodyBytes (resp (serve (handler (Samples.query "GET" "name=Test" (Samples.readBody "")))))
    = "Hello, Test" +:+ fmt.nl /\
  BodyBytes (resp (serve (handler (Samples.query "GET" "" (Samples.readBody "")))))
    = "Hello, Guest" +:+ fmt.nl /\
  BodyBytes (resp (serve (handler (Samples.query "GET" "name=" (Samples.readBody "")))))
    = "Hello, Guest" +:+ fmt.nl.
Proof.
  split; [|split].
  - apply (proj1 (proj2 (proj2 (proj2 (proj2 (greeting_response
             (Samples.query "GET" "name=Test" (Samples.readBody "")))))))).
    vm_compute. discriminate.
  - apply (proj1 (proj2 (proj2 (proj2 (proj2 (proj2 (greeting_response
             (Samples.query "GET" "" (Samples.readBody ""))))))))).
    vm_compute. reflexivity.
  - exact (proj1 (proj2 (greeting_response
             (Samples.query "GET" "name=" (Samples.readBody ""))))).
Defined.

(** The response of the echo, branch by branch. *)
Lemma echoHandler_resp r :
  resp (serve (echoHandler r)) =
  if String.eqb (Method r) "GET" then
    Spec.plainText
      ((if String.eqb (url.Get (URL_Query r) "msg") "" then "no message"
        else url.Get (URL_Query r) "msg") +:+ fmt.nl)
  else
    match readErr (Body_ r) with
    | Some _ =>
        Spec.failed (<["Content-Type" := ["text/plain; charset=utf-8"]]> ∅)
          400 "failed to read body"
    | None =>
        Spec.plainText
          (if String.eqb (data (Body_ r)) "" then "empty body" +:+ fmt.nl
           else data (Body_ r))
    end.
Proof.
  unfold echoHandler, serve, MethodGet, io_ReadAll.
  destruct (String.eqb (Method r) "GET").
  - destruct (String.eqb (url.Get (URL_Query r) "msg") ""); reflexivity.
  - destruct (readErr (Body_ r)); [reflexivity|].
    destruct (data (Body_ r)); reflexivity.
Qed.

(** C4, as stated, fails: for the request GET /echo?msg=hello the parameter
    is present with the value "hello", and the body of the response is not
    that value but the value followed by a line feed. *)
Lemma echo_hello_newline :
  URL_Query (Samples.query "GET" "msg=hello" (Samples.readBody "")) !! "msg"
    = Some ["hello"] /\
  BodyBytes (resp (serve (echoHandler
      (Samples.query "GET" "msg=hello" (Samples.readBody "")))))
    = "hello" +:+ fmt.nl /\
  BodyBytes (resp (serve (echoHandler
      (Samples.query "GET" "msg=hello" (Samples.readBody "")))))
    <> "hello".
Proof. split; [|split]; [vm_compute; reflexivity ..|]. vm_compute. discriminate. Qed.

(** The body of a GET request is not read: a body whose reading would fail
    leaves the status at 200. *)
Lemma echo_get_ignores_body :
  Code (resp (serve (echoHandler (Samples.query "GET" "" Samples.brokenBody)))) = 200%Z.
Proof. reflexivity. Qed.

(** C4, amended: for a GET request, when the query parameter msg has a value
    that is not empty the body of the response is that value followed by a
    line feed, and otherwise it is "no message" followed by a line feed; for
    any other request (POST) whose body is read without error, the body of
    the response is the request body as it is, or "empty body" followed by a
    line feed when the request body is empty; the status is 400 exactly when
    the request is no GET and reading its body fails, and a GET request's
    body is not read. *)
Theorem echo_response (r : Request) :
  let w := resp (serve (echoHandler r)) in
  let msg := url.Get (URL_Query r) "msg" in
  let body := Body_ r in
  (Method r = "GET" -> msg <> "" -> Code w = 200%Z /\ BodyBytes w = msg +:+ fmt.nl) /\
  (Method r = "GET" -> msg = "" ->
     Code w = 200%Z /\ BodyBytes w = "no message" +:+ fmt.nl) /\
  (Method r <> "GET" -> readErr body = None -> data body <> "" ->
     Code w = 200%Z /\ BodyBytes w = data body) /\
  (Method r <> "GET" -> readErr body = None -> data body = "" ->
     Code w = 200%Z /\ BodyBytes w = "empty body" +:+ fmt.nl) /\
  (Code w = 400%Z <-> Method r <> "GET" /\ readErr body <> None).
Proof.
  cbv zeta. rewrite echoHandler_resp.
  destruct (String.eqb_spec (Method r) "GET") as [Hm|Hm].
  - split; [|split; [|split; [|split]]].
    + intros _ Hn. apply eqb_false_ne in Hn. rewrite Hn. split; reflexivity.
    + intros _ He. rewrite He. split; reflexivity.
    + intros Hne. contradiction.
    + intros Hne. contradiction.
    + split; [discriminate | intros [Hne _]; contradiction].
  - split; [|split; [|split; [|split]]].
    + intros He. contradiction.
    + intros He. contradiction.
    + intros _ Hr Hd. rewrite Hr. apply eqb_false_ne in Hd. rewrite Hd. split; reflexivity.
    + intros _ Hr Hd. rewrite Hr, Hd. split; reflexivity.
    + destruct (readErr (Body_ r)) as [e|].
      * split; [intros _; split; [exact Hm | discriminate] | reflexivity].
      * split; [|intros [_ Hn]; contradiction].
        destruct (String.eqb (data (Body_ r)) ""); discriminate.
Qed.

(** The requests of [TestEchoHandler_Get] and [TestEchoHandler_Post], and a
    POST request whose body cannot be read, through the theorem. *)
Lemma echo_response_witness :
  BodyBytes (resp (serve (echoHandler
      (Samples.query "GET" "msg=hello" (Samples.readBody "")))))
    = "hello" +:+ fmt.nl /\
  BodyBytes (resp (serve (echoHandler (Samples.query "GET" "" (Samples.readBody "")))))
    = "no message" +:+ fmt.nl /\
  BodyBytes (resp (serve (echoHandler
      (Samples.query "POST" "" (Samples.readBody "posted-data")))))
    = "posted-data" /\
  BodyBytes (resp (serve (echoHandler (Samples.query "POST" "" (Samples.readBody "")))))
    = "empty body" +:+ fmt.nl /\
  Code (resp (serve (echoHandler (Samples.query "POST" "" Samples.brokenBody)))) = 400%Z.
Proof.
  split; [|split; [|split; [|split]]].
  - apply (proj1 (echo_response (Samples.query "GET" "msg=hello" (Samples.readBody "")))).
    + reflexivity.
    + vm_compute. discriminate.
  - apply (proj1 (proj2 (echo_response (Samples.query "GET" "" (Samples.readBody ""))))).
    + reflexivity.
    + vm_compute. reflexivity.
  - apply (proj1 (proj2 (proj2 (echo_response
             (Samples.query "POST" "" (Samples.readBody "posted-data")))))).
    + discriminate.
    + reflexivity.
    + discriminate.
  - apply (proj1 (proj2 (proj2 (proj2 (echo_response
             (Samples.query "POST" "" (Samples.readBody ""))))))).
    + discriminate.
    + reflexivity.
    + reflexivity.
  - apply (proj2 (proj2 (proj2 (proj2 (echo_response
             (Samples.query "POST" "" Samples.brokenBody)))))).
    split; discriminate.
Defined.

(** The response and the log of the cache lookup, branch by branch. *)
Lemma redisHandler_run rdb r :
  serve (redisHandler rdb r) =
  let key := url.Get (URL_Query r) "key" in
  if String.eqb key "" then
    {| resp := Spec.failed ∅ 400 "Query parameter 'key' is required"; logs := [] |}
  else
    match redis.Get rdb key with
    | (_, Some redis.Nil) =>
        {| resp := Spec.failed ∅ 404 (fmt.Sprintf "Key '%s' not found" [key]);
           logs := [] |}
    | (_, Some e) =>
        {| resp := Spec.failed ∅ 500 "Failed to retrieve data from Redis";
           logs := [mkLog "Redis GET error for key '%s': %v" [AStr key; AErr e]] |}
    | (val, None) => {| resp := Spec.plainText (val +:+ fmt.nl); logs := [] |}
    end.
Proof.
  unfold redisHandler, serve. cbv zeta.
  destruct (String.eqb (url.Get (URL_Query r) "key") ""); [reflexivity|].
  destruct (redis.Get rdb _) as [val [[|msg]|]]; reflexivity.
Qed.

Lemma Sprintf_key key :
  fmt.Sprintf "Key '%s' not found" [key] = "Key '" +:+ key +:+ "' not found".
Proof. reflexivity. Qed.

(** C5: the cache lookup answers 400 with a message that names the parameter
    when the query parameter key is missing; 404 with the message
    "Key '{key}' not found" when the cache does not hold the key; 500 with a
    message that does not depend on the error, which goes to the log, on any
    other error of the cache; and the value followed by a line feed, as plain
    text, on success. *)
Theorem redis_response (rdb : redis.Client) (r : Request) :
  let w := serve (redisHandler rdb r) in
  let key := url.Get (URL_Query r) "key" in
  (URL_Query r !! "key" = None -> key = "") /\
  (key = "" ->
     Code (resp w) = 400%Z /\
     BodyBytes (resp w) = "Query parameter 'key' is required" +:+ fmt.nl) /\
  (key <> "" -> forall val, redis.Get rdb key = (val, Some redis.Nil) ->
     Code (resp w) = 404%Z /\
     BodyBytes (resp w) = ("Key '" +:+ key +:+ "' not found") +:+ fmt.nl /\
     logs w = []) /\
  (key <> "" -> forall val msg, redis.Get rdb key = (val, Some (redis.Failure msg)) ->
     Code (resp w) = 500%Z /\
     BodyBytes (resp w) = "Failed to retrieve data from Redis" +:+ fmt.nl /\
     logs w = [mkLog "Redis GET error for key '%s': %v"
                 [AStr key; AErr (redis.Failure msg)]]) /\
  (key <> "" -> forall val, redis.Get rdb key = (val, None) ->
     Code (resp w) = 200%Z /\
     BodyBytes (resp w) = val +:+ fmt.nl /\
     HeaderMap (resp w) !! "Content-Type" = Some ["text/plain; charset=utf-8"]).
Proof.
  cbv zeta. rewrite redisHandler_run. cbv zeta.
  split; [apply Get_absent|].
  destruct (String.eqb_spec (url.Get (URL_Query r) "key") "") as [Hk|Hk].
  - split; [intros _; split; reflexivity|].
    split; [|split]; intros Hne; contradiction.
  - split; [intros He; contradiction|].
    split; [|split].
    + intros _ val ->. rewrite Sprintf_key. repeat split.
    + intros _ val msg ->. repeat split.
    + intros _ val ->. repeat split.
Qed.

(** A request without key, a key that the cache does not hold, a cache that
    cannot be reached, and a key that the cache holds: through the theorem. *)
Lemma redis_response_witness :
  Code (resp (serve (redisHandler Samples.seeded
      (Samples.query "GET" "" (Samples.readBody ""))))) = 400%Z /\
  BodyBytes (resp (serve (redisHandler Samples.seeded
      (Samples.query "GET" "key=nobody" (Samples.readBody "")))))
    = "Key 'nobody' not found" +:+ fmt.nl /\
  Code (resp (serve (redisHandler Samples.unreachable
      (Samples.query "GET" "key=app:name" (Samples.readBody ""))))) = 500%Z /\
  BodyBytes (resp (serve (redisHandler Samples.seeded
      (Samples.query "GET" "key=app:name" (Samples.readBody "")))))
    = "go-hello-server" +:+ fmt.nl.
Proof.
  split; [|split; [|split]].
  - apply (proj1 (proj2 (redis_response Samples.seeded
             (Samples.query "GET" "" (Samples.readBody ""))))).
    vm_compute. reflexivity.
  - apply (proj1 (proj2 (proj2 (redis_response Samples.seeded
             (Samples.query "GET" "key=nobody" (Samples.readBody "")))))
             ltac:(vm_compute; discriminate) "").
    vm_compute. reflexivity.
  - apply (proj1 (proj2 (proj2 (proj2 (redis_response Samples.unreachable
             (Samples.query "GET" "key=app:name" (Samples.readBody ""))))))
             ltac:(vm_compute; discriminate) "" "i/o timeout").
    vm_compute. reflexivity.
  - apply (proj2 (proj2 (proj2 (proj2 (redis_response Samples.seeded
             (Samples.query "GET" "key=app:name" (Samples.readBody ""))))))
             ltac:(vm_compute; discriminate) "go-hello-server").
    vm_compute. reflexivity.
Defined.

(** The greeting of the guest is text to the sniffing of the first write. *)
Lemma greeting_Guest : Spec.greeting "Guest" = Spec.plainText ("Hello, Guest" +:+ fmt.nl).
Proof. vm_compute. reflexivity. Qed.

(** C10: a query parameter with an empty value is treated as an absent one.
    The greeting answers a request with name= as it answers a request without
    the parameter: status 200, the body "Hello, Guest" and a line feed, and
    the content type of plain text, which the first write finds for this
    body; the echo answers a GET request with msg= as it answers one without
    the parameter, "no message" and a line feed. *)
Theorem empty_value_as_absent :
  (forall r vs, URL_Query r !! "name" = Some ("" :: vs) ->
     resp (serve (handler r)) = Spec.plainText ("Hello, Guest" +:+ fmt.nl)) /\
  (forall r, URL_Query r !! "name" = None ->
     resp (serve (handler r)) = Spec.plainText ("Hello, Guest" +:+ fmt.nl)) /\
  (forall r vs, Method r = "GET" -> URL_Query r !! "msg" = Some ("" :: vs) ->
     resp (serve (echoHandler r)) = Spec.plainText ("no message" +:+ fmt.nl)) /\
  (forall r, Method r = "GET" -> URL_Query r !! "msg" = None ->
     resp (serve (echoHandler r)) = Spec.plainText ("no message" +:+ fmt.nl)) /\
  (forall method body,
     URL_Query (Samples.query method "name=" body) !! "name" = Some [""] /\
     URL_Query (Samples.query method "msg=" body) !! "msg" = Some [""] /\
     URL_Query (Samples.query method "" body) !! "name" = None /\
     URL_Query (Samples.query method "" body) !! "msg" = None).
Proof.
  split; [|split; [|split; [|split]]].
  - intros r vs H. rewrite handler_resp, (Get_empty_value _ _ _ H). apply greeting_Guest.
  - intros r H. rewrite handler_resp, (Get_absent _ _ H). apply greeting_Guest.
  - intros r vs Hm H. rewrite echoHandler_resp, Hm, (Get_empty_value _ _ _ H). reflexivity.
  - intros r Hm H. rewrite echoHandler_resp, Hm, (Get_absent _ _ H). reflexivity.
  - intros method body. repeat split; vm_compute; reflexivity.
Qed.

(** The requests /?name= and /echo?msg=, through the theorem. *)
Lemma empty_value_as_absent_witness :
  BodyBytes (resp (serve (handler (Samples.query "GET" "name=" (Samples.readBody "")))))
    = "Hello, Guest" +:+ fmt.nl /\
  BodyBytes (resp (serve (echoHandler (Samples.query "GET" "msg=" (Samples.readBody "")))))
    = "no message" +:+ fmt.nl.
Proof.
  split.
  - rewrite (proj1 empty_value_as_absent
               (Samples.query "GET" "name=" (Samples.readBody "")) []).
    + reflexivity.
    + vm_compute. reflexivity.
  - rewrite (proj1 (proj2 (proj2 empty_value_as_absent))
               (Samples.query "GET" "msg=" (Samples.readBody "")) []).
    + reflexivity.
    + reflexivity.
    + vm_compute. reflexivity.
Defined.

End Handlers.

(** ** The start-up: [initRedis] *)

Module Startup.

Import server.

(** What [initRedis] does with a database index that it could parse. *)
Lemma initRedis_eq env NewClient :
  initRedis env NewClient =
  match strconv.Atoi (if String.eqb (os_Getenv env "REDIS_DB") "" then "0"
                      else os_Getenv env "REDIS_DB") with
  | inr err => Fatalf "Invalid Redis DB number: %v" (FNum err)
  | inl db =>
      let rdb := NewClient {| redis.Addr := Samples.addrLiteral;
                              redis.Password := "cE0+mF2_sV3_cQ3+vT0-";
                              redis.DB := db |} in
      match redis.Ping rdb with
      | Some err => Fatalf "Could not connect to Redis: %v" (FRedis err)
      | None => Connected rdb "Connected to Redis successfully."
      end
  end.
Proof. reflexivity. Qed.

(** Whatever the environment, the client that [initRedis] creates is the one
    for the address that the source holds as a literal. *)
Lemma initRedis_Addr_constant env NewClient rdb line :
  initRedis env NewClient = Connected rdb line ->
  exists db, rdb = NewClient {| redis.Addr := Samples.addrLiteral;
                                redis.Password := "cE0+mF2_sV3_cQ3+vT0-";
                                redis.DB := db |}.
Proof.
  rewrite initRedis_eq. destruct (strconv.Atoi _) as [db|e]; [|discriminate].
  cbv zeta. destruct (redis.Ping _); [discriminate|]. intros [= <- _]. eauto.
Qed.

(** The database index is the number in [REDIS_DB], and 0 without it. *)
Lemma initRedis_DB env NewClient rdb line :
  (forall opts, redis.options (NewClient opts) = opts) ->
  initRedis env NewClient = Connected rdb line ->
  strconv.Atoi (if String.eqb (os_Getenv env "REDIS_DB") "" then "0"
                else os_Getenv env "REDIS_DB")
  = inl (redis.DB (redis.options rdb)).
Proof.
  intros Ho. rewrite initRedis_eq. destruct (strconv.Atoi _) as [db|e]; [|discriminate].
  cbv zeta. destruct (redis.Ping _); [discriminate|]. intros [= <- _].
  rewrite Ho. reflexivity.
Qed.

Lemma initRedis_DB_default env NewClient rdb line :
  (forall opts, redis.options (NewClient opts) = opts) ->
  env !! "REDIS_DB" = None ->
  initRedis env NewClient = Connected rdb line ->
  redis.DB (redis.options rdb) = 0%Z.
Proof.
  intros Ho He H. apply initRedis_DB in H; [|exact Ho].
  unfold os_Getenv in H. rewrite He in H.
  change (inl 0%Z = (inl (redis.DB (redis.options rdb)) : Z + strconv.NumError)) in H.
  congruence.
Qed.

Example Atoi_examples :
  strconv.Atoi "0" = inl 0%Z /\
  strconv.Atoi "15" = inl 15%Z /\
  strconv.Atoi "-3" = inl (-3)%Z /\
  strconv.Atoi "+7" = inl 7%Z /\
  strconv.Atoi "" = inr strconv.ErrSyntax /\
  strconv.Atoi "1_0" = inr strconv.ErrSyntax /\
  strconv.Atoi "9223372036854775807" = inl 9223372036854775807%Z /\
  strconv.Atoi "9223372036854775808" = inr strconv.ErrRange /\
  strconv.Atoi "-9223372036854775808" = inl (-9223372036854775808)%Z.
Proof. repeat split. Qed.

(** A database index that is no number ends the start-up. *)
Lemma initRedis_bad_DB NewClient :
  initRedis (<["REDIS_DB" := "one"]> ∅) NewClient
  = Fatalf "Invalid Redis DB number: %v" (FNum strconv.ErrSyntax).
Proof. reflexivity. Qed.

(** X8: when the cache does not answer the ping, [initRedis] ends the
    process with [log.Fatalf], whatever the environment holds. *)
Lemma initRedis_ping_fatal env NewClient :
  (forall opts, redis.Ping (NewClient opts) <> None) ->
  exists format arg, initRedis env NewClient = Fatalf format arg.
Proof.
  intros Hp. rewrite initRedis_eq. destruct (strconv.Atoi _) as [db|e]; [|eauto].
  cbv zeta.
  match goal with |- context [redis.Ping ?c] => destruct (redis.Ping c) eqn:E end;
    [eauto | destruct (Hp _ E)].
Qed.

(** C6, on the code: with REDIS_ADDR set to localhost:6379, REDIS_DB unset
    and a cache that answers the ping, the client is created for the address
    that the source holds as a literal, not for the address of the
    environment; the database index is the default 0. *)
Theorem initRedis_ignores_REDIS_ADDR :
  os_Getenv (<["REDIS_ADDR" := "localhost:6379"]> ∅) "REDIS_ADDR" = "localhost:6379" /\
  initRedis (<["REDIS_ADDR" := "localhost:6379"]> ∅) Samples.reachable =
    Connected
      (Samples.reachable
         {| redis.Addr := "test-g6r4t-redis-master.test-g6r4t.svc.cluster.local:6379";
            redis.Password := "cE0+mF2_sV3_cQ3+vT0-";
            redis.DB := 0 |})
      "Connected to Redis successfully.".
Proof. split; vm_compute; reflexivity. Qed.

End Startup.

(** ** The shutdown *)

Module Shutdown.

Import lifecycle.

Local Open Scope N_scope.

(** Once a request needs no more than [ms], it is gone after [ms]. *)
Lemma elapse_drains ms p :
  Forall (fun need => need <= ms) (inflight p) -> inflight (elapse ms p) = [].
Proof.
  unfold elapse. simpl. induction 1 as [|need rest Hn _ IH]; [reflexivity|].
  rewrite fmap_cons, filter_cons.
  destruct (decide (need - ms <> 0)) as [Hd|_]; [lia | exact IH].
Qed.

Lemma step_RunMain p : exited p = None -> step RunMain p = stepMain p.
Proof. intros He. unfold step. rewrite He. reflexivity. Qed.

Lemma step_Elapse p ms : exited p = None -> step (Elapse ms) p = Some (elapse ms p).
Proof. intros He. unfold step. rewrite He. reflexivity. Qed.

Lemma stepMain_call p :
  mainpc p = MCallShutdown ->
  stepMain p = Some (set_main (MDraining (clock p + 10000)) (set_listening false p)).
Proof. intros Hm. unfold stepMain. rewrite Hm. reflexivity. Qed.

Lemma stepMain_drained p d :
  mainpc p = MDraining d -> inflight p = [] -> stepMain p = Some (set_main MLog p).
Proof. intros Hm Hi. unfold stepMain. rewrite Hm, Hi. reflexivity. Qed.

Lemma stepMain_deadline p d :
  mainpc p = MDraining d -> d <= clock p -> stepMain p = Some (set_main MLog p).
Proof.
  intros Hm Hd. unfold stepMain. rewrite Hm.
  destruct (inflight p); [reflexivity|].
  destruct (N.leb_spec d (clock p)); [reflexivity | lia].
Qed.

Lemma stepMain_blocked p d :
  mainpc p = MDraining d -> inflight p <> [] -> clock p < d -> stepMain p = None.
Proof.
  intros Hm Hi Hd. unfold stepMain. rewrite Hm.
  destruct (inflight p); [contradiction|].
  destruct (N.leb_spec d (clock p)); [lia | reflexivity].
Qed.

(** From the log line on, [main] exits with status 0. *)
Lemma main_exits p :
  exited p = None -> mainpc p = MLog ->
  exists p', run [RunMain; RunMain] p = Some p'
    /\ exited p' = Some 0%Z /\ clock p' = clock p
    /\ log_ p' = (log_ p ++ ["Shutting down"%string])%list.
Proof.
  intros He Hm. unfold run. rewrite (step_RunMain _ He). unfold stepMain at 1.
  rewrite Hm. simpl mbind.
  rewrite step_RunMain by exact He. unfold stepMain. simpl.
  eexists. split; [reflexivity|]. repeat split.
Qed.

Lemma run_cons e es p : run (e :: es) p = p' ← step e p; run es p'.
Proof. reflexivity. Qed.

(** X2: when [main] runs alone after the signal, [srv.Shutdown] closes the
    listener at once, and when the requests in flight need no more than [ms],
    which may be less than the ten seconds of the grace period, the process
    exits with status 0 after [ms]. *)
Lemma shutdown_drains p ms :
  exited p = None -> mainpc p = MCallShutdown ->
  Forall (fun need => need <= ms) (inflight p) ->
  exists p1 p2,
    step RunMain p = Some p1 /\ listening p1 = false
    /\ mainpc p1 = MDraining (clock p + 10000)
    /\ run [Elapse ms; RunMain; RunMain; RunMain] p1 = Some p2
    /\ exited p2 = Some 0%Z /\ clock p2 = clock p + ms.
Proof.
  intros He Hm Hf.
  rewrite (step_RunMain _ He), (stepMain_call _ Hm).
  set (p1 := set_main _ _).
  assert (He1 : exited p1 = None) by exact He.
  assert (Hd : stepMain (elapse ms p1) = Some (set_main MLog (elapse ms p1))).
  { apply (stepMain_drained _ (clock p + 10000)); [reflexivity|].
    apply elapse_drains. exact Hf. }
  destruct (main_exits (set_main MLog (elapse ms p1)) He eq_refl)
    as (p2 & Hr & Hx & Hc & _).
  exists p1, p2. split; [reflexivity|]. split; [reflexivity|]. split; [reflexivity|].
  rewrite run_cons, (step_Elapse _ _ He1). simpl mbind.
  rewrite ?run_cons, step_RunMain by exact He. rewrite Hd. simpl mbind.
  split; [exact Hr|]. split; [exact Hx|]. rewrite Hc. reflexivity.
Qed.

(** X3: when [main] runs alone after the signal, its wait in
    [srv.Shutdown] is bounded by the grace period: the listener is closed at
    once, and whatever requests are in flight, once ten seconds or more have
    passed [main] goes on, logs its line and the process exits with status
    0. *)
Lemma shutdown_deadline p :
  exited p = None -> mainpc p = MCallShutdown ->
  exists p1,
    step RunMain p = Some p1 /\ listening p1 = false
    /\ forall ms, 10000 <= ms ->
         exists p2, run [Elapse ms; RunMain; RunMain; RunMain] p1 = Some p2
           /\ exited p2 = Some 0%Z /\ clock p2 = clock p + ms.
Proof.
  intros He Hm.
  rewrite (step_RunMain _ He), (stepMain_call _ Hm).
  set (p1 := set_main _ _).
  assert (He1 : exited p1 = None) by exact He.
  exists p1. split; [reflexivity|]. split; [reflexivity|]. intros ms Hms.
  assert (Hd : stepMain (elapse ms p1) = Some (set_main MLog (elapse ms p1))).
  { apply (stepMain_deadline _ (clock p + 10000)); [reflexivity|]. simpl. lia. }
  destruct (main_exits (set_main MLog (elapse ms p1)) He eq_refl)
    as (p2 & Hr & Hx & Hc & _).
  exists p2.
  rewrite run_cons, (step_Elapse _ _ He1). simpl mbind.
  rewrite ?run_cons, step_RunMain by exact He. rewrite Hd. simpl mbind.
  split; [exact Hr|]. split; [exact Hx|]. rewrite Hc. reflexivity.
Qed.

(** X4: once the listener is closed, two steps of the goroutine around
    [srv.ListenAndServe()] end the process with status 1: at the same
    instant, with the same requests in flight, and wherever [main] stands in
    [waitForShutdown]. *)
Lemma fatal_after_close p b b' :
  exited p = None -> srvpc p = SServing -> listening p = false ->
  exists p', run [RunServer b; RunServer b'] p = Some p'
    /\ exited p' = Some 1%Z /\ clock p' = clock p /\ inflight p' = inflight p
    /\ mainpc p' = mainpc p.
Proof.
  intros He Hs Hl. unfold run, step, stepServer. rewrite He, Hs, Hl. simpl.
  rewrite He. simpl. eexists. split; [reflexivity|]. repeat split.
Qed.

Lemma step_status e p p' code :
  step e p = Some p' -> exited p' = Some code -> code = 0%Z \/ code = 1%Z.
Proof.
  unfold step. destruct (exited p) eqn:He; [discriminate|].
  intros Hs Hc. destruct e as [|ms|need| |bound].
  - destruct (mainpc p); injection Hs as <-; simpl in Hc; congruence.
  - injection Hs as <-. simpl in Hc. congruence.
  - destruct (listening p); [|discriminate]. injection Hs as <-. discriminate.
  - unfold stepMain in Hs.
    destruct (mainpc p) as [| |d| |]; [discriminate| | | |].
    + injection Hs as <-. simpl in Hc. congruence.
    + destruct (inflight p); [|destruct (d <=? clock p)]; try discriminate;
        injection Hs as <-; simpl in Hc; congruence.
    + injection Hs as <-. simpl in Hc. congruence.
    + injection Hs as <-. simpl in Hc. left. congruence.
  - unfold stepServer in Hs. destruct (srvpc p) as [| |err|err].
    + destruct (shuttingDown p); [|destruct bound]; injection Hs as <-;
        simpl in Hc; congruence.
    + destruct (listening p); [discriminate|]. injection Hs as <-. simpl in Hc. congruence.
    + injection Hs as <-. simpl in Hc. congruence.
    + injection Hs as <-. simpl in Hc. right. congruence.
Qed.

(** The status of the process is 0 or 1, whatever happens. *)
Lemma exit_status es : forall p p' code,
  exited p = None ->
  run es p = Some p' -> exited p' = Some code -> code = 0%Z \/ code = 1%Z.
Proof.
  induction es as [|e es IH]; intros p p' code Hp; simpl.
  - intros [= <-]. congruence.
  - destruct (step e p) as [p1|] eqn:Hs; [|discriminate]. simpl.
    destruct (exited p1) as [c|] eqn:H1.
    + destruct es as [|e' es']; simpl.
      * intros [= <-] Hc. apply (step_status _ _ _ _ Hs). congruence.
      * unfold step. rewrite H1. discriminate.
    + apply IH. exact H1.
Qed.

(** The signal with a request in flight: the listener is closed at once, no
    connection is accepted any more, and the deadline is ten seconds away. *)
Lemma shutdown_closes_listener :
  exists p, run Samples.busy start = Some p /\ listening p = false
    /\ mainpc p = MDraining (clock p + 10000) /\ inflight p = [3000]
    /\ forall need, step (Connect need) p = None.
Proof. eexists. split; [vm_compute; reflexivity|]. repeat split. Qed.

(** When the spawned goroutine does not run, the request is answered and the
    process exits with status 0 after three seconds. *)
Lemma shutdown_drained :
  exists p,
    run (Samples.busy ++ [Elapse 3000; RunMain; RunMain; RunMain]) start = Some p
    /\ exited p = Some 0%Z /\ clock p = 3000 /\ inflight p = [].
Proof. eexists. split; [vm_compute; reflexivity|]. repeat split. Qed.

(** C8, on the code: the server is listening, a request that needs three
    seconds is in flight, the signal arrives and [main] calls [srv.Shutdown];
    then the spawned goroutine runs, [srv.ListenAndServe()] returns the error
    of a closed server and [log.Fatal] ends the process: the status is 1, no
    time has passed and the request is still unanswered. *)
Theorem shutdown_exits_1_without_grace :
  exists p,
    run (Samples.busy ++ [RunServer true; RunServer true]) start = Some p
    /\ exited p = Some 1%Z /\ clock p = 0 /\ inflight p = [3000]
    /\ log_ p = ["Starting Server"; ErrServerClosed]%string.
Proof. eexists. split; [vm_compute; reflexivity|]. repeat split. Qed.

End Shutdown.

(** ** The routes: [main] and [registerExtraRoutes] *)

Module Routing.

Import server mux.

(** X1: the router of [main] serves exactly seven paths, each by the function
    that it was registered with: /, /info, /agent, /headers and /ip for every
    method, /echo for GET and POST, /redis for GET.  A request for /echo or
    /redis with another method is refused for its method; a request for any
    other path, a served path followed by a slash included, is not found. *)
Theorem routing_table (p m : string) :
  (In p ["/"; "/info"; "/agent"; "/headers"; "/ip"; "/echo"; "/redis"] <->
     Match router p m <> NotFound) /\
  (forall t, Match router p m = Found t <->
     (p = "/" /\ t = to_handler) \/
     (p = "/info" /\ t = to_infoHandler) \/
     (p = "/agent" /\ t = to_userAgentHandler) \/
     (p = "/headers" /\ t = to_headersHandler) \/
     (p = "/ip" /\ t = to_clientIPHandler) \/
     (p = "/echo" /\ t = to_echoHandler /\ (m = "GET" \/ m = "POST")) \/
     (p = "/redis" /\ t = to_redisHandler /\ m = "GET")) /\
  (Match router p m = MethodMismatch <->
     (p = "/echo" /\ m <> "GET" /\ m <> "POST") \/ (p = "/redis" /\ m <> "GET")).
Proof.
  unfold Match, router, registerExtraRoutes. simpl app. unfold matchFrom.
  unfold HandleFunc, Methods, methodMatches. cbn [path methods target existsb].
  destruct (String.eqb_spec "/" p) as [<-|H0].
  { simpl. split; [|split]; [split; [discriminate|auto] | |split; [discriminate|]].
    - intros t. split; [intros [= <-]; auto|].
      intros [[_ ->]|[[? _]|[[? _]|[[? _]|[[? _]|[[? _]|[? _]]]]]]]; try discriminate.
      reflexivity.
    - intros [[? _]|[? _]]; discriminate. }
  destruct (String.eqb_spec "/info" p) as [<-|H1].
  { simpl. split; [|split]; [split; [discriminate|auto] | |split; [discriminate|]].
    - intros t. split; [intros [= <-]; auto|].
      intros [[? _]|[[_ ->]|[[? _]|[[? _]|[[? _]|[[? _]|[? _]]]]]]]; try discriminate.
      reflexivity.
    - intros [[? _]|[? _]]; discriminate. }
  destruct (String.eqb_spec "/agent" p) as [<-|H2].
  { simpl. split; [|split]; [split; [discriminate|auto 10] | |split; [discriminate|]].
    - intros t. split; [intros [= <-]; auto|].
      intros [[? _]|[[? _]|[[_ ->]|[[? _]|[[? _]|[[? _]|[? _]]]]]]]; try discriminate.
      reflexivity.
    - intros [[? _]|[? _]]; discriminate. }
  destruct (String.eqb_spec "/headers" p) as [<-|H3].
  { simpl. split; [|split]; [split; [discriminate|auto 10] | |split; [discriminate|]].
    - intros t. split; [intros [= <-]; auto 10|].
      intros [[? _]|[[? _]|[[? _]|[[_ ->]|[[? _]|[[? _]|[? _]]]]]]]; try discriminate.
      reflexivity.
    - intros [[? _]|[? _]]; discriminate. }
  destruct (String.eqb_spec "/ip" p) as [<-|H4].
  { simpl. split; [|split]; [split; [discriminate|auto 10] | |split; [discriminate|]].
    - intros t. split; [intros [= <-]; auto 10|].
      intros [[? _]|[[? _]|[[? _]|[[? _]|[[_ ->]|[[? _]|[? _]]]]]]]; try discriminate.
      reflexivity.
    - intros [[? _]|[? _]]; discriminate. }
  destruct (String.eqb_spec "/echo" p) as [<-|H5].
  { change (String.eqb "/redis" "/echo") with false. cbv iota.
    destruct (String.eqb_spec m "GET") as [->|Hg]; simpl orb; cbv iota.
    - split; [|split]; [split; [discriminate|simpl; auto 10] | |split; [discriminate|]].
      + intros t. split; [intros [= <-]; auto 10|].
        intros [[? _]|[[? _]|[[? _]|[[? _]|[[? _]|[[_ [-> _]]|[? _]]]]]]]; try discriminate.
        reflexivity.
      + intros [[_ [H _]]|[? _]]; [contradiction | discriminate].
    - destruct (String.eqb_spec m "POST") as [->|Hp]; simpl orb; cbv iota.
      + split; [|split]; [split; [discriminate|simpl; auto 10] | |split; [discriminate|]].
        * intros t. split; [intros [= <-]; auto 10|].
          intros [[? _]|[[? _]|[[? _]|[[? _]|[[? _]|[[_ [-> _]]|[? _]]]]]]]; try discriminate.
          reflexivity.
        * intros [[_ [_ H]]|[? _]]; [contradiction | discriminate].
      + split; [|split]; [split; [discriminate|simpl; auto 10] | |split; [auto|reflexivity]].
        intros t. split; [discriminate|].
        intros [[? _]|[[? _]|[[? _]|[[? _]|[[? _]|[[_ [_ [?|?]]]|[? _]]]]]]];
          try discriminate; contradiction. }
  destruct (String.eqb_spec "/redis" p) as [<-|H6].
  { destruct (String.eqb_spec m "GET") as [->|Hg]; simpl orb; cbv iota.
    - split; [|split]; [split; [discriminate|simpl; auto 10] | |split; [discriminate|]].
      + intros t. split; [intros [= <-]; auto 10|].
        intros [[? _]|[[? _]|[[? _]|[[? _]|[[? _]|[[? _]|[_ [-> _]]]]]]]]; try discriminate.
        reflexivity.
      + intros [[? _]|[_ H]]; [discriminate | contradiction].
    - split; [|split]; [split; [discriminate|simpl; auto 10] | |split; [auto|reflexivity]].
      intros t. split; [discriminate|].
      intros [[? _]|[[? _]|[[? _]|[[? _]|[[? _]|[[? _]|[_ [_ ?]]]]]]]];
        try discriminate; contradiction. }
  split; [|split].
  - split; [|intros H; contradiction].
    simpl. intros [?|[?|[?|[?|[?|[?|[?|[]]]]]]]]; contradiction.
  - intros t. split; [discriminate|].
    intros [[? _]|[[? _]|[[? _]|[[? _]|[[? _]|[[? _]|[? _]]]]]]]; congruence.
  - split; [discriminate|]. intros [[? _]|[? _]]; congruence.
Qed.

End Routing.
(** ** The life of the process, for every schedule *)

Module Life.

Import lifecycle Reach.

Lemma sound_start : sound start.
Proof.
  unfold sound, start. simpl. repeat split; intros; try discriminate.
  destruct H; discriminate.
Qed.

Lemma carried (err : string) (m m' : MainPC) :
  (err = ErrServerClosed /\ m <> MWaitSignal) \/ err = ErrListen ->
  m' <> MWaitSignal ->
  (err = ErrServerClosed /\ m' <> MWaitSignal) \/ err = ErrListen.
Proof. intros [[-> _]| ->] H; [left; split; [reflexivity | exact H] | right; reflexivity]. Qed.

Ltac settle :=
  repeat match goal with |- _ /\ _ => split end; intros;
  repeat match goal with
         | H : _ \/ _ |- _ => destruct H
         | H : SReturned _ = SReturned _ |- _ => injection H as <-
         | H : SFatal _ = SFatal _ |- _ => injection H as <-
         | H : Some _ = Some _ |- _ => injection H as <-
         end;
  try discriminate; try congruence;
  try solve
    [ auto
    | eauto
    | apply in_or_app; left; auto
    | apply in_or_app; right; left; reflexivity
    | left; reflexivity
    | right; reflexivity
    | left; split; [reflexivity | discriminate]
    | left; split; [reflexivity | auto]
    | eapply carried; [eauto | discriminate]
    | eapply carried; [eauto | congruence] ].

Lemma step_sound e p p' : sound p -> step e p = Some p' -> sound p'.
Proof.
  intros (HA & HB & HC & HD & HE & HF & HG). unfold step.
  destruct (exited p) eqn:He; [discriminate|].
  assert (HB1 : forall err, srvpc p = SReturned err ->
            (err = ErrServerClosed /\ mainpc p <> MWaitSignal) \/ err = ErrListen)
    by (intros err H; apply HB; left; exact H).
  assert (HB2 : forall err, srvpc p = SFatal err ->
            (err = ErrServerClosed /\ mainpc p <> MWaitSignal) \/ err = ErrListen)
    by (intros err H; apply HB; right; exact H).
  clear HB HE HF HG.
  destruct e as [|ms|need| |bound].
  - destruct (mainpc p) eqn:Hpc; intros [= <-]; unfold sound; simpl; rewrite ?He;
      settle.
  - intros [= <-]. unfold sound. simpl. rewrite ?He. settle.
  - destruct (listening p) eqn:Hl; [|discriminate]. intros [= <-].
    unfold sound. simpl. settle.
  - unfold stepMain. destruct (mainpc p) as [| |d| |] eqn:Hpc; [discriminate| | | |].
    + intros [= <-]. unfold sound. simpl. rewrite ?He. settle.
    + assert (Hgo : sound (set_main MLog p)).
      { unfold sound. simpl. rewrite ?He. settle. }
      destruct (inflight p); [|destruct (d <=? clock p)%N]; try discriminate;
        intros [= <-]; exact Hgo.
    + intros [= <-]. unfold sound. simpl. rewrite ?He. settle.
    + intros [= <-]. unfold sound. simpl. settle.
  - unfold stepServer. destruct (srvpc p) as [| |err|err] eqn:Hpc.
    + destruct (shuttingDown p) eqn:Hsd; [|destruct bound]; intros [= <-];
        unfold sound; simpl; rewrite ?He; settle.
      left. split; [reflexivity|].
      unfold shuttingDown in Hsd. destruct (mainpc p); discriminate.
    + destruct (listening p) eqn:Hl; [discriminate|]. intros [= <-].
      unfold sound. simpl. rewrite ?He. settle.
    + intros [= <-]. unfold sound. simpl. rewrite ?He. settle.
    + intros [= <-]. unfold sound. simpl. settle;
        match goal with H : srvpc p = SFatal _ |- _ => rewrite Hpc in H end; settle.
Qed.

Lemma run_sound es : forall p p', sound p -> run es p = Some p' -> sound p'.
Proof.
  induction es as [|e es IH]; intros p p' Hp; simpl.
  - intros [= <-]. exact Hp.
  - destruct (step e p) as [p1|] eqn:Hs; [|discriminate]. simpl.
    apply IH. exact (step_sound _ _ _ Hp Hs).
Qed.

(** [main] leaves [<-interruptChan] only when the signal has arrived. *)
Lemma signalled es : forall p p',
  mainpc p = MWaitSignal -> run es p = Some p' -> mainpc p' <> MWaitSignal ->
  In Signal es.
Proof.
  induction es as [|e es IH]; intros p p' Hm; simpl.
  - intros [= <-] Hn. contradiction.
  - destruct (step e p) as [p1|] eqn:Hs; [|discriminate]. simpl. intros Hr Hn.
    assert (He : e = Signal \/ mainpc p1 = MWaitSignal).
    { unfold step in Hs. destruct (exited p); [discriminate|].
      destruct e as [|ms|need| |bound]; [left; reflexivity|right..].
      - injection Hs as <-. exact Hm.
      - destruct (listening p); [|discriminate]. injection Hs as <-. exact Hm.
      - unfold stepMain in Hs. rewrite Hm in Hs. discriminate.
      - unfold stepServer in Hs.
        destruct (srvpc p); [destruct (shuttingDown p); [|destruct bound]| | |];
          try (destruct (listening p); [discriminate|]); injection Hs as <-; exact Hm. }
    destruct He as [->|Hm1]; [left; reflexivity|].
    right. exact (IH _ _ Hm1 Hr Hn).
Qed.

(** The error of the port comes from a port that could not be bound. *)
Lemma unbound es : forall p p',
  ~ failedBind p -> run es p = Some p' -> failedBind p' -> In (RunServer false) es.
Proof.
  induction es as [|e es IH]; intros p p' Hp; simpl.
  - intros [= <-] Hn. contradiction.
  - destruct (step e p) as [p1|] eqn:Hs; [|discriminate]. simpl. intros Hr Hn.
    assert (He : e = RunServer false \/ ~ failedBind p1).
    { unfold step in Hs. destruct (exited p); [discriminate|].
      destruct e as [|ms|need| |bound].
      - right. destruct (mainpc p); injection Hs as <-; exact Hp.
      - right. injection Hs as <-. exact Hp.
      - right. destruct (listening p); [|discriminate]. injection Hs as <-. exact Hp.
      - right. unfold stepMain in Hs.
        destruct (mainpc p) as [| |d| |]; [discriminate| | | |];
          try (destruct (inflight p); [|destruct (d <=? clock p)%N]; try discriminate);
          injection Hs as <-; exact Hp.
      - unfold stepServer in Hs. destruct (srvpc p) as [| |err|err] eqn:Hpc.
        + destruct (shuttingDown p); [|destruct bound]; injection Hs as <-.
          * right. unfold failedBind. simpl. intros [H|H]; discriminate.
          * right. unfold failedBind. simpl. intros [H|H]; discriminate.
          * left. reflexivity.
        + destruct (listening p); [discriminate|]. injection Hs as <-.
          right. unfold failedBind. simpl. intros [H|H]; discriminate.
        + injection Hs as <-. right. unfold failedBind in *. simpl. rewrite Hpc in Hp.
          intros [H|H]; [discriminate|]. apply Hp. left. congruence.
        + injection Hs as <-. right. unfold failedBind in *. simpl. exact Hp. }
    destruct He as [->|Hp1]; [left; reflexivity|].
    right. exact (IH _ _ Hp1 Hr Hn).
Qed.

(** X5: whatever the signals, the clients, the clock and the scheduler do
    after [main] has started the server, a process that has exited has one
    of two histories.  With status 0 the signal has arrived and [main] has
    written "Shutting down".  With status 1 the log holds the error that
    [srv.ListenAndServe()] returned: the one of a closed server, and then
    the signal has arrived, or the one of the port, and then the port could
    not be bound.  The error need not be the last line of the log. *)
Theorem exit_causes (es : list Event) (p : Process) (code : Z) :
  run es start = Some p -> exited p = Some code ->
  (code = 0%Z /\ In Signal es /\ In "Shutting down" (log_ p)) \/
  (code = 1%Z /\
   ((In ErrServerClosed (log_ p) /\ In Signal es)
    \/ (In ErrListen (log_ p) /\ In (RunServer false) es))).
Proof.
  intros Hr Hx.
  destruct (run_sound _ _ _ sound_start Hr) as (_ & HB & HC & HD & HE & HF & HG).
  destruct (HG _ Hx) as [-> | ->].
  - left. split; [reflexivity|]. split; [|exact (HD (HE Hx))].
    apply (signalled es start p eq_refl Hr). rewrite (HE Hx). discriminate.
  - right. split; [reflexivity|]. destruct (HF Hx) as [err Hs].
    pose proof (HC _ Hs) as Hlog.
    destruct (HB err (or_intror Hs)) as [[-> Hm]| ->].
    + left. split; [exact Hlog|]. exact (signalled es start p eq_refl Hr Hm).
    + right. split; [exact Hlog|].
      apply (unbound es start p); [|exact Hr|right; exact Hs].
      unfold failedBind. simpl. intros [H|H]; discriminate.
Qed.

Lemma step_closed e p p' :
  srvpc p <> SStarting -> listening p = false -> step e p = Some p' ->
  srvpc p' <> SStarting /\ listening p' = false /\ (forall need, e <> Connect need).
Proof.
  intros Hs Hl. unfold step. destruct (exited p); [discriminate|].
  destruct e as [|ms|need| |bound].
  - destruct (mainpc p); intros [= <-]; repeat split; simpl; auto; discriminate.
  - intros [= <-]. repeat split; simpl; auto; discriminate.
  - rewrite Hl. discriminate.
  - unfold stepMain. destruct (mainpc p) as [| |d| |]; [discriminate| | | |];
      try (destruct (inflight p); [|destruct (d <=? clock p)%N]; try discriminate);
      intros [= <-]; repeat split; simpl; auto; discriminate.
  - unfold stepServer. destruct (srvpc p) as [| |err|err] eqn:Hpc; [contradiction| | |].
    + rewrite Hl. intros [= <-]. repeat split; simpl; auto; discriminate.
    + intros [= <-]. repeat split; simpl; auto; discriminate.
    + intros [= <-]. repeat split; simpl; rewrite ?Hpc; auto; discriminate.
Qed.

(** X6: once the server has started and its listener is closed, it stays
    closed: in no run from there a connection is accepted, and the number of
    requests in flight does not grow. *)
Theorem listener_stays_closed (es : list Event) (p p' : Process) :
  srvpc p <> SStarting -> listening p = false ->
  run es p = Some p' ->
  listening p' = false /\ length (inflight p') <= length (inflight p)
  /\ forall need, ~ In (Connect need) es.
Proof.
  revert p. induction es as [|e es IH]; intros p Hs Hl; simpl.
  - intros [= <-]. split; [exact Hl|]. split; [lia|]. intros need [].
  - destruct (step e p) as [p1|] eqn:Hst; [|discriminate]. simpl. intros Hr.
    destruct (step_closed _ _ _ Hs Hl Hst) as (Hs1 & Hl1 & Hne).
    destruct (IH _ Hs1 Hl1 Hr) as (Hl' & Hlen & Hno).
    split; [exact Hl'|]. split.
    + etransitivity; [exact Hlen|]. clear - Hst Hl.
      unfold step in Hst. destruct (exited p); [discriminate|].
      destruct e as [|ms|need| |bound].
      * destruct (mainpc p); injection Hst as <-; simpl; lia.
      * injection Hst as <-. simpl. rewrite length_filter. rewrite length_fmap. lia.
      * rewrite Hl in Hst. discriminate.
      * unfold stepMain in Hst. destruct (mainpc p) as [| |d| |]; [discriminate| | | |];
          try (destruct (inflight p) eqn:Hi; [|destruct (d <=? clock p)%N]; try discriminate);
          injection Hst as <-; simpl; rewrite ?Hi; simpl; lia.
      * unfold stepServer in Hst.
        destruct (srvpc p); [destruct (shuttingDown p); [|destruct bound]| | |];
          try (destruct (listening p); [discriminate|]); injection Hst as <-; simpl; lia.
    + intros need [->|Hin]; [exact (Hne need eq_refl) | exact (Hno need Hin)].
Qed.

(** The run in which the spawned goroutine prints its error, [main] logs
    its line after it, and the spawned goroutine exits first: status 1, and
    the error is not the last line. *)
Lemma exit_causes_witness :
  (1%Z = 0%Z /\ In Signal Samples.race /\ In "Shutting down" (log_ Samples.raced)) \/
  (1%Z = 1%Z /\
   ((In ErrServerClosed (log_ Samples.raced) /\ In Signal Samples.race)
    \/ (In ErrListen (log_ Samples.raced) /\ In (RunServer false) Samples.race))).
Proof.
  apply (exit_causes Samples.race Samples.raced 1).
  - vm_compute. reflexivity.
  - reflexivity.
Defined.

(** After the signal, while the request in flight is answered. *)
Lemma listener_stays_closed_witness :
  listening (set_main MLog (elapse 3000 Samples.closing)) = false
  /\ length (inflight (set_main MLog (elapse 3000 Samples.closing)))
     <= length (inflight Samples.closing)
  /\ forall need, ~ In (Connect need) [Elapse 3000; RunMain].
Proof.
  apply (listener_stays_closed [Elapse 3000; RunMain] Samples.closing).
  - discriminate.
  - reflexivity.
  - vm_compute. reflexivity.
Defined.

(** A request of three seconds is answered, and [main] exits then. *)
Lemma shutdown_drains_witness :
  exists p1 p2,
    step RunMain (Samples.signalled 3000) = Some p1
    /\ listening p1 = false
    /\ mainpc p1 = MDraining (clock (Samples.signalled 3000) + 10000)
    /\ run [Elapse 3000; RunMain; RunMain; RunMain] p1 = Some p2
    /\ exited p2 = Some 0%Z /\ clock p2 = (clock (Samples.signalled 3000) + 3000)%N.
Proof.
  apply (Shutdown.shutdown_drains (Samples.signalled 3000) 3000).
  - reflexivity.
  - reflexivity.
  - repeat constructor. vm_compute. discriminate.
Defined.

(** A request of one minute in flight: [main] exits when the ten seconds
    of the deadline have passed. *)
Lemma shutdown_deadline_witness :
  exists p1,
    step RunMain (Samples.signalled 60000) = Some p1
    /\ listening p1 = false
    /\ forall ms, (10000 <= ms)%N ->
         exists p2, run [Elapse ms; RunMain; RunMain; RunMain] p1 = Some p2
           /\ exited p2 = Some 0%Z
           /\ clock p2 = (clock (Samples.signalled 60000) + ms)%N.
Proof.
  apply (Shutdown.shutdown_deadline (Samples.signalled 60000)).
  - reflexivity.
  - reflexivity.
Defined.

(** The spawned goroutine after the listener is closed: the process ends at
    once, with the request unanswered. *)
Lemma fatal_after_close_witness :
  exists p', run [RunServer true; RunServer true] Samples.closing = Some p'
    /\ exited p' = Some 1%Z /\ clock p' = clock Samples.closing
    /\ inflight p' = inflight Samples.closing
    /\ mainpc p' = mainpc Samples.closing.
Proof.
  apply (Shutdown.fatal_after_close Samples.closing true true); reflexivity.
Defined.

End Life.
(** ** The start-up, for every environment *)

Module Boot.

Import server Startup.

(** X7: when [initRedis] returns, the global client is the one for the
    address and the password that the source holds as literals, whatever the
    environment; its database index is the number that REDIS_DB holds in
    decimal, and 0 when the variable is unset or empty; it has answered the
    ping, and the line "Connected to Redis successfully." is logged. *)
Theorem initRedis_connected (env : gmap string string)
    (NewClient : redis.Options -> redis.Client) (rdb : redis.Client) (line : string) :
  (forall opts, redis.options (NewClient opts) = opts) ->
  initRedis env NewClient = Connected rdb line ->
  redis.Addr (redis.options rdb) = Samples.addrLiteral
  /\ redis.Password (redis.options rdb) = "cE0+mF2_sV3_cQ3+vT0-"
  /\ (os_Getenv env "REDIS_DB" = "" -> redis.DB (redis.options rdb) = 0%Z)
  /\ (os_Getenv env "REDIS_DB" <> "" ->
        strconv.Atoi (os_Getenv env "REDIS_DB") = inl (redis.DB (redis.options rdb)))
  /\ redis.Ping rdb = None
  /\ line = "Connected to Redis successfully.".
Proof.
  intros Ho. rewrite initRedis_eq.
  destruct (String.eqb_spec (os_Getenv env "REDIS_DB") "") as [He|He].
  - change (strconv.Atoi "0") with (inl 0%Z : Z + strconv.NumError). cbv zeta iota beta.
    match goal with |- context [redis.Ping ?c] => destruct (redis.Ping c) eqn:Hp end;
      [discriminate|].
    intros H. assert (Hr : rdb = NewClient {| redis.Addr := Samples.addrLiteral;
                                 redis.Password := "cE0+mF2_sV3_cQ3+vT0-";
                                 redis.DB := 0 |}) by congruence.
    assert (Hl : line = "Connected to Redis successfully.") by congruence.
    rewrite Hr, Ho. repeat split; try reflexivity; try assumption.
    intros Hne. contradiction.
  - destruct (strconv.Atoi (os_Getenv env "REDIS_DB")) as [db|e]; [|discriminate].
    cbv zeta iota beta.
    match goal with |- context [redis.Ping ?c] => destruct (redis.Ping c) eqn:Hp end;
      [discriminate|].
    intros H. assert (Hr : rdb = NewClient {| redis.Addr := Samples.addrLiteral;
                                 redis.Password := "cE0+mF2_sV3_cQ3+vT0-";
                                 redis.DB := db |}) by congruence.
    assert (Hl : line = "Connected to Redis successfully.") by congruence.
    rewrite Hr, Ho. repeat split; try reflexivity; try assumption.
    intros Hne. contradiction.
Qed.

(** REDIS_DB is 3 and REDIS_ADDR names another host. *)
Lemma initRedis_connected_witness :
  redis.Addr (redis.options (Samples.reachable
     {| redis.Addr := Samples.addrLiteral; redis.Password := "cE0+mF2_sV3_cQ3+vT0-";
        redis.DB := 3 |})) = Samples.addrLiteral
  /\ redis.DB (redis.options (Samples.reachable
     {| redis.Addr := Samples.addrLiteral; redis.Password := "cE0+mF2_sV3_cQ3+vT0-";
        redis.DB := 3 |})) = 3%Z.
Proof.
  pose (env := <["REDIS_DB" := "3"]> (<["REDIS_ADDR" := "localhost:6379"]> ∅)
               : gmap string string).
  destruct (initRedis_connected env Samples.reachable
              (Samples.reachable
                 {| redis.Addr := Samples.addrLiteral;
                    redis.Password := "cE0+mF2_sV3_cQ3+vT0-"; redis.DB := 3 |})
              "Connected to Redis successfully.")
    as (Ha & _ & _ & Hd & _).
  - intros opts. reflexivity.
  - vm_compute. reflexivity.
  - split; [exact Ha|].
    assert (Hdb : strconv.Atoi (os_Getenv env "REDIS_DB") = inl 3%Z)
      by (vm_compute; reflexivity).
    rewrite Hd in Hdb; [congruence|]. vm_compute. discriminate.
Defined.

(** A cache that cannot be reached. *)
Lemma initRedis_ping_fatal_witness :
  exists format arg,
    initRedis ∅ (fun _ => Samples.unreachable) = Fatalf format arg.
Proof.
  apply (initRedis_ping_fatal ∅ (fun _ => Samples.unreachable)).
  intros opts. discriminate.
Defined.

End Boot.

(** ** The seeding of the cache: [seedRedisData] *)

Module Seeding.

Import http server Handlers.

Lemma seedRedisData_healthy c :
  kv.fault c = None ->
  seedRedisData c
  = ({| kv.fault := None;
        kv.store := <["user:1:name" := "Cetriolo"]>
                      (<["app:name" := "go-hello-server"]> (kv.store c)) |},
     [mkLog ("Seeding Redis with initial data..." +:+ fmt.nl) []]).
Proof.
  intros Hf. unfold seedRedisData, kv.cmdSet. rewrite Hf. reflexivity.
Qed.

Lemma seedRedisData_faulty c msg :
  kv.fault c = Some msg ->
  seedRedisData c
  = (c, [mkLog ("Seeding Redis with initial data..." +:+ fmt.nl) [];
         mkLog "Failed to seed data 'app:name': %v" [AErr (redis.Failure msg)];
         mkLog "Failed to seed data 'user:1:name': %v" [AErr (redis.Failure msg)]]).
Proof.
  intros Hf. unfold seedRedisData, kv.cmdSet. rewrite Hf. cbv zeta iota beta.
  rewrite Hf. reflexivity.
Qed.

(** X9: after [seedRedisData] on a cache that answers, the cache lookup
    answers a request for the key app:name with go-hello-server and one for
    user:1:name with Cetriolo, each followed by a line feed; a request for
    any other key is answered as before the seeding; the seeding logs its
    one line and no failure. *)
Theorem seeded_lookup (opts : redis.Options) (c : kv.Cache) (r : Request) :
  kv.fault c = None ->
  let rdb := kv.client opts (fst (seedRedisData c)) in
  let key := url.Get (URL_Query r) "key" in
  snd (seedRedisData c) = [mkLog ("Seeding Redis with initial data..." +:+ fmt.nl) []] /\
  (key = "app:name" ->
     resp (serve (redisHandler rdb r)) = Spec.plainText ("go-hello-server" +:+ fmt.nl)) /\
  (key = "user:1:name" ->
     resp (serve (redisHandler rdb r)) = Spec.plainText ("Cetriolo" +:+ fmt.nl)) /\
  (key <> "app:name" -> key <> "user:1:name" ->
     serve (redisHandler rdb r) = serve (redisHandler (kv.client opts c) r)).
Proof.
  intros Hf. cbv zeta. rewrite (seedRedisData_healthy _ Hf). simpl fst. simpl snd.
  split; [reflexivity|]. rewrite !redisHandler_run. cbv zeta.
  unfold kv.client, kv.cmdGet. simpl redis.Get. simpl kv.fault. simpl kv.store.
  rewrite Hf.
  split; [|split].
  - intros ->. rewrite lookup_insert_ne by discriminate.
    rewrite lookup_insert_eq. reflexivity.
  - intros ->. rewrite lookup_insert_eq. reflexivity.
  - intros H1 H2.
    destruct (String.eqb (url.Get (URL_Query r) "key") ""); [reflexivity|].
    rewrite lookup_insert_ne by congruence.
    rewrite lookup_insert_ne by congruence. reflexivity.
Qed.

(** X10: when the cache fails, [seedRedisData] logs a failure for each of
    its two keys, leaves the cache as it was and returns, so that the server
    goes on to start; the cache lookup then answers every request that names
    a key with status 500. *)
Theorem seed_failure_goes_on (opts : redis.Options) (c : kv.Cache) (msg : string)
    (r : Request) :
  kv.fault c = Some msg ->
  url.Get (URL_Query r) "key" <> "" ->
  fst (seedRedisData c) = c /\
  snd (seedRedisData c)
  = [mkLog ("Seeding Redis with initial data..." +:+ fmt.nl) [];
     mkLog "Failed to seed data 'app:name': %v" [AErr (redis.Failure msg)];
     mkLog "Failed to seed data 'user:1:name': %v" [AErr (redis.Failure msg)]] /\
  Code (resp (serve (redisHandler (kv.client opts (fst (seedRedisData c))) r))) = 500%Z.
Proof.
  intros Hf Hk. rewrite (seedRedisData_faulty _ _ Hf). simpl fst. simpl snd.
  split; [reflexivity|]. split; [reflexivity|].
  rewrite redisHandler_run. cbv zeta.
  destruct (String.eqb_spec (url.Get (URL_Query r) "key") "") as [He|_]; [contradiction|].
  unfold kv.client, kv.cmdGet. simpl redis.Get. rewrite Hf. reflexivity.
Qed.

(** X11: seeding a cache that was seeded changes nothing: a restart of
    the server leaves the cache as the first start left it. *)
Theorem seed_idempotent (c : kv.Cache) :
  fst (seedRedisData (fst (seedRedisData c))) = fst (seedRedisData c).
Proof.
  destruct (kv.fault c) as [msg|] eqn:Hf.
  - rewrite (seedRedisData_faulty _ _ Hf). cbn [fst].
    rewrite (seedRedisData_faulty _ _ Hf). reflexivity.
  - rewrite (seedRedisData_healthy _ Hf). cbn [fst].
    rewrite seedRedisData_healthy by reflexivity. cbn [fst]. cbn [kv.store].
    f_equal. apply map_eq. intros k.
    destruct (decide (k = "user:1:name")) as [->|H1].
    + rewrite !lookup_insert_eq. reflexivity.
    + rewrite !(lookup_insert_ne _ "user:1:name") by congruence.
      destruct (decide (k = "app:name")) as [->|H2].
      * rewrite !lookup_insert_eq. reflexivity.
      * repeat (rewrite lookup_insert_ne by congruence). reflexivity.
Qed.

(** An empty cache, and the request /redis?key=user:1:name. *)
Lemma seeded_lookup_witness :
  resp (serve (redisHandler
                 (kv.client (redis.options Samples.seeded)
                    (fst (seedRedisData Samples.emptyCache)))
                 (Samples.query "GET" "key=user:1:name" (Samples.readBody ""))))
  = Spec.plainText ("Cetriolo" +:+ fmt.nl).
Proof.
  apply (proj1 (proj2 (proj2 (seeded_lookup (redis.options Samples.seeded)
           Samples.emptyCache
           (Samples.query "GET" "key=user:1:name" (Samples.readBody "")) eq_refl)))).
  vm_compute. reflexivity.
Defined.

(** A cache that cannot be reached, and the request /redis?key=app:name. *)
Lemma seed_failure_goes_on_witness :
  fst (seedRedisData Samples.lostCache) = Samples.lostCache /\
  Code (resp (serve (redisHandler
                 (kv.client (redis.options Samples.seeded)
                    (fst (seedRedisData Samples.lostCache)))
                 (Samples.query "GET" "key=app:name" (Samples.readBody ""))))) = 500%Z.
Proof.
  destruct (seed_failure_goes_on (redis.options Samples.seeded) Samples.lostCache
              "i/o timeout"
              (Samples.query "GET" "key=app:name" (Samples.readBody "")))
    as (H1 & _ & H3).
  - reflexivity.
  - vm_compute. discriminate.
  - split; [exact H1 | exact H3].
Defined.

End Seeding.
(** ** The address of the client, by the form of its sources *)

Module Resolver.

Import http server strings StringsFacts net NetFacts ClientIP Shape.

Lemma free_app cs a b : free cs (a +:+ b) <-> free cs a /\ free cs b.
Proof.
  unfold free. split.
  - intros H. split; intros c Hc; apply (IndexByte_app_None a b c); auto.
  - intros [Ha Hb] c Hc. apply IndexByte_app_None. auto.
Qed.

Lemma IndexByte_infix a t b c :
  IndexByte (a +:+ t +:+ b) c = None -> IndexByte t c = None.
Proof.
  intros H. apply IndexByte_app_None in H as [_ H].
  apply IndexByte_app_None in H as [H _]. exact H.
Qed.

(** X12: when X-Forwarded-For is present and not empty, the address that
    [getClientIP] returns is a part of the header value that holds no comma
    and neither begins nor ends with a space, a tab, a line feed, a carriage
    return, a vertical tab or a form feed. *)
Theorem forwarded_result_trimmed (r : Request) (v : string) :
  Spec.present (Header_ r) "X-Forwarded-For" v ->
  exists ip,
    getClientIP r = Some ip
    /\ (exists a b, v = a +:+ ip +:+ b)
    /\ IndexByte ip "," = None
    /\ (forall c t, ip = String c t -> asciiSpace c = false)
    /\ (forall c t, ip = t +:+ String c "" -> asciiSpace c = false).
Proof.
  intros Hv. rewrite getClientIP_eq. cbv zeta.
  destruct (present_Get _ _ _ eq_refl Hv) as [-> ->].
  eexists. split; [reflexivity|].
  destruct (firstField_split v ",") as (rest & Hsplit & Hfree & _).
  destruct (TrimSpace_infix (Spec.firstField v ",")) as (a & b & Hin).
  split; [|split].
  - exists a, (b +:+ rest). rewrite Hsplit at 1. rewrite Hin at 1.
    rewrite !app_assoc. reflexivity.
  - rewrite Hin in Hfree. apply (IndexByte_infix _ _ _ _ Hfree).
  - apply TrimSpace_ends.
Qed.

(** What [SplitHostPort] accepts, with the bytes that each part is free of. *)
Lemma SplitHostPort_accepts hostport host port :
  SplitHostPort hostport = inl (host, port) ->
  (hostport = host +:+ ":" +:+ port
   /\ free [":"; "["; "]"]%char host /\ free [":"; "["; "]"]%char port)
  \/ (hostport = "[" +:+ host +:+ "]:" +:+ port
      /\ free ["["; "]"]%char host /\ free [":"; "["; "]"]%char port).
Proof.
  unfold SplitHostPort.
  destruct (LastIndexByte hostport ":") as [i|] eqn:Ei; [|discriminate].
  destruct (LastIndexByte_split _ _ _ Ei) as [Hi Hlast].
  apply LastIndexByte_None in Hlast.
  destruct (HasPrefix hostport "[") eqn:Hpre.
  - apply HasPrefix_spec in Hpre as [t ->]. change ("[" +:+ t) with (String "[" t) in *.
    simpl IndexByte. destruct (IndexByte t "]") as [e'|] eqn:Ee; [|discriminate].
    simpl fmap. cbv beta iota.
    destruct (S e' + 1 =? len (String "[" t))%nat; [discriminate|].
    destruct (S e' + 1 =? i)%nat eqn:Eq; [|destruct (HasPrefix _ ":"); discriminate].
    apply Nat.eqb_eq in Eq. subst i. unfold finish.
    destruct (has_byte (drop 1 (String "[" t)) "[") eqn:Ho; [discriminate|].
    destruct (has_byte (drop (S e' + 1) (String "[" t)) "]") eqn:Hc; [discriminate|].
    intros H. right.
    assert (Hh : host = take e' t).
    { replace (take e' t) with (take (S e' - 1) (drop 1 (String "[" t))); [congruence|].
      replace (S e' - 1) with e' by lia. reflexivity. }
    assert (Hp : port = drop (S (S e')) t).
    { replace (drop (S (S e')) t) with (drop (S e' + 1 + 1) (String "[" t)); [congruence|].
      replace (S e' + 1 + 1) with (S (S (S e'))) by lia. reflexivity. }
    clear H.
    replace (S e' + 1) with (S (S e')) in * by lia.
    rewrite take_cons, drop_cons, app_cons in Hi.
    assert (Ht : t = take (S e') t +:+ String ":" (drop (S (S e')) t)) by congruence.
    rewrite (take_S_IndexByte _ _ _ Ee), app_assoc in Ht.
    rewrite <- Hh, <- Hp in Ht.
    change (drop (S (S (S e'))) (String "[" t)) with (drop (S (S e')) t) in Hlast.
    rewrite <- Hp in Hlast.
    change (drop 1 (String "[" t)) with t in Ho. apply has_byte_false in Ho.
    change (drop (S (S e')) (String "[" t)) with (drop (S e') t) in Hc.
    apply has_byte_false in Hc.
    destruct (IndexByte_split _ _ _ Ee) as [_ Hfirst]. rewrite <- Hh in Hfirst.
    assert (Hd : drop (S e') t = String ":" port).
    { rewrite Ht at 1. replace (S e') with (len (host +:+ "]")).
      - rewrite <- (app_assoc host "]"). apply drop_app_len.
      - rewrite len_app. rewrite Hh. 
        assert (Hl : len (take e' t) = e').
        { clear -Ee. revert e' Ee. induction t as [|b t IH]; intros e' Ee; simpl in Ee; [discriminate|].
          destruct (Byte8.eqb b "]"); [injection Ee as <-; reflexivity|].
          destruct (IndexByte t "]") as [j|]; [|discriminate]. injection Ee as <-.
          rewrite take_cons. unfold len in *. simpl. rewrite (IH j eq_refl). reflexivity. }
        rewrite Hl. simpl. lia. }
    rewrite Hd in Hc. simpl in Hc.
    rewrite Ht in Ho. apply IndexByte_app_None in Ho as [Ho1 Ho2].
    simpl in Ho2.
    split; [|split].
    + rewrite !app_cons, app_nil_l. f_equal. exact Ht.
    + intros c [<-|[<-|[]]]; assumption.
    + intros c [<-|[<-|[<-|[]]]].
      * exact Hlast.
      * destruct (IndexByte port "["); [discriminate | reflexivity].
      * destruct (IndexByte port "]"); [discriminate | reflexivity].
  - cbv zeta. destruct (has_byte (take i hostport) ":") eqn:Hcol; [discriminate|].
    apply has_byte_false in Hcol.
    unfold finish. simpl drop.
    destruct (has_byte hostport "[") eqn:Ho; [discriminate|].
    destruct (has_byte hostport "]") eqn:Hc; [discriminate|].
    apply has_byte_false in Ho, Hc.
    intros H. left.
    assert (Hh : host = take i hostport) by congruence.
    assert (Hp : port = drop (S i) hostport).
    { replace (S i) with (i + 1) by lia. congruence. }
    rewrite <- Hh, <- Hp in *. clear H.
    rewrite Hi in Ho, Hc.
    apply IndexByte_app_None in Ho as [Ho1 Ho2].
    apply IndexByte_app_None in Hc as [Hc1 Hc2].
    simpl in Ho2, Hc2.
    split; [exact Hi|]. split.
    + intros c [<-|[<-|[<-|[]]]]; assumption.
    + intros c [<-|[<-|[<-|[]]]].
      * exact Hlast.
      * destruct (IndexByte port "["); [discriminate | reflexivity].
      * destruct (IndexByte port "]"); [discriminate | reflexivity].
Qed.

Lemma len_take_IndexByte s c e : IndexByte s c = Some e -> len (take e s) = e.
Proof.
  revert e. induction s as [|b s IH]; intros e He; simpl in He; [discriminate|].
  destruct (Byte8.eqb b c); [injection He as <-; reflexivity|].
  destruct (IndexByte s c) as [j|]; [|discriminate]. injection He as <-.
  rewrite take_cons. unfold len in *. simpl. rewrite (IH j eq_refl). reflexivity.
Qed.

(** A host in brackets, which may hold colons, is split from its port. *)
Lemma SplitHostPort_bracketed host port :
  free ["["; "]"]%char host -> free [":"; "["; "]"]%char port ->
  SplitHostPort ("[" +:+ host +:+ "]:" +:+ port) = inl (host, port).
Proof.
  intros Hh Hp.
  assert (Ho := Hh "["%char ltac:(simpl; tauto)).
  assert (Hk := Hh "]"%char ltac:(simpl; tauto)).
  assert (Hc' := Hp ":"%char ltac:(simpl; tauto)).
  assert (Ho' := Hp "["%char ltac:(simpl; tauto)).
  assert (Hk' := Hp "]"%char ltac:(simpl; tauto)).
  unfold SplitHostPort.
  assert (Hlast : LastIndexByte ("[" +:+ host +:+ "]:" +:+ port) ":"
                  = Some (len ("[" +:+ host +:+ "]"))).
  { replace ("[" +:+ host +:+ "]:" +:+ port)
      with (("[" +:+ host +:+ "]") +:+ String ":" port).
    - apply LastIndexByte_app. exact Hc'.
    - rewrite !app_assoc. reflexivity. }
  rewrite Hlast.
  change ("[" +:+ host +:+ "]:" +:+ port)
    with (String "[" (host +:+ String "]" (String ":" port))).
  assert (Hlen : len ("[" +:+ host +:+ "]") = S (len host + 1)).
  { change ("[" +:+ host +:+ "]") with (String "[" (host +:+ "]")).
    unfold len. simpl. f_equal. apply len_app. }
  rewrite Hlen.
  change (HasPrefix (String "[" (host +:+ String "]" (String ":" port))) "[") with true.
  cbv iota.
  assert (Hidx : IndexByte (String "[" (host +:+ String "]" (String ":" port))) "]"
                 = Some (S (len host))).
  { simpl. rewrite IndexByte_app, Hk. simpl. rewrite Nat.add_0_r. reflexivity. }
  rewrite Hidx.
  assert (Hne : (S (len host) + 1 =? len (String "[" (host +:+ String "]" (String ":" port))))%nat = false).
  { apply Nat.eqb_neq. unfold len. simpl. fold (len (host +:+ String "]" (String ":" port))).
    rewrite len_app. unfold len. simpl. lia. }
  rewrite Hne.
  assert (Heq : (S (len host) + 1 =? S (len host + 1))%nat = true) by (apply Nat.eqb_eq; lia).
  rewrite Heq. unfold finish.
  change (drop 1 (String "[" (host +:+ String "]" (String ":" port))))
    with (host +:+ String "]" (String ":" port)).
  assert (H1 : has_byte (host +:+ String "]" (String ":" port)) "[" = false).
  { apply has_byte_false, IndexByte_app_None. split; [exact Ho|]. simpl. rewrite Ho'. reflexivity. }
  rewrite H1.
  replace (S (len host) + 1) with (S (len (host +:+ "]"))) by (rewrite len_app; unfold len; simpl; lia).
  rewrite drop_cons.
  replace (host +:+ String "]" (String ":" port)) with ((host +:+ "]") +:+ String ":" port)
    by (rewrite app_assoc; reflexivity).
  rewrite drop_app_len.
  assert (H2 : has_byte (String ":" port) "]" = false).
  { apply has_byte_false. simpl. rewrite Hk'. reflexivity. }
  rewrite H2. f_equal. f_equal.
  - replace (S (len host) - 1) with (len host) by lia.
    rewrite !app_assoc. apply take_app_len.
  - replace (S (len host + 1) + 1) with (S (len ((host +:+ "]") +:+ ":")))
      by (rewrite !len_app; unfold len; simpl; lia).
    rewrite drop_cons.
    replace ((host +:+ "]") +:+ String ":" port) with (((host +:+ "]") +:+ ":") +:+ port)
      by (rewrite (app_assoc (host +:+ "]")); reflexivity).
    apply drop_app_len.
Qed.

(** X13: without forwarding headers, a peer address of the form host:port,
    or [host]:port with a host that may hold colons, gives the host, without
    the brackets. *)
Theorem peer_address_host (r : Request) (host port : string) :
  Spec.blank (Header_ r) "X-Forwarded-For" -> Spec.blank (Header_ r) "X-Real-Ip" ->
  free [":"; "["; "]"]%char port ->
  (RemoteAddr r = host +:+ ":" +:+ port /\ free [":"; "["; "]"]%char host)
  \/ (RemoteAddr r = "[" +:+ host +:+ "]:" +:+ port /\ free ["["; "]"]%char host) ->
  getClientIP r = Some host.
Proof.
  intros Hb Hb' Hp Hshape. rewrite getClientIP_eq. cbv zeta.
  apply blank_Get in Hb, Hb'; try reflexivity. rewrite Hb, Hb'. simpl String.eqb. cbv iota.
  destruct Hshape as [[-> Hh]|[-> Hh]].
  - rewrite (SplitHostPort_plain host port Hh Hp). reflexivity.
  - rewrite (SplitHostPort_bracketed host port Hh Hp). reflexivity.
Qed.

(** X14: without forwarding headers, a peer address that has neither of
    the two forms is returned as it is. *)
Theorem peer_address_unparsed (r : Request) :
  Spec.blank (Header_ r) "X-Forwarded-For" -> Spec.blank (Header_ r) "X-Real-Ip" ->
  (forall host port, free [":"; "["; "]"]%char port ->
     ~ (RemoteAddr r = host +:+ ":" +:+ port /\ free [":"; "["; "]"]%char host) /\
     ~ (RemoteAddr r = "[" +:+ host +:+ "]:" +:+ port /\ free ["["; "]"]%char host)) ->
  getClientIP r = Some (RemoteAddr r).
Proof.
  intros Hb Hb' Hno. rewrite getClientIP_eq. cbv zeta.
  apply blank_Get in Hb, Hb'; try reflexivity. rewrite Hb, Hb'. simpl String.eqb. cbv iota.
  destruct (SplitHostPort (RemoteAddr r)) as [[host port]|e] eqn:Hs; [|reflexivity].
  exfalso. apply SplitHostPort_accepts in Hs.
  destruct Hs as [(Heq & Hh & Hp)|(Heq & Hh & Hp)].
  - apply (proj1 (Hno host port Hp)). split; assumption.
  - apply (proj2 (Hno host port Hp)). split; assumption.
Qed.

(** A forwarding header with spaces around its first element. *)
Lemma forwarded_result_trimmed_witness :
  exists ip,
    getClientIP (Samples.request (<["X-Forwarded-For" := [" 1.2.3.4 , 5.6.7.8"]]> ∅)
                   "9.9.9.9:1234") = Some ip
    /\ (exists a b, " 1.2.3.4 , 5.6.7.8" = a +:+ ip +:+ b)
    /\ IndexByte ip "," = None
    /\ (forall c t, ip = String c t -> asciiSpace c = false)
    /\ (forall c t, ip = t +:+ String c "" -> asciiSpace c = false).
Proof.
  apply (forwarded_result_trimmed
           (Samples.request (<["X-Forwarded-For" := [" 1.2.3.4 , 5.6.7.8"]]> ∅)
              "9.9.9.9:1234") " 1.2.3.4 , 5.6.7.8").
  exists []. split; [vm_compute; reflexivity | discriminate].
Defined.

(** The loopback address of IPv6. *)
Lemma peer_address_host_witness :
  getClientIP (Samples.request ∅ "[::1]:8080") = Some "::1".
Proof.
  apply (peer_address_host (Samples.request ∅ "[::1]:8080") "::1" "8080").
  - apply blank_empty.
  - apply blank_empty.
  - intros c [<-|[<-|[<-|[]]]]; reflexivity.
  - right. split; [reflexivity|]. intros c [<-|[<-|[]]]; reflexivity.
Defined.

(** A peer address without port. *)
Lemma peer_address_unparsed_witness :
  getClientIP (Samples.request ∅ "localhost") = Some "localhost".
Proof.
  apply (peer_address_unparsed (Samples.request ∅ "localhost")).
  - apply blank_empty.
  - apply blank_empty.
  - intros host port _. split; intros [Heq _].
    + assert (Hn : IndexByte (host +:+ ":" +:+ port) ":" = None)
        by (rewrite <- Heq; reflexivity).
      apply IndexByte_app_None in Hn as [_ Hn]. discriminate Hn.
    + discriminate Heq.
Defined.

End Resolver.
(** ** The labels of the classifier, inverted *)

Module Labels.

Import server strings StringsFacts.

(** A string that contains a word contains every prefix of the word. *)
Lemma Contains_prefix ua p q :
  Contains ua (p +:+ q) = true -> Contains ua p = true.
Proof.
  rewrite !Contains_spec. intros (a & b & ->). exists a, (q +:+ b).
  rewrite !app_assoc. reflexivity.
Qed.

Lemma Edge_Edg ua : Contains ua "Edge" = true -> Contains ua "Edg" = true.
Proof. apply (Contains_prefix ua "Edg" "e"). Qed.

Ltac table :=
  simpl;
  repeat split; intros;
  repeat match goal with H : _ /\ _ |- _ => destruct H end;
  repeat match goal with H : _ \/ _ |- _ => destruct H end;
  try discriminate; try reflexivity; auto.

(** X17: which user agents get which browser label.  Each label is given
    exactly when its own words occur and the words of the labels before it do
    not; hence the test for Edge adds nothing to the test for Edg, Safari
    needs no test for Chrome, and Unknown is the label exactly when none of
    the nine words occurs. *)
Theorem browser_inversion (ua : string) :
  (browser ua = "Opera" <-> Spec.has "OPR" ua = true \/ Spec.has "Opera" ua = true) /\
  (browser ua = "Edge" <->
     Spec.has "OPR" ua = false /\ Spec.has "Opera" ua = false
     /\ Spec.has "Edg" ua = true) /\
  (browser ua = "Chrome" <->
     Spec.has "OPR" ua = false /\ Spec.has "Opera" ua = false
     /\ Spec.has "Edg" ua = false
     /\ Spec.has "Chrome" ua = true /\ Spec.has "Chromium" ua = false) /\
  (browser ua = "Chromium" <->
     Spec.has "OPR" ua = false /\ Spec.has "Opera" ua = false
     /\ Spec.has "Edg" ua = false /\ Spec.has "Chromium" ua = true) /\
  (browser ua = "Firefox" <->
     Spec.has "OPR" ua = false /\ Spec.has "Opera" ua = false
     /\ Spec.has "Edg" ua = false
     /\ Spec.has "Chrome" ua = false /\ Spec.has "Chromium" ua = false
     /\ Spec.has "Firefox" ua = true) /\
  (browser ua = "Safari" <->
     Spec.has "OPR" ua = false /\ Spec.has "Opera" ua = false
     /\ Spec.has "Edg" ua = false
     /\ Spec.has "Chrome" ua = false /\ Spec.has "Chromium" ua = false
     /\ Spec.has "Firefox" ua = false /\ Spec.has "Safari" ua = true) /\
  (browser ua = "Internet Explorer" <->
     Spec.has "OPR" ua = false /\ Spec.has "Opera" ua = false
     /\ Spec.has "Edg" ua = false
     /\ Spec.has "Chrome" ua = false /\ Spec.has "Chromium" ua = false
     /\ Spec.has "Firefox" ua = false /\ Spec.has "Safari" ua = false
     /\ (Spec.has "MSIE" ua = true \/ Spec.has "Trident" ua = true)) /\
  (browser ua = "Unknown" <->
     Forall (fun word => Spec.has word ua = false)
       ["OPR"; "Opera"; "Edg"; "Chrome"; "Chromium"; "Firefox"; "Safari";
        "MSIE"; "Trident"]).
Proof.
  pose proof (Edge_Edg ua) as HE.
  unfold browser, Spec.has in *.
  rewrite !Forall_cons, Forall_nil.
  destruct (Contains ua "OPR"); [simpl; table|].
  destruct (Contains ua "Opera"); [simpl; table|].
  destruct (Contains ua "Edg").
  { simpl. table. }
  destruct (Contains ua "Edge"); [discriminate (HE eq_refl)|].
  destruct (Contains ua "Chromium").
  { destruct (Contains ua "Chrome"); simpl; table. }
  destruct (Contains ua "Chrome"); [simpl; table|].
  destruct (Contains ua "Firefox"); [simpl; table|].
  destruct (Contains ua "Safari"); [simpl; table|].
  destruct (Contains ua "MSIE"); [simpl; table|].
  destruct (Contains ua "Trident"); simpl; table.
Qed.

(** X18: which user agents get which operating system label, in the same
    way: Windows before macOS before Android before iOS before Linux, and
    Unknown exactly when none of the six words occurs. *)
Theorem osname_inversion (ua : string) :
  (osname ua = "Windows" <-> Spec.has "Windows" ua = true) /\
  (osname ua = "macOS" <->
     Spec.has "Windows" ua = false /\ Spec.has "Macintosh" ua = true) /\
  (osname ua = "Android" <->
     Spec.has "Windows" ua = false /\ Spec.has "Macintosh" ua = false
     /\ Spec.has "Android" ua = true) /\
  (osname ua = "iOS" <->
     Spec.has "Windows" ua = false /\ Spec.has "Macintosh" ua = false
     /\ Spec.has "Android" ua = false
     /\ (Spec.has "iPhone" ua = true \/ Spec.has "iPad" ua = true)) /\
  (osname ua = "Linux" <->
     Spec.has "Windows" ua = false /\ Spec.has "Macintosh" ua = false
     /\ Spec.has "Android" ua = false
     /\ Spec.has "iPhone" ua = false /\ Spec.has "iPad" ua = false
     /\ Spec.has "Linux" ua = true) /\
  (osname ua = "Unknown" <->
     Forall (fun word => Spec.has word ua = false)
       ["Windows"; "Macintosh"; "Android"; "iPhone"; "iPad"; "Linux"]).
Proof.
  unfold osname, Spec.has.
  rewrite !Forall_cons, Forall_nil.
  destruct (Contains ua "Windows"); [simpl; table|].
  destruct (Contains ua "Macintosh"); [simpl; table|].
  destruct (Contains ua "Android"); [simpl; table|].
  destruct (Contains ua "iPhone"); [simpl; table|].
  destruct (Contains ua "iPad"); [simpl; table|].
  destruct (Contains ua "Linux"); simpl; table.
Qed.

End Labels.
(** ** Queries: escaped values and repeated parameters *)

Module Queries.

Import strings StringsFacts http server Handlers.

(** One escaped byte is unescaped to the byte. *)
Lemma QueryUnescape_escapeByte c rest :
  url.QueryUnescape (url.escapeByte c +:+ rest) = String c <$> url.QueryUnescape rest.
Proof.
  destruct c as [[] [] [] [] [] [] [] []]; reflexivity.
Qed.

(** Escaping is undone by unescaping, for every string of bytes. *)
Lemma QueryUnescape_QueryEscape s : url.QueryUnescape (url.QueryEscape s) = Some s.
Proof.
  induction s as [|c s IH]; [reflexivity|].
  simpl url.QueryEscape. rewrite QueryUnescape_escapeByte, IH. reflexivity.
Qed.

Lemma escapeByte_free c x :
  In x ["&"; ";"; "="]%char -> IndexByte (url.escapeByte c) x = None.
Proof.
  intros [<-|[<-|[<-|[]]]]; destruct c as [[] [] [] [] [] [] [] []]; reflexivity.
Qed.

Lemma QueryEscape_free s x :
  In x ["&"; ";"; "="]%char -> IndexByte (url.QueryEscape s) x = None.
Proof.
  intros Hx. induction s as [|c s IH]; [reflexivity|].
  simpl url.QueryEscape. apply IndexByte_app_None. split; [apply escapeByte_free; exact Hx | exact IH].
Qed.

(** The query [key=value] with the value escaped has the one pair. *)
Lemma ParseQuery_escaped key value :
  key <> "" ->
  (forall c, In c ["&"; ";"; "="; "%"; "+"]%char -> IndexByte key c = None) ->
  url.ParseQuery (key +:+ String "=" (url.QueryEscape value)) = <[key := [value]]> ∅.
Proof.
  intros Hne Hk. unfold url.ParseQuery.
  set (e := url.QueryEscape value).
  assert (He : forall x, In x ["&"; ";"; "="]%char -> IndexByte e x = None)
    by (intros x Hx; apply QueryEscape_free; exact Hx).
  assert (Hamp : IndexByte (key +:+ String "=" e) "&" = None).
  { apply IndexByte_app_None. split; [apply Hk; simpl; tauto|].
    simpl. rewrite (He "&"%char); [reflexivity | simpl; tauto]. }
  assert (Hsemi : IndexByte (key +:+ String "=" e) ";" = None).
  { apply IndexByte_app_None. split; [apply Hk; simpl; tauto|].
    simpl. rewrite (He ";"%char); [reflexivity | simpl; tauto]. }
  rewrite (Split_whole _ _ Hamp). simpl foldl. unfold url.addPair.
  rewrite (Contains_byte _ _ Hsemi).
  assert (Hnb : String.eqb (key +:+ String "=" e) "" = false).
  { destruct key; [contradiction | reflexivity]. }
  rewrite Hnb. unfold url.Cut.
  assert (Hi : IndexByte (key +:+ String "=" e) "=" = Some (len key)).
  { rewrite IndexByte_app, (Hk "="%char ltac:(simpl; tauto)). simpl.
    f_equal. lia. }
  rewrite Hi, take_app_len.
  replace (len key + 1) with (len (key +:+ "=")) by (rewrite len_app; reflexivity).
  change (String "=" e) with ("=" +:+ e).
  rewrite <- app_assoc, drop_app_len.
  rewrite (UrlFacts.QueryUnescape_plain key);
    try (apply Hk; simpl; tauto).
  unfold e. rewrite QueryUnescape_QueryEscape.
  rewrite lookup_empty. reflexivity.
Qed.

(** X22: a name that is sent escaped, as [url.QueryEscape] writes it, is
    greeted as it was before the escaping, whatever bytes it holds: the
    status is 200 and the body is "Hello, ", the name and a line feed. *)
Theorem greeting_escaped_name (r : Request) (value : string) :
  value <> "" ->
  URL_RawQuery r = "name=" +:+ url.QueryEscape value ->
  Code (resp (serve (handler r))) = 200%Z
  /\ BodyBytes (resp (serve (handler r))) = "Hello, " +:+ value +:+ fmt.nl.
Proof.
  intros Hne Hq. rewrite handler_resp. unfold URL_Query. rewrite Hq.
  change ("name=" +:+ url.QueryEscape value)
    with ("name" +:+ String "=" (url.QueryEscape value)).
  rewrite (ParseQuery_escaped "name" value); [|discriminate|].
  - unfold url.Get. rewrite lookup_insert_eq.
    apply eqb_false_ne in Hne. rewrite Hne. split; reflexivity.
  - intros c Hc. simpl in Hc. destruct Hc as [<-|[<-|[<-|[<-|[<-|[]]]]]]; reflexivity.
Qed.

(** X24: a message that is sent escaped with GET is echoed as it was before
    the escaping, followed by a line feed. *)
Theorem echo_escaped_msg (r : Request) (value : string) :
  value <> "" ->
  Method r = "GET" ->
  URL_RawQuery r = "msg=" +:+ url.QueryEscape value ->
  resp (serve (echoHandler r)) = Spec.plainText (value +:+ fmt.nl).
Proof.
  intros Hne Hm Hq. rewrite echoHandler_resp, Hm. unfold URL_Query. rewrite Hq.
  change ("msg=" +:+ url.QueryEscape value)
    with ("msg" +:+ String "=" (url.QueryEscape value)).
  rewrite (ParseQuery_escaped "msg" value); [|discriminate|].
  - unfold url.Get. rewrite lookup_insert_eq.
    apply eqb_false_ne in Hne. rewrite Hne. reflexivity.
  - intros c Hc. simpl in Hc. destruct Hc as [<-|[<-|[<-|[<-|[<-|[]]]]]]; reflexivity.
Qed.

(** *** The first value of a parameter *)

Lemma Split_app_sep s t sep :
  Split (s +:+ String sep t) sep = (Split s sep ++ Split t sep)%list.
Proof.
  induction s as [|c s IH].
  - rewrite app_nil_l. simpl. rewrite Byte8Facts.eqb_refl. reflexivity.
  - rewrite app_cons. simpl. destruct (Byte8.eqb c sep).
    + rewrite IH. reflexivity.
    + rewrite IH. destruct (Split s sep) as [|h t'] eqn:Es; [destruct (Split_nonempty _ _ Es)|].
      reflexivity.
Qed.

Lemma addPair_first m kv key v vs :
  m !! key = Some (v :: vs) ->
  exists vs', url.addPair m kv !! key = Some (v :: vs').
Proof.
  intros Hm. unfold url.addPair.
  destruct (Contains kv ";"); [eauto|].
  destruct (String.eqb kv ""); [eauto|].
  destruct (url.Cut kv "=") as [k x].
  destruct (url.QueryUnescape k) as [k'|]; [|eauto].
  destruct (url.QueryUnescape x) as [x'|]; [|eauto].
  destruct (decide (k' = key)) as [->|Hne].
  - rewrite lookup_insert_eq, Hm. simpl. eauto.
  - rewrite lookup_insert_ne by exact Hne. eauto.
Qed.

Lemma foldl_addPair_first kvs : forall m key v vs,
  m !! key = Some (v :: vs) ->
  exists vs', foldl url.addPair m kvs !! key = Some (v :: vs').
Proof.
  induction kvs as [|kv kvs IH]; intros m key v vs Hm; simpl; [eauto|].
  destruct (addPair_first m kv key v vs Hm) as [vs' H']. apply (IH _ _ _ _ H').
Qed.

(** A parameter that the query has keeps its first value when pairs are
    added to the query. *)
Lemma Get_first_wins q more key :
  url.Get (url.ParseQuery q) key <> "" ->
  url.Get (url.ParseQuery (q +:+ String "&" more)) key = url.Get (url.ParseQuery q) key.
Proof.
  intros Hn.
  assert (Hq : exists v vs, url.ParseQuery q !! key = Some (v :: vs)).
  { unfold url.Get in Hn. destruct (url.ParseQuery q !! key) as [[|v vs]|];
      try contradiction. eauto. }
  destruct Hq as (v & vs & Hq).
  destruct (foldl_addPair_first (Split more "&") _ key v vs Hq) as [vs' H'].
  assert (Hall : url.ParseQuery (q +:+ String "&" more)
                 = foldl url.addPair (url.ParseQuery q) (Split more "&")).
  { unfold url.ParseQuery. rewrite Split_app_sep, foldl_app. reflexivity. }
  unfold url.Get. rewrite Hall, H', Hq. reflexivity.
Qed.

(** X23: the greeting uses the first value of the parameter name: when
    the query has a name that is not empty, pairs that are added after an
    ampersand, other names included, do not change the answer. *)
Theorem greeting_first_name_wins (r r' : Request) (more : string) :
  URL_RawQuery r' = URL_RawQuery r +:+ String "&" more ->
  url.Get (URL_Query r) "name" <> "" ->
  resp (serve (handler r')) = resp (serve (handler r)).
Proof.
  intros Hq Hn. rewrite !handler_resp. unfold URL_Query in *. rewrite Hq.
  rewrite (Get_first_wins _ _ _ Hn). reflexivity.
Qed.

(** A name with a space, an ampersand and a byte that is no ASCII. *)
Lemma greeting_escaped_name_witness :
  url.QueryEscape ("Ann & Zo" +:+ String "195" (String "171" ""))
    = "Ann+%26+Zo%C3%AB" /\
  Code (resp (serve (handler
    (Samples.query "GET" "name=Ann+%26+Zo%C3%AB" (Samples.readBody ""))))) = 200%Z /\
  BodyBytes (resp (serve (handler
    (Samples.query "GET" "name=Ann+%26+Zo%C3%AB" (Samples.readBody "")))))
  = "Hello, " +:+ ("Ann & Zo" +:+ String "195" (String "171" "")) +:+ fmt.nl.
Proof.
  split; [vm_compute; reflexivity|].
  apply (greeting_escaped_name
           (Samples.query "GET" "name=Ann+%26+Zo%C3%AB" (Samples.readBody ""))
           ("Ann & Zo" +:+ String "195" (String "171" ""))).
  - discriminate.
  - vm_compute. reflexivity.
Defined.

Lemma echo_escaped_msg_witness :
  resp (serve (echoHandler (Samples.query "GET" "msg=50%25+off%3F" (Samples.readBody ""))))
  = Spec.plainText ("50% off?" +:+ fmt.nl).
Proof.
  apply (echo_escaped_msg
           (Samples.query "GET" "msg=50%25+off%3F" (Samples.readBody "")) "50% off?").
  - discriminate.
  - reflexivity.
  - vm_compute. reflexivity.
Defined.

(** The query [name=Ann&name=Bob&x=1]. *)
Lemma greeting_first_name_wins_witness :
  resp (serve (handler (Samples.query "GET" "name=Ann&name=Bob&x=1" (Samples.readBody ""))))
  = resp (serve (handler (Samples.query "GET" "name=Ann" (Samples.readBody "")))).
Proof.
  apply (greeting_first_name_wins
           (Samples.query "GET" "name=Ann" (Samples.readBody ""))
           (Samples.query "GET" "name=Ann&name=Bob&x=1" (Samples.readBody ""))
           "name=Bob&x=1").
  - reflexivity.
  - vm_compute. discriminate.
Defined.

End Queries.
(** ** The answers in JSON, and the address as text *)

Module JsonAnswers.

Import strings StringsFacts http server ClientIP Shape.

Lemma getClientIP_total r : exists ip, getClientIP r = Some ip.
Proof. rewrite getClientIP_eq. eauto. Qed.

Lemma every_app p a b : every p (a +:+ b) = every p a && every p b.
Proof.
  induction a as [|c a IH]; [reflexivity|].
  rewrite app_cons. simpl. rewrite IH, andb_assoc. reflexivity.
Qed.

(** *** What [escape] writes *)

Lemma asciiByte_wire b : (Byte8.code b <? 128)%N = true -> every wire (json.asciiByte b) = true.
Proof. destruct b as [[] [] [] [] [] [] [] []]; intros H; try discriminate H; reflexivity. Qed.

Lemma high_wire b : (Byte8.code b <? 128)%N = false -> wire b = true.
Proof. destruct b as [[] [] [] [] [] [] [] []]; intros H; try discriminate H; reflexivity. Qed.

Lemma cont_wire b : json.cont b = true -> wire b = true.
Proof. destruct b as [[] [] [] [] [] [] [] []]; intros H; try discriminate H; reflexivity. Qed.

Lemma between_high_wire lo hi b :
  (128 <=? lo)%N = true -> Byte8.between lo hi b = true -> wire b = true.
Proof.
  intros Hlo Hb. apply high_wire. unfold Byte8.between in Hb.
  apply andb_true_iff in Hb as [Hb _].
  apply N.leb_le in Hlo, Hb. apply N.ltb_ge. lia.
Qed.

Lemma rune2_wire b0 b1 : json.rune2 b0 b1 = true -> wire b1 = true.
Proof. unfold json.rune2. intros H. apply andb_true_iff in H as [_ H]. apply cont_wire, H. Qed.

Lemma rune3_wire b0 b1 b2 :
  json.rune3 b0 b1 b2 = true -> wire b1 = true /\ wire b2 = true.
Proof.
  unfold json.rune3. cbv zeta. intros H. apply andb_true_iff in H as [H H2].
  split; [|apply cont_wire, H2].
  repeat (apply orb_true_iff in H as [H|H]); apply andb_true_iff in H as [_ H].
  - apply (between_high_wire 160 191); [reflexivity | exact H].
  - apply cont_wire, H.
  - apply (between_high_wire 128 159); [reflexivity | exact H].
Qed.

Lemma rune4_wire b0 b1 b2 b3 :
  json.rune4 b0 b1 b2 b3 = true -> wire b1 = true /\ wire b2 = true /\ wire b3 = true.
Proof.
  unfold json.rune4. cbv zeta. intros H. apply andb_true_iff in H as [H H3].
  apply andb_true_iff in H as [H H2].
  split; [|split; apply cont_wire; assumption].
  repeat (apply orb_true_iff in H as [H|H]); apply andb_true_iff in H as [_ H].
  - apply (between_high_wire 144 191); [reflexivity | exact H].
  - apply cont_wire, H.
  - apply (between_high_wire 128 143); [reflexivity | exact H].
Qed.

Lemma escape_wire s : every wire (json.escape s) = true.
Proof.
  assert (H : forall n s, String.length s <= n -> every wire (json.escape s) = true).
  { clear s. induction n as [|n IH]; intros s Hn.
    - destruct s; [reflexivity | simpl in Hn; lia].
    - destruct s as [|b0 s1]; [reflexivity|]. simpl in Hn.
      assert (H1 : every wire (json.escape s1) = true) by (apply IH; lia).
      assert (Hbad : forall pre, every wire pre = true ->
                every wire (pre +:+ json.escape s1) = true)
        by (intros pre Hpre; rewrite every_app, Hpre, H1; reflexivity).
      cbn [json.escape]. cbv zeta.
      destruct (Byte8.code b0 <? 128)%N eqn:E0.
      { rewrite every_app, asciiByte_wire, H1 by exact E0. reflexivity. }
      destruct s1 as [|b1 s2]; [apply Hbad; reflexivity|]. simpl in Hn.
      destruct (json.rune2 b0 b1) eqn:E2.
      { cbn [every]. rewrite (high_wire _ E0), (rune2_wire _ _ E2), IH by lia. reflexivity. }
      destruct s2 as [|b2 s3]; [apply Hbad; reflexivity|]. simpl in Hn.
      destruct (json.rune3 b0 b1 b2) eqn:E3.
      { destruct (rune3_wire _ _ _ E3) as [W1 W2].
        match goal with |- context [if ?c then _ else _] => destruct c eqn:Esep end.
        - apply andb_true_iff in Esep as [_ Esep].
          rewrite every_app. cbn [every].
          assert (Hh : wire (json.hex (Byte8.code b2 - 160)) = true).
          { apply orb_true_iff in Esep as [Esep|Esep]; apply N.eqb_eq in Esep;
              rewrite Esep; reflexivity. }
          rewrite Hh, IH by lia. reflexivity.
        - cbn [every]. rewrite (high_wire _ E0), W1, W2, IH by lia. reflexivity. }
      destruct s3 as [|b3 s4]; [apply Hbad; reflexivity|]. simpl in Hn.
      destruct (json.rune4 b0 b1 b2 b3) eqn:E4; [|apply Hbad; reflexivity].
      destruct (rune4_wire _ _ _ _ E4) as (W1 & W2 & W3).
      cbn [every]. rewrite (high_wire _ E0), W1, W2, W3, IH by lia. reflexivity. }
  apply (H (String.length s)). lia.
Qed.

Lemma quote_wire s : every wire (json.quote s) = true.
Proof.
  unfold json.quote. rewrite every_app. cbn [every].
  rewrite escape_wire. reflexivity.
Qed.

Lemma member_wire p : every wire (json.member p) = true.
Proof. unfold json.member. rewrite !every_app, !quote_wire. reflexivity. Qed.

Lemma Join_wire l : Forall (fun x => every wire x = true) l -> every wire (Join l ",") = true.
Proof.
  induction 1 as [|x l Hx Hl IH]; [reflexivity|].
  destruct l as [|y l]; [exact Hx|].
  change (Join (x :: y :: l) ",") with (x +:+ "," +:+ Join (y :: l) ",").
  rewrite !every_app, Hx, IH. reflexivity.
Qed.

(** A map is written as a line that a browser can take as text: it has no
    control byte and none of the bytes [<], [>] and [&]. *)
Lemma Marshal_wire m : every wire (json.Marshal m) = true.
Proof.
  unfold json.Marshal. rewrite !every_app, Join_wire; [reflexivity|].
  apply Forall_fmap, Forall_forall. intros p _. apply member_wire.
Qed.

(** A string of bytes that need no escape is written between quotes as it
    is. *)
Lemma escape_plain s : every json.htmlSafe s = true -> json.escape s = s.
Proof.
  induction s as [|c s IH]; [reflexivity|]. simpl every.
  intros H. apply andb_true_iff in H as [Hc Hs].
  cbn [json.escape]. cbv zeta.
  assert (Hlow : (Byte8.code c <? 128)%N = true).
  { unfold json.htmlSafe in Hc. apply andb_true_iff in Hc as [Hc _].
    apply andb_true_iff in Hc as [_ Hc]. exact Hc. }
  rewrite Hlow. unfold json.asciiByte. rewrite Hc, IH by exact Hs. reflexivity.
Qed.

(** The labels are written as they are. *)
Lemma quote_label rules ua :
  Forall (fun rule : Spec.Rule => every json.htmlSafe (snd rule) = true) rules ->
  json.quote (Spec.firstMatch rules ua)
  = String "034" (Spec.firstMatch rules ua) +:+ String "034" "".
Proof.
  intros Hr. unfold json.quote. rewrite escape_plain; [reflexivity|].
  induction Hr as [|[test label] rest Hl _ IH]; simpl; [reflexivity|].
  destruct (test ua); [exact Hl | exact IH].
Qed.

Lemma sorted_agent (a b c d : string) :
  json.sortByKey (map_to_list (<["browser" := a]> (<["os" := b]>
     (<["user_agent" := c]> (<["client_ip" := d]> (∅ : gmap string string))))))
  = [("browser", a); ("client_ip", d); ("os", b); ("user_agent", c)].
Proof. vm_compute. reflexivity. Qed.

Lemma sorted_info (a b c d e f : string) :
  json.sortByKey (map_to_list (<["client_ip" := a]> (<["user_agent" := b]>
     (<["accept_language" := c]> (<["method" := d]>
        (<["path" := e]> (<["protocol" := f]> (∅ : gmap string string))))))))
  = [("accept_language", c); ("client_ip", a); ("method", d); ("path", e);
     ("protocol", f); ("user_agent", b)].
Proof. vm_compute. reflexivity. Qed.

Lemma Encode_object m : json.Encode m = object (json.sortByKey (map_to_list m)) +:+ fmt.nl.
Proof. unfold json.Encode, json.Marshal, object. rewrite !app_assoc. reflexivity. Qed.

Lemma serve_json body :
  resp (serve (w_Header_Set "Content-Type" "application/json; charset=utf-8" >>
               w_Write body))
  = jsonResponse body.
Proof. reflexivity. Qed.

(** X16: for every request [userAgentHandler] answers 200 with the content
    type of JSON and one object followed by a line feed, whose keys come in
    alphabetical order: browser, client_ip, os, user_agent, with the two
    labels, the address that [getClientIP] gives and the user agent of the
    request; the labels are written as they are, between quotes. *)
Theorem userAgentHandler_response (r : Request) :
  exists ip h,
    getClientIP r = Some ip /\ userAgentHandler r = Some h
    /\ resp (serve h)
       = jsonResponse
           (object [("browser", browser (UserAgent r)); ("client_ip", ip);
                    ("os", osname (UserAgent r)); ("user_agent", UserAgent r)]
            +:+ fmt.nl)
    /\ json.quote (browser (UserAgent r))
       = String "034" (browser (UserAgent r)) +:+ String "034" ""
    /\ json.quote (osname (UserAgent r))
       = String "034" (osname (UserAgent r)) +:+ String "034" "".
Proof.
  destruct (getClientIP_total r) as [ip Hip]. exists ip.
  unfold userAgentHandler, userAgentHandler_resp. rewrite Hip. simpl mbind.
  eexists. split; [reflexivity|]. split; [reflexivity|]. split.
  - rewrite serve_json, Encode_object, sorted_agent. reflexivity.
  - split.
    + rewrite Classifier.browser_firstMatch. apply quote_label. repeat constructor.
    + rewrite Classifier.osname_firstMatch. apply quote_label. repeat constructor.
Qed.

(** X15: for every request [infoHandler] answers 200 with the content type
    of JSON and one object followed by a line feed, whose keys come in
    alphabetical order: accept_language, client_ip, method, path, protocol,
    user_agent, each with its value of the request. *)
Theorem infoHandler_response (r : Request) :
  exists ip h,
    getClientIP r = Some ip /\ infoHandler r = Some h
    /\ resp (serve h)
       = jsonResponse
           (object [("accept_language", Header_Get (Header_ r) "Accept-Language");
                    ("client_ip", ip); ("method", Method r); ("path", URL_Path r);
                    ("protocol", Proto r); ("user_agent", UserAgent r)]
            +:+ fmt.nl).
Proof.
  destruct (getClientIP_total r) as [ip Hip]. exists ip.
  unfold infoHandler, infoHandler_info. rewrite Hip. simpl mbind.
  eexists. split; [reflexivity|]. split; [reflexivity|].
  rewrite serve_json, Encode_object, sorted_info. reflexivity.
Qed.

(** X19: whatever bytes the headers and the path of the request hold, the
    body of [userAgentHandler] and of [infoHandler] is one line: up to its
    final line feed it holds no byte below 32, hence no other line feed, and
    none of the bytes <, > and &, which the encoder writes escaped. *)
Theorem json_answers_one_line (r : Request) :
  (exists h line, userAgentHandler r = Some h
     /\ BodyBytes (resp (serve h)) = line +:+ fmt.nl /\ every wire line = true) /\
  (exists h line, infoHandler r = Some h
     /\ BodyBytes (resp (serve h)) = line +:+ fmt.nl /\ every wire line = true).
Proof.
  destruct (getClientIP_total r) as [ip Hip]. split.
  - unfold userAgentHandler, userAgentHandler_resp. rewrite Hip. simpl mbind.
    eexists. eexists. split; [reflexivity|]. rewrite serve_json.
    split; [reflexivity|]. apply Marshal_wire.
  - unfold infoHandler, infoHandler_info. rewrite Hip. simpl mbind.
    eexists. eexists. split; [reflexivity|]. rewrite serve_json.
    split; [reflexivity|]. apply Marshal_wire.
Qed.

(** X21: for every request [clientIPHandler] answers 200 as plain text
    with the address that [getClientIP] gives, followed by a line feed. *)
Theorem clientIPHandler_response (r : Request) :
  exists ip h,
    getClientIP r = Some ip /\ clientIPHandler r = Some h
    /\ resp (serve h) = Spec.plainText (ip +:+ fmt.nl).
Proof.
  destruct (getClientIP_total r) as [ip Hip]. exists ip.
  unfold clientIPHandler. rewrite Hip. simpl mbind.
  eexists. split; [reflexivity|]. split; reflexivity.
Qed.

End JsonAnswers.
(** ** The headers of the request, listed *)

Module Headers.

Import strings StringsFacts http server Shape.

Lemma Sprintf_headerLine k v :
  fmt.Sprintf ("%s: %s" +:+ fmt.nl) [k; Join v ", "] = headerLine k v.
Proof. reflexivity. Qed.

Lemma writeHeaders_cons k v rest w :
  writeHeaders ((k, v) :: rest) w
  = writeHeaders rest (snd (w_Write (headerLine k v) w)).
Proof. reflexivity. Qed.

(** A write on a response whose content type the handler has set. *)
Lemma w_Write_run s w ct :
  HeaderMap (resp w) !! "Content-Type" = Some ct ->
  snd (w_Write s w)
  = {| resp := {| Code := if wroteHeader (resp w) then Code (resp w) else 200;
                  wroteHeader := true;
                  HeaderMap := HeaderMap (resp w);
                  BodyBytes := BodyBytes (resp w) +:+ s |};
       logs := logs w |}.
Proof.
  destruct w as [[code wrote hm body] lg]. cbn [resp HeaderMap]. intros Hct.
  unfold w_Write, onWriter, Write, writeHeader, WriteHeader.
  cbn [resp logs snd Code wroteHeader HeaderMap BodyBytes]. rewrite Hct.
  destruct wrote; reflexivity.
Qed.

Lemma writeHeaders_run order : forall w ct,
  order <> [] ->
  HeaderMap (resp w) !! "Content-Type" = Some ct ->
  snd (writeHeaders order w)
  = {| resp := {| Code := if wroteHeader (resp w) then Code (resp w) else 200;
                  wroteHeader := true;
                  HeaderMap := HeaderMap (resp w);
                  BodyBytes := BodyBytes (resp w) +:+ linesOf order |};
       logs := logs w |}.
Proof.
  induction order as [|[k v] rest IH]; intros w ct Hne Hct; [contradiction|].
  rewrite writeHeaders_cons. destruct rest as [|kv rest'].
  - change (snd (writeHeaders [] ?x)) with x.
    rewrite (w_Write_run _ _ ct Hct). simpl linesOf. rewrite app_nil_r. reflexivity.
  - rewrite (w_Write_run _ _ ct Hct).
    rewrite (IH _ ct) by (try discriminate; exact Hct).
    simpl resp. simpl logs.
    cbn [Code wroteHeader HeaderMap BodyBytes].
    change (linesOf ((k, v) :: kv :: rest')) with (headerLine k v +:+ linesOf (kv :: rest')).
    rewrite app_assoc. reflexivity.
Qed.

Lemma headersHandler_in_body order :
  BodyBytes (resp (serve (headersHandler_in order))) = linesOf order
  /\ Code (resp (serve (headersHandler_in order))) = 200%Z
  /\ HeaderMap (resp (serve (headersHandler_in order)))
     = <["Content-Type" := ["text/plain; charset=utf-8"]]> ∅.
Proof.
  unfold serve, headersHandler_in.
  change (snd (bind (w_Header_Set "Content-Type" "text/plain; charset=utf-8")
                 (fun _ => writeHeaders order) {| resp := NewRecorder; logs := [] |}))
    with (snd (writeHeaders order
                 (snd (w_Header_Set "Content-Type" "text/plain; charset=utf-8"
                         {| resp := NewRecorder; logs := [] |})))).
  destruct order as [|kv rest]; [repeat split|].
  rewrite (writeHeaders_run _ _ ["text/plain; charset=utf-8"]);
    [repeat split | discriminate | reflexivity].
Qed.

Lemma linesOf_In order k v :
  In (k, v) order -> exists pre post, linesOf order = pre +:+ headerLine k v +:+ post.
Proof.
  induction order as [|[k' v'] rest IH]; [intros []|].
  intros [[= -> ->]|Hin].
  - exists "", (linesOf rest). reflexivity.
  - destruct (IH Hin) as (pre & post & Heq).
    exists (headerLine k' v' +:+ pre), post.
    change (linesOf ((k', v') :: rest)) with (headerLine k' v' +:+ linesOf rest).
    rewrite Heq, !app_assoc. reflexivity.
Qed.

Lemma len_linesOf order :
  len (linesOf order) = sum_list_with (fun kv => len (headerLine kv.1 kv.2)) order.
Proof.
  induction order as [|[k v] rest IH]; [reflexivity|].
  change (linesOf ((k, v) :: rest)) with (headerLine k v +:+ linesOf rest).
  rewrite len_app, IH. reflexivity.
Qed.

(** X20: in whatever order the loop of [headersHandler] meets the headers
    of the request, the answer is 200 as plain text, every header of the
    request has its line "key: values joined by comma and space" in the body,
    and the body is as long as these lines together: there is nothing else
    in it. *)
Theorem headers_all_listed (r : Request) (h : Handler unit) :
  headersHandler r h ->
  Code (resp (serve h)) = 200%Z
  /\ HeaderMap (resp (serve h)) = <["Content-Type" := ["text/plain; charset=utf-8"]]> ∅
  /\ (forall k v, Header_ r !! k = Some v ->
        exists pre post, BodyBytes (resp (serve h)) = pre +:+ headerLine k v +:+ post)
  /\ len (BodyBytes (resp (serve h)))
     = sum_list_with (fun kv => len (headerLine kv.1 kv.2)) (map_to_list (Header_ r)).
Proof.
  intros (order & Hperm & ->).
  destruct (headersHandler_in_body order) as (Hb & Hc & Hh).
  split; [exact Hc|]. split; [exact Hh|]. rewrite Hb. split.
  - intros k v Hkv. apply linesOf_In.
    apply list_elem_of_In. rewrite Hperm. apply elem_of_map_to_list. exact Hkv.
  - rewrite len_linesOf. apply sum_list_with_Permutation_proper. exact Hperm.
Qed.

(** The request of [TestHeadersHandler], with one more header. *)
Lemma headers_all_listed_witness :
  exists pre post,
    BodyBytes (resp (serve (headersHandler_in (map_to_list (Header_
       (Samples.request (<["X-Test-Header" := ["val1"]]> (<["Accept" := ["a"; "b"]]> ∅))
          "192.0.2.1:1234"))))))
    = pre +:+ headerLine "X-Test-Header" ["val1"] +:+ post.
Proof.
  refine (proj1 (proj2 (proj2 (headers_all_listed
            (Samples.request (<["X-Test-Header" := ["val1"]]> (<["Accept" := ["a"; "b"]]> ∅))
               "192.0.2.1:1234")
            (headersHandler_in (map_to_list (Header_
               (Samples.request (<["X-Test-Header" := ["val1"]]> (<["Accept" := ["a"; "b"]]> ∅))
                  "192.0.2.1:1234"))))
            _))) "X-Test-Header" ["val1"] _).
  - eexists. split; [apply Permutation_refl | reflexivity].
  - vm_compute. reflexivity.
Defined.

End Headers.
